(** * k2d: the filesystem-backed ConfigMap store

    A shallow embedding of [internal/adapter/store/filesystem/configmap.go]
    and of the properties its specification states about it.

    Go strings are byte strings ([string]); Go maps are finite maps
    ([gmap string string]); the store directory is a finite map from entry
    names to files; every store operation is a function in a small
    state-and-error monad over that directory. *)

From Stdlib Require Import ZArith Ascii String.
From stdpp Require Import gmap strings list fin_maps sorting.

Local Open Scope Z_scope.

(* ===================================================================== *)
(** * Part I: definitions                                                 *)
(* ===================================================================== *)

(** ** Go's [strings] package (the functions the store calls) *)

Module GoStrings.

(** [strings.HasPrefix(s, prefix)]. *)
Fixpoint HasPrefix (s prefix : string) {struct prefix} : bool :=
  match prefix with
  | EmptyString => true
  | String c prefix' =>
      match s with
      | EmptyString => false
      | String d s' => if Ascii.eqb c d then HasPrefix s' prefix' else false
      end
  end.

(** [s[n:]], for [n <= len(s)]. *)
Fixpoint drop (n : nat) (s : string) : string :=
  match n with
  | O => s
  | S n' => match s with EmptyString => EmptyString | String _ s' => drop n' s' end
  end.

(** [strings.TrimPrefix(s, prefix)]: [s] without the leading [prefix], or [s]
    itself when it does not start with [prefix]. *)
Definition TrimPrefix (s prefix : string) : string :=
  if HasPrefix s prefix then drop (String.length prefix) s else s.

(** [strings.HasSuffix(s, suffix)]:
    [len(s) >= len(suffix) && s[len(s)-len(suffix):] == suffix]. *)
Definition HasSuffix (s suffix : string) : bool :=
  (String.length suffix <=? String.length s)%nat
  && String.eqb (drop (String.length s - String.length suffix) s) suffix.

(** [strings.Contains(s, substr)]. *)
Fixpoint Contains (s substr : string) : bool :=
  HasPrefix s substr
  || match s with
     | EmptyString => false
     | String _ s' => Contains s' substr
     end.

(** [strings.Split(s, sep)[0]] for a non-empty [sep]: the text before the
    first occurrence of [sep], all of [s] when [sep] does not occur. *)
Fixpoint SplitHead (s sep : string) : string :=
  if HasPrefix s sep then EmptyString
  else match s with
       | EmptyString => EmptyString
       | String c s' => String c (SplitHead s' sep)
       end.

(** [strings.Split(s, sep)] for a one-byte [sep]; [cur] holds the bytes of
    the current piece, latest first. *)
Fixpoint SplitByte (sep : ascii) (cur : string) (s : string) : list string :=
  match s with
  | EmptyString => [String.rev cur]
  | String c s' =>
      if Ascii.eqb c sep then String.rev cur :: SplitByte sep EmptyString s'
      else SplitByte sep (String c cur) s'
  end.

End GoStrings.

(** ** Go's [path] package: [Clean], [Join], [IsAbs] *)

Module GoPath.

(** The slash-separated elements of a path. *)
Definition elements (p : string) : list string :=
  GoStrings.SplitByte "/"%char EmptyString p.

(** One element pushed on the stack of kept elements (innermost first):
    empty and [.] elements vanish, [..] removes the element before it, is
    dropped at the root and is kept at the start of a relative path. *)
Definition push (rooted : bool) (stack : list string) (e : string) : list string :=
  if decide (e = "" ∨ e = ".") then stack
  else if decide (e = "..") then
    match stack with
    | top :: rest => if decide (top = "..") then e :: stack else rest
    | [] => if rooted then [] else [e]
    end
  else e :: stack.

Definition IsAbs (p : string) : bool := GoStrings.HasPrefix p "/".

(** [path.Clean]: the shortest path equivalent to [p] by lexical processing. *)
Definition Clean (p : string) : string :=
  let rooted := IsAbs p in
  let stack := foldl (push rooted) [] (elements p) in
  let body := String.concat "/" (reverse stack) in
  let out := if rooted then "/" +:+ body else body in
  if decide (out = "") then "." else out.

(** [path.Join(a, b)]: empty elements are ignored unless something precedes
    them, the result is cleaned, and joining two empty strings gives the
    empty string. *)
Definition Join (a b : string) : string :=
  if decide (a = "")
  then (if decide (b = "") then "" else Clean b)
  else Clean (a +:+ "/" +:+ b).

End GoPath.

(** ** File-system calls and errors *)

(** The file-system calls the store makes, by entry name. *)
Inductive syscall : Type :=
| SysReadDir
| SysReadFile (name : string)
| SysStat (name : string)
| SysRemove (name : string)
| SysWriteFile (name : string).

(** The error values the store can return: the distinguished
    [errors.ErrResourceNotFound], what the operating system reports for a
    missing entry, what it reports when it refuses a call for any other
    reason (permissions, an I/O error, a name it cannot hold), a metadata
    file that does not decode, and [fmt.Errorf("<msg>: %w", err)]. *)
Inductive error : Type :=
| ErrResourceNotFound
| ErrNotExist (op name : string)
| ErrSyscall (call : syscall)
| ErrInvalidMetadata (name : string)
| Errorf (msg : string) (cause : error).

(** [errors.Is(err, target)] along the chain of wrapped errors. *)
Fixpoint errors_Is (err : error) (target : error -> bool) : bool :=
  target err
  || match err with
     | Errorf _ cause => errors_Is cause target
     | _ => false
     end.

Definition isNotFound (e : error) : bool :=
  match e with ErrResourceNotFound => true | _ => false end.

Inductive result (A : Type) : Type :=
| Ok (a : A)
| Err (e : error).
Arguments Ok {A} a.
Arguments Err {A} e.

(** ** The store directory *)

(** A regular file: its bytes and its modification time. *)
Record File : Type := mkFile { content : string; modTime : Z }.

(** The world an operation runs in: the entries of the store directory, the
    clock that stamps writes, and the calls made so far (latest first). *)
Record World : Type := mkWorld {
  disk : gmap string File;
  clock : Z;
  trace : list syscall
}.

Definition emptyWorld : World := mkWorld ∅ 0 [].

Definition logCall (c : syscall) (w : World) : World :=
  mkWorld (disk w) (clock w) (c :: trace w).

(** ** The monad of store operations: state passing with Go's error returns.
    An error does not undo the writes made before it. *)

Definition M (A : Type) : Type := World -> result A * World.

Definition ret {A} (a : A) : M A := fun w => (Ok a, w).

Definition fail {A} (e : error) : M A := fun w => (Err e, w).

Definition bind {A B} (k : A -> M B) (m : M A) : M B :=
  fun w => match m w with
           | (Ok a, w') => k a w'
           | (Err e, w') => (Err e, w')
           end.

#[global] Instance M_ret : MRet M := @ret.
#[global] Instance M_bind : MBind M := @bind.

(** [if err != nil { return fmt.Errorf("<msg>: %w", err) }]. *)
Definition wrap {A} (msg : string) (m : M A) : M A :=
  fun w => match m w with
           | (Ok a, w') => (Ok a, w')
           | (Err e, w') => (Err (Errorf msg e), w')
           end.

(** [for _, x := range l { acc, err = body(acc, x); if err != nil { return } }]. *)
Fixpoint forRange {A S} (body : S -> A -> M S) (l : list A) (acc : S) : M S :=
  match l with
  | [] => ret acc
  | x :: l' => acc' ← body acc x; forRange body l' acc'
  end.

(** ** What the store takes from outside [configmap.go]

    [NamespaceNameLabelKey] is a constant of the store package; the two
    codec functions are the serialisation behind
    [filesystem.StoreMetadataOnDisk] and [filesystem.LoadMetadataFromDisk].
    [refuses] is the operating system under the store: the calls it answers
    with an error although the entry is there (the directory cannot be
    enumerated, a file cannot be read, removed or written, a name cannot be
    held).  Nothing is assumed about it; what it refuses, it refuses each
    time. *)

Class Pkg : Type := {
  NamespaceNameLabelKey : string;
  encodeMetadata : gmap string string -> string;
  decodeMetadata : string -> option (gmap string string);
  refuses : syscall -> bool
}.

(** ** Go's [os] package on the store directory

    The store only ever touches [path.Join(s.configMapPath, name)] for an
    entry [name] of its own directory, so a call is modelled on the entry
    name.  Every call fails when the operating system refuses it, and then
    changes nothing.  Otherwise [ReadDir] returns the entry names sorted, as
    [os.ReadDir] does; a read, a stat or a removal of a missing entry fails;
    a write under a name that the flat directory cannot hold as one entry
    fails, and any other write creates or replaces the entry. *)

Module os.
Section with_pkg.
Context `{Pkg}.

(** The entry names of a directory, sorted by name. *)
Definition entryNames (d : gmap string File) : list string :=
  merge_sort String.le (map_to_list d).*1.

Definition ReadDir : M (list string) :=
  fun w => if refuses SysReadDir
           then (Err (ErrSyscall SysReadDir), logCall SysReadDir w)
           else (Ok (entryNames (disk w)), logCall SysReadDir w).

Definition ReadFile (name : string) : M string :=
  fun w => if refuses (SysReadFile name)
           then (Err (ErrSyscall (SysReadFile name)), logCall (SysReadFile name) w)
           else match disk w !! name with
                | Some f => (Ok (content f), logCall (SysReadFile name) w)
                | None => (Err (ErrNotExist "open" name), logCall (SysReadFile name) w)
                end.

Definition Stat (name : string) : M File :=
  fun w => if refuses (SysStat name)
           then (Err (ErrSyscall (SysStat name)), logCall (SysStat name) w)
           else match disk w !! name with
                | Some f => (Ok f, logCall (SysStat name) w)
                | None => (Err (ErrNotExist "stat" name), logCall (SysStat name) w)
                end.

Definition Remove (name : string) : M unit :=
  fun w => if refuses (SysRemove name)
           then (Err (ErrSyscall (SysRemove name)), logCall (SysRemove name) w)
           else match disk w !! name with
                | Some _ =>
                    (Ok tt, mkWorld (delete name (disk w)) (clock w)
                                    (SysRemove name :: trace w))
                | None => (Err (ErrNotExist "remove" name), logCall (SysRemove name) w)
                end.

(** A name that a directory can hold as one entry: not empty, and free of
    the path separator and of the NUL byte. *)
Definition isEntryName (name : string) : bool :=
  negb (String.eqb name "")
  && negb (GoStrings.Contains name "/")
  && negb (GoStrings.Contains name (String (ascii_of_nat 0) EmptyString)).

Definition WriteFile (name data : string) : M unit :=
  fun w => if refuses (SysWriteFile name) || negb (isEntryName name)
           then (Err (ErrSyscall (SysWriteFile name)), logCall (SysWriteFile name) w)
           else (Ok tt, mkWorld (<[name := mkFile data (clock w)]> (disk w))
                                (clock w + 1) (SysWriteFile name :: trace w)).

End with_pkg.
End os.

(** The separator between [namespace]-[configmap-name] and the key, as the
    naming convention documented above [buildConfigMapFilePrefix] has it:
    [namespace]-[configmap-name]-k2dcm-[key]. *)
Definition ConfigMapSeparator : string := "-k2dcm-".

(** The annotation key of the comment above [GetConfigMapBinds]:
    store.k2d.io/filesystem/path/*. *)
Definition FilePathAnnotationKey : string := "store.k2d.io/filesystem/path".

Module pkg_maputils.

(** Modelled from the spec: [maputils.MergeMapsInPlace] is not among the
    sources.  Store writes the label map with an injected label recording the
    owning namespace: the entries of the second map are written into the
    first. *)
Definition MergeMapsInPlace (map1 map2 : gmap string string) : gmap string string :=
  map2 ∪ map1.

End pkg_maputils.

Module pkg_filesystem.
Section with_pkg.
Context `{Pkg}.

(** Modelled from the spec: [filesystem.StoreMetadataOnDisk] is not among
    the sources.  The metadata codec serialises the label set to the
    dedicated side file. *)
Definition StoreMetadataOnDisk (fileName : string) (metadata : gmap string string) : M unit :=
  os.WriteFile fileName (encodeMetadata metadata).

(** Modelled from the spec: [filesystem.LoadMetadataFromDisk] is not among
    the sources.  The side file is read (an I/O failure when it cannot be)
    and deserialised (an encoding failure when it does not decode). *)
Definition LoadMetadataFromDisk (fileName : string) : M (gmap string string) :=
  data ← os.ReadFile fileName;
  match decodeMetadata data with
  | Some metadata => mret metadata
  | None => fail (ErrInvalidMetadata fileName)
  end.

(** Modelled from the spec: [filesystem.StoreDataMapOnDisk] is not among the
    sources.  One data file per key, named [filePrefix] followed by the key,
    holding the raw payload and overwriting any file of that name.  Go ranges
    over the map in no fixed order; the keys are taken in the order of
    [map_to_list]. *)
Definition writeDataFile (filePrefix : string) (_ : unit) (kv : string * string) : M unit :=
  os.WriteFile (filePrefix +:+ kv.1) kv.2.

Definition StoreDataMapOnDisk (filePrefix : string) (data : gmap string string) : M unit :=
  forRange (writeDataFile filePrefix) (map_to_list data) tt.

End with_pkg.
End pkg_filesystem.

Module pkg_strings.
Import GoStrings.

(** Modelled from the spec: [str.UniquePrefixes] is not among the sources.
    The file names are reduced to the set of unique prefixes, using the
    separator as the split point.  The order is that of first occurrence. *)
Definition UniquePrefixes (strs : list string) (separator : string) : list string :=
  remove_dups ((fun s => SplitHead s separator) <$> strs).

(** Modelled from the spec: [str.FilterStringsByPrefix] is not among the
    sources.  Keeps the entries that start with the given prefix. *)
Definition FilterStringsByPrefix (input : list string) (prefix : string) : list string :=
  filter (fun s => HasPrefix s prefix = true) input.

(** Modelled from the spec: [str.RemoveItemsWithSuffix] is not among the
    sources.  Drops the entries that end with the given suffix. *)
Definition RemoveItemsWithSuffix (input : list string) (suffix : string) : list string :=
  filter (fun s => HasSuffix s suffix = false) input.

End pkg_strings.

(** ** The resource *)

(** [core.ConfigMap], with the fields the store reads or writes.  A Go map
    that is [nil] reads as the empty map; only for the annotations, which
    [GetConfigMaps] leaves unset, is [nil] kept apart ([None]).  The zero
    creation timestamp is [None]. *)
Record ConfigMap : Type := mkConfigMap {
  Kind : string;
  APIVersion : string;
  Name : string;
  Namespace : string;
  Labels : gmap string string;
  Annotations : option (gmap string string);
  CreationTimestamp : option Z;
  Data : gmap string string
}.

Record ConfigMapList : Type := mkConfigMapList {
  ListKind : string;
  ListAPIVersion : string;
  Items : list ConfigMap
}.

(** [configMap.Labels = metadata]. *)
Definition setLabels (cm : ConfigMap) (labels : gmap string string) : ConfigMap :=
  mkConfigMap (Kind cm) (APIVersion cm) (Name cm) (Namespace cm) labels
              (Annotations cm) (CreationTimestamp cm) (Data cm).

(** [configMap.ObjectMeta.Namespace = ns; configMap.ObjectMeta.Name = name]. *)
Definition setIdentity (cm : ConfigMap) (name ns : string) : ConfigMap :=
  mkConfigMap (Kind cm) (APIVersion cm) name ns (Labels cm)
              (Annotations cm) (CreationTimestamp cm) (Data cm).

(** [configMap.Data[key] = value]. *)
Definition setData (cm : ConfigMap) (key value : string) : ConfigMap :=
  mkConfigMap (Kind cm) (APIVersion cm) (Name cm) (Namespace cm) (Labels cm)
              (Annotations cm) (CreationTimestamp cm) (<[key := value]> (Data cm)).

(** [configMap.ObjectMeta.CreationTimestamp = metav1.NewTime(t)]. *)
Definition setCreationTimestamp (cm : ConfigMap) (t : Z) : ConfigMap :=
  mkConfigMap (Kind cm) (APIVersion cm) (Name cm) (Namespace cm) (Labels cm)
              (Annotations cm) (Some t) (Data cm).

(** [configMap.ObjectMeta.Annotations[key] = value], on the map the
    resource was built with. *)
Definition setAnnotation (cm : ConfigMap) (key value : string) : ConfigMap :=
  mkConfigMap (Kind cm) (APIVersion cm) (Name cm) (Namespace cm) (Labels cm)
              ((fun a => <[key := value]> a) <$> Annotations cm)
              (CreationTimestamp cm) (Data cm).

(** ** The store: [configmap.go] *)

(** [FileSystemStore]: the directory of the ConfigMap files.  Every method
    holds [s.mutex] from its first to its last statement, so each is one
    atomic step on the world. *)
Record FileSystemStore : Type := mkStore { configMapPath : string }.

(** [[namespace]-[configmap-name]-k2dcm.metadata]. *)
Definition buildConfigMapMetadataFileName (configMapName namespace : string) : string :=
  namespace +:+ "-" +:+ configMapName +:+ "-k2dcm.metadata".

(** [[namespace]-[configmap-name]-k2dcm-], the prefix of the key files. *)
Definition buildConfigMapFilePrefix (configMapName namespace : string) : string :=
  namespace +:+ "-" +:+ configMapName +:+ ConfigMapSeparator.

(** What the naming codec asks of a name, a namespace or a key: neither the
    separator nor the metadata suffix occurs in it. *)
Definition reservedFree (x : string) : bool :=
  negb (GoStrings.Contains x ConfigMapSeparator)
  && negb (GoStrings.Contains x ".metadata").

(** The loop that looks for one file with the prefix and breaks. *)
Definition hasMatchingConfigMapFile (files : list string) (filePrefix : string) : bool :=
  existsb (fun file => GoStrings.HasPrefix file filePrefix) files.

Section store.
Context `{Pkg}.

(** The body of the second loop of [DeleteConfigMap]. *)
Definition removeConfigMapFile (filePrefix : string) (_ : unit) (file : string) : M unit :=
  if GoStrings.HasPrefix file filePrefix
  then wrap ("unable to remove configmap data file " +:+ file) (os.Remove file)
  else mret tt.

Definition DeleteConfigMap (s : FileSystemStore) (configMapName namespace : string) : M unit :=
  files ← wrap "unable to read configmap directory" os.ReadDir;
  let filePrefix := buildConfigMapFilePrefix configMapName namespace in
  if negb (hasMatchingConfigMapFile files filePrefix) then fail ErrResourceNotFound
  else
    let metadataFileName := buildConfigMapMetadataFileName configMapName namespace in
    wrap ("unable to remove configmap metadata file " +:+ metadataFileName)
         (os.Remove metadataFileName);;
    forRange (removeConfigMapFile filePrefix) files tt.

(** The result pairs the binds with the error, which is always [nil]. *)
Definition GetConfigMapBinds (s : FileSystemStore) (configMap : ConfigMap)
  : gmap string string * option error :=
  let binds :=
    map_fold (fun key value binds =>
                if GoStrings.HasPrefix key FilePathAnnotationKey
                then <[GoStrings.TrimPrefix key (FilePathAnnotationKey +:+ "/") := value]> binds
                else binds)
             ∅ (default ∅ (Annotations configMap)) in
  (binds, None).

(** The body of the second loop of [GetConfigMap]. *)
Definition readConfigMapFile (s : FileSystemStore) (filePrefix : string) (configMap : ConfigMap) (file : string)
  : M ConfigMap :=
  if GoStrings.HasPrefix file filePrefix then
    data ← wrap ("unable to read file " +:+ file) (os.ReadFile file);
    let configMap := setData configMap (GoStrings.TrimPrefix file filePrefix) data in
    info ← wrap ("unable to get file info for " +:+ file) (os.Stat file);
    let configMap := setCreationTimestamp configMap (modTime info) in
    mret (setAnnotation configMap
            (FilePathAnnotationKey +:+ "/" +:+ GoStrings.TrimPrefix file filePrefix)
            (GoPath.Join (configMapPath s) file))
  else mret configMap.

Definition GetConfigMap (s : FileSystemStore) (configMapName namespace : string)
  : M ConfigMap :=
  files ← wrap "unable to read configmap directory" os.ReadDir;
  let filePrefix := buildConfigMapFilePrefix configMapName namespace in
  if negb (hasMatchingConfigMapFile files filePrefix) then fail ErrResourceNotFound
  else
    let configMap :=
      mkConfigMap "ConfigMap" "v1" configMapName namespace ∅ (Some ∅) None ∅ in
    let metadataFileName := buildConfigMapMetadataFileName configMapName namespace in
    metadata ← wrap "unable to load configmap metadata from disk"
                    (pkg_filesystem.LoadMetadataFromDisk metadataFileName);
    let configMap := setLabels configMap metadata in
    forRange (readConfigMapFile s filePrefix) files configMap.

(** The body of the inner loop of [GetConfigMaps]. *)
Definition listConfigMapFile (filePrefix : string) (configMap : ConfigMap) (file : string)
  : M ConfigMap :=
  if GoStrings.HasPrefix file filePrefix then
    data ← wrap ("unable to read file " +:+ file) (os.ReadFile file);
    let configMap := setData configMap (GoStrings.TrimPrefix file filePrefix) data in
    info ← wrap ("unable to get file info for " +:+ file) (os.Stat file);
    mret (setCreationTimestamp configMap (modTime info))
  else mret configMap.

(** The body of the outer loop of [GetConfigMaps]: one resource per unique
    name, appended to the list. *)
Definition listConfigMap (files : list string) (configMaps : list ConfigMap) (name : string)
  : M (list ConfigMap) :=
  let configMap := mkConfigMap "ConfigMap" "v1" "" "" ∅ None None ∅ in
  let metadataFileName := name +:+ "-k2dcm.metadata" in
  metadata ← wrap "unable to load configmap metadata from disk"
                  (pkg_filesystem.LoadMetadataFromDisk metadataFileName);
  let configMap := setLabels configMap metadata in
  let namespace := default "" (metadata !! NamespaceNameLabelKey) in
  let configMap :=
    setIdentity configMap (GoStrings.TrimPrefix name (namespace +:+ "-")) namespace in
  let filePrefix := buildConfigMapFilePrefix (Name configMap) (Namespace configMap) in
  configMap ← forRange (listConfigMapFile filePrefix) files configMap;
  mret (configMaps ++ [configMap]).

Definition GetConfigMaps (s : FileSystemStore) (namespace : string) : M ConfigMapList :=
  files ← wrap "unable to read configmap directory" os.ReadDir;
  let fileNames := files in
  let uniqueNames := pkg_strings.UniquePrefixes fileNames ConfigMapSeparator in
  let uniqueNames := pkg_strings.FilterStringsByPrefix uniqueNames namespace in
  let uniqueNames := pkg_strings.RemoveItemsWithSuffix uniqueNames ".metadata" in
  configMaps ← forRange (listConfigMap files) uniqueNames [];
  mret (mkConfigMapList "ConfigMapList" "v1" configMaps).

Definition StoreConfigMap (s : FileSystemStore) (configMap : ConfigMap) : M unit :=
  let labels := {[ NamespaceNameLabelKey := Namespace configMap ]} in
  let labels := pkg_maputils.MergeMapsInPlace labels (Labels configMap) in
  let metadataFileName :=
    buildConfigMapMetadataFileName (Name configMap) (Namespace configMap) in
  wrap "unable to store configmap metadata on disk"
       (pkg_filesystem.StoreMetadataOnDisk metadataFileName labels);;
  let filePrefix := buildConfigMapFilePrefix (Name configMap) (Namespace configMap) in
  wrap "unable to store configmap data on disk"
       (pkg_filesystem.StoreDataMapOnDisk filePrefix (Data configMap)).

End store.

(** ** An instance of the absent parts, to run the store on examples

    A line-oriented codec, one [key=value] line per label, a label key in
    the store's annotation domain, and an operating system that refuses
    nothing ([linePkg]) or the calls given ([refusing]). *)

Module LineCodec.
Import GoStrings.

Definition newline : string := String (ascii_of_nat 10) EmptyString.

Definition encode (metadata : gmap string string) : string :=
  foldr (fun kv out => kv.1 +:+ "=" +:+ kv.2 +:+ newline +:+ out) "" (map_to_list metadata).

Definition decodeLine (line : string) : option (string * string) :=
  if Contains line "=" then
    let key := SplitHead line "=" in
    Some (key, drop (S (String.length key)) line)
  else None.

Definition decode (data : string) : option (gmap string string) :=
  foldr (fun line acc =>
           metadata ← acc;
           if decide (line = "") then Some metadata
           else kv ← decodeLine line; Some (<[kv.1 := kv.2]> metadata))
        (Some ∅) (SplitByte (ascii_of_nat 10) EmptyString data).

End LineCodec.

Definition refusing (calls : syscall -> bool) : Pkg :=
  {| NamespaceNameLabelKey := "store.k2d.io/namespace-name";
     encodeMetadata := LineCodec.encode;
     decodeMetadata := LineCodec.decode;
     refuses := calls |}.

Definition linePkg : Pkg := refusing (fun _ => false).

(** ** The loops of the store, read as functions of the directory

    What one iteration of the loop of [GetConfigMap], and of the inner loop
    of [GetConfigMaps], makes of the resource when the directory is [d]. *)

Definition readEntry (s : FileSystemStore) (filePrefix : string) (d : gmap string File)
    (configMap : ConfigMap) (file : string) : ConfigMap :=
  if GoStrings.HasPrefix file filePrefix then
    match d !! file with
    | Some f =>
        setAnnotation
          (setCreationTimestamp
             (setData configMap (GoStrings.TrimPrefix file filePrefix) (content f))
             (modTime f))
          (FilePathAnnotationKey +:+ "/" +:+ GoStrings.TrimPrefix file filePrefix)
          (GoPath.Join (configMapPath s) file)
    | None => configMap
    end
  else configMap.

Definition listEntry (filePrefix : string) (d : gmap string File)
    (configMap : ConfigMap) (file : string) : ConfigMap :=
  if GoStrings.HasPrefix file filePrefix then
    match d !! file with
    | Some f =>
        setCreationTimestamp
          (setData configMap (GoStrings.TrimPrefix file filePrefix) (content f))
          (modTime f)
    | None => configMap
    end
  else configMap.

(** A resource with its annotations left unset. *)
Definition forgetAnnotations (cm : ConfigMap) : ConfigMap :=
  mkConfigMap (Kind cm) (APIVersion cm) (Name cm) (Namespace cm) (Labels cm)
              None (CreationTimestamp cm) (Data cm).

(** ** Example inputs

    The scenario of the specification: the resource [app-config] of
    namespace [default] with one label and two keys, in a store at an
    absolute path. *)

Module Example.

Definition store : FileSystemStore := mkStore "/var/lib/k2d/configmaps".

Definition appConfig : ConfigMap :=
  mkConfigMap "ConfigMap" "v1" "app-config" "default"
              {[ "env" := "prod" ]} None None {[ "A" := "1"; "B" := "2" ]}.

(** The store after [appConfig] was stored into the empty directory. *)
Definition stored : World := (@StoreConfigMap linePkg store appConfig emptyWorld).2.

(** The listing of namespace [default] on that store, and its first item. *)
Definition listing : ConfigMapList :=
  match (@GetConfigMaps linePkg store "default" stored).1 with
  | Ok l => l
  | Err _ => mkConfigMapList "" "" []
  end.

Definition item : ConfigMap :=
  match Items listing with
  | it :: _ => it
  | [] => appConfig
  end.

(** The resource read back from that store. *)
Definition read : ConfigMap :=
  match (@GetConfigMap linePkg store "app-config" "default" stored).1 with
  | Ok cm => cm
  | Err _ => appConfig
  end.

(** A half-deleted resource: its data files without the metadata file. *)
Definition halfDeleted : World :=
  mkWorld {[ "default-app-config-k2dcm-A" := mkFile "1" 1;
             "default-app-config-k2dcm-B" := mkFile "2" 2 ]} 3 [].

End Example.

(** ** The resource an operation returned *)

(** The resource of a run that succeeded; an empty resource otherwise. *)
Definition returned (run : result ConfigMap * World) : ConfigMap :=
  match run.1 with
  | Ok cm => cm
  | Err _ => mkConfigMap "" "" "" "" ∅ None None ∅
  end.

(** ** Further example inputs *)

Module Example2.

(** A resource with a label and no data. *)
Definition noData : ConfigMap :=
  mkConfigMap "ConfigMap" "v1" "app-config" "default" {[ "env" := "prod" ]} None None ∅.

(** [appConfig] again, with key [A] changed and key [B] dropped. *)
Definition appConfig' : ConfigMap :=
  mkConfigMap "ConfigMap" "v1" "app-config" "default"
              {[ "env" := "prod" ]} None None {[ "A" := "one" ]}.

End Example2.

(** ** A store at a relative path *)

Module Example3.

Definition relativeStore : FileSystemStore := mkStore "data/configmaps".

End Example3.

(** ** The listing, read as a function of the directory *)

Section listing_model.
Context `{Pkg}.

(** The resource the outer loop of [GetConfigMaps] builds for a unique
    name whose metadata file decodes to [metadata]. *)
Definition listItem (d : gmap string File) (files : list string) (name : string)
    (metadata : gmap string string) : ConfigMap :=
  let configMap := mkConfigMap "ConfigMap" "v1" "" "" ∅ None None ∅ in
  let configMap := setLabels configMap metadata in
  let namespace := default "" (metadata !! NamespaceNameLabelKey) in
  let configMap :=
    setIdentity configMap (GoStrings.TrimPrefix name (namespace +:+ "-")) namespace in
  let filePrefix := buildConfigMapFilePrefix (Name configMap) (Namespace configMap) in
  foldl (listEntry filePrefix d) configMap files.

(** The metadata files of a directory agree with their names: a file
    [u]-k2dcm.metadata that decodes records a namespace label such that [u]
    starts with that namespace and a dash.  [StoreConfigMap] writes such
    files, as long as the labels it is given do not set the namespace label
    to another namespace. *)
Definition labelsAgree (d : gmap string File) : Prop :=
  forall u mf md,
    d !! (u +:+ "-k2dcm.metadata") = Some mf ->
    decodeMetadata (content mf) = Some md ->
    GoStrings.HasPrefix u (default "" (md !! NamespaceNameLabelKey) +:+ "-") = true.

(** The files with the prefix among [files] can all be read: each is an
    entry of the directory, and the operating system refuses neither its
    read nor its stat. *)
Definition readable (filePrefix : string) (d : gmap string File) (files : list string) : Prop :=
  forall f, f ∈ files -> GoStrings.HasPrefix f filePrefix = true ->
    is_Some (d !! f) /\ refuses (SysReadFile f) = false /\ refuses (SysStat f) = false.

(** [s[:n]]. *)
Fixpoint take (n : nat) (s : string) : string :=
  match n, s with
  | S n', String c s' => String c (take n' s')
  | _, _ => EmptyString
  end.

(** [labelsAgree], checked entry by entry. *)
Definition labelsAgreeb (d : gmap string File) : bool :=
  forallb (fun entry =>
             if GoStrings.HasSuffix entry.1 "-k2dcm.metadata" then
               match decodeMetadata (content entry.2) with
               | Some md =>
                   GoStrings.HasPrefix
                     (take (String.length entry.1 - String.length "-k2dcm.metadata") entry.1)
                     (default "" (md !! NamespaceNameLabelKey) +:+ "-")
               | None => true
               end
             else true)
          (map_to_list d).

End listing_model.

(** ** Two namespaces, one a prefix of the other *)

Module Example4.

Definition kubeConfig : ConfigMap :=
  mkConfigMap "ConfigMap" "v1" "app-config" "kube" ∅ None None {[ "A" := "1" ]}.

Definition dnsConfig : ConfigMap :=
  mkConfigMap "ConfigMap" "v1" "dns" "kube-system" ∅ None None {[ "Corefile" := "." ]}.

(** A resource of [kube] whose files are named as those of [dnsConfig]. *)
Definition systemDnsConfig : ConfigMap :=
  mkConfigMap "ConfigMap" "v1" "system-dns" "kube" ∅ None None {[ "Corefile" := "." ]}.

(** The store after [kubeConfig] and then [dnsConfig] were stored. *)
Definition twoNamespaces : World :=
  (@StoreConfigMap linePkg Example.store dnsConfig
     (@StoreConfigMap linePkg Example.store kubeConfig emptyWorld).2).2.

End Example4.

(** ** Operating systems that refuse a call *)

Module Example8.

(** The store directory cannot be enumerated. *)
Definition unlistable : Pkg :=
  refusing (fun c => match c with SysReadDir => true | _ => false end).

(** The metadata file of [app-config] cannot be removed. *)
Definition lockedMetadata : Pkg :=
  refusing (fun c => match c with
                     | SysRemove name => String.eqb name "default-app-config-k2dcm.metadata"
                     | _ => false
                     end).

(** The data file of key [B] of [app-config] cannot be removed. *)
Definition lockedData : Pkg :=
  refusing (fun c => match c with
                     | SysRemove name => String.eqb name "default-app-config-k2dcm-B"
                     | _ => false
                     end).

(** Nothing can be written. *)
Definition readOnlyDisk : Pkg :=
  refusing (fun c => match c with SysWriteFile _ => true | _ => false end).

End Example8.

(** ** The names of containers and networks: package [adapter] *)

Module adapter.

(** [[namespace]-[container-name]], the container name without its leading
    slash. *)
Definition buildContainerName (containerName namespace : string) : string :=
  let containerName := GoStrings.TrimPrefix containerName "/" in
  namespace +:+ "-" +:+ containerName.

(** [k2d-[namespace]]. *)
Definition buildNetworkName (namespace : string) : string :=
  "k2d-" +:+ namespace.

End adapter.

(** ** Kinds of file-system calls *)

(** The calls that only read the directory. *)
Definition isReadCall (c : syscall) : bool :=
  match c with
  | SysReadDir | SysReadFile _ | SysStat _ => true
  | SysRemove _ | SysWriteFile _ => false
  end.

(** [w'] is [w] after some calls that only read: the same directory, the
    same clock, and a trace grown by read calls. *)
Definition readOnly (w w' : World) : Prop :=
  disk w' = disk w /\ clock w' = clock w
  /\ exists calls, trace w' = calls ++ trace w /\ forallb isReadCall calls = true.

(** ** A store that holds another resource *)

Module Example5.

(** The store after [kubeConfig] was stored. *)
Definition kubeStored : World :=
  (@StoreConfigMap linePkg Example.store Example4.kubeConfig emptyWorld).2.

(** The store [Example.stored] after [app-config] was deleted. *)
Definition deleted : World :=
  (@DeleteConfigMap linePkg Example.store "app-config" "default" Example.stored).2.

End Example5.

(** ** Two resources of one namespace *)

Module Example6.

Definition dbConfig : ConfigMap :=
  mkConfigMap "ConfigMap" "v1" "db-config" "default" ∅ None None {[ "URL" := "db:5432" ]}.

(** The store after [appConfig] and then [dbConfig] were stored. *)
Definition twoResources : World :=
  (@StoreConfigMap linePkg Example.store dbConfig Example.stored).2.

End Example6.

(** ** The same store with a file that belongs to no resource *)

Module Example7.

Definition withNotes : World :=
  mkWorld (<[ "notes.txt" := mkFile "x" 9 ]> (disk Example.stored)) 4 [].

End Example7.

(* ===================================================================== *)
(** * Part II: properties                                                 *)
(* ===================================================================== *)

(** ** Facts about Go's string functions *)

Module GoStringsFacts.
Import GoStrings.

Lemma app_nil_l (s : string) : "" +:+ s = s.
Proof. reflexivity. Qed.

Lemma app_cons (c : ascii) (s t : string) : String c s +:+ t = String c (s +:+ t).
Proof. reflexivity. Qed.

Lemma app_nil_r (s : string) : s +:+ "" = s.
Proof. induction s as [|c s IH]; [done|]. by rewrite app_cons, IH. Qed.

Lemma app_assoc (s t u : string) : (s +:+ t) +:+ u = s +:+ t +:+ u.
Proof. induction s as [|c s IH]; [done|]. by rewrite !app_cons, IH. Qed.

Lemma length_app (s t : string) :
  String.length (s +:+ t) = (String.length s + String.length t)%nat.
Proof. induction s as [|c s IH]; [done|]. rewrite app_cons. simpl. by rewrite IH. Qed.

Lemma app_inj_l (s t u : string) : s +:+ t = s +:+ u -> t = u.
Proof. apply (inj (String.append s)). Qed.

(** Two ways of cutting one string: one cut lies inside the other piece. *)
Lemma app_eq_app (s1 s2 t1 t2 : string) :
  s1 +:+ s2 = t1 +:+ t2 ->
  exists r, (s1 = t1 +:+ r /\ t2 = r +:+ s2) \/ (t1 = s1 +:+ r /\ s2 = r +:+ t2).
Proof.
  revert t1. induction s1 as [|c s1 IH]; intros t1 Heq.
  - rewrite app_nil_l in Heq. exists t1. by right.
  - destruct t1 as [|d t1].
    + rewrite app_nil_l in Heq. exists (String c s1). by left.
    + rewrite !app_cons in Heq. injection Heq as -> Heq.
      destruct (IH _ Heq) as [r [[-> ->]|[-> ->]]]; exists r; [left|right]; done.
Qed.

Lemma HasPrefix_spec (s p : string) :
  HasPrefix s p = true <-> exists r, s = p +:+ r.
Proof.
  revert s. induction p as [|c p IH]; intros s; simpl.
  - split; [intros _; by exists s|done].
  - destruct s as [|d s].
    + split; [done|]. intros [r Hr]. by rewrite app_cons in Hr.
    + destruct (Ascii.eqb_spec c d) as [->|Hne].
      * rewrite IH. split; intros [r Hr]; exists r.
        -- by rewrite app_cons, Hr.
        -- rewrite app_cons in Hr. by injection Hr.
      * split; [done|]. intros [r Hr]. rewrite app_cons in Hr. congruence.
Qed.

Lemma HasPrefix_app (p r : string) : HasPrefix (p +:+ r) p = true.
Proof. apply HasPrefix_spec. by exists r. Qed.

Lemma HasPrefix_false (s p : string) :
  HasPrefix s p = false <-> forall r, s <> p +:+ r.
Proof.
  rewrite <- not_true_iff_false, HasPrefix_spec. split.
  - intros Hn r Hr. apply Hn. by exists r.
  - intros Hn [r Hr]. by apply (Hn r).
Qed.

Lemma drop_app (p r : string) : drop (String.length p) (p +:+ r) = r.
Proof. induction p as [|c p IH]; [done|]. by rewrite app_cons. Qed.

Lemma TrimPrefix_app (p r : string) : TrimPrefix (p +:+ r) p = r.
Proof. unfold TrimPrefix. by rewrite HasPrefix_app, drop_app. Qed.

(** A string that starts with the prefix is the prefix followed by what
    [TrimPrefix] leaves. *)
Lemma HasPrefix_TrimPrefix (s p : string) :
  HasPrefix s p = true -> s = p +:+ TrimPrefix s p.
Proof. intros [r ->]%HasPrefix_spec. by rewrite TrimPrefix_app. Qed.

Lemma HasSuffix_app (s suffix : string) : HasSuffix (s +:+ suffix) suffix = true.
Proof.
  unfold HasSuffix. rewrite length_app.
  replace (String.length s + String.length suffix - String.length suffix)%nat
    with (String.length s) by lia.
  rewrite drop_app, String.eqb_refl, andb_true_r.
  apply Nat.leb_le. lia.
Qed.

Lemma Contains_app (a sub b : string) : Contains (a +:+ sub +:+ b) sub = true.
Proof.
  induction a as [|c a IH].
  - rewrite app_nil_l. destruct (sub +:+ b) eqn:E; simpl; rewrite <- ?E;
      by rewrite HasPrefix_app.
  - rewrite app_cons. simpl. rewrite IH. apply orb_true_r.
Qed.

Lemma Contains_false_app (a sub b : string) :
  Contains (a +:+ sub +:+ b) sub = false -> False.
Proof. by rewrite Contains_app. Qed.

(** Two strings cut at a dash that neither first piece contains have the
    same pieces. *)
Lemma dash_split (a b x y : string) :
  Contains a "-" = false -> Contains b "-" = false ->
  a +:+ "-" +:+ x = b +:+ "-" +:+ y -> a = b /\ x = y.
Proof.
  revert b. induction a as [|c a IH]; intros b Ha Hb Heq.
  - destruct b as [|d b].
    + rewrite !app_nil_l in Heq. split; [done|]. by apply app_inj_l in Heq.
    + rewrite app_nil_l, (app_cons d b) in Heq.
      change ("-" +:+ x) with (String "-" x) in Heq. injection Heq as <- _.
      cbn [Contains HasPrefix] in Hb. by rewrite Ascii.eqb_refl in Hb.
  - destruct b as [|d b].
    + rewrite app_nil_l, (app_cons c a) in Heq.
      change ("-" +:+ y) with (String "-" y) in Heq. injection Heq as -> _.
      cbn [Contains HasPrefix] in Ha. by rewrite Ascii.eqb_refl in Ha.
    + rewrite (app_cons c a), (app_cons d b) in Heq. injection Heq as -> Heq.
      cbn [Contains HasPrefix] in Ha, Hb.
      apply orb_false_elim in Ha as [_ Ha]. apply orb_false_elim in Hb as [_ Hb].
      by destruct (IH b Ha Hb Heq) as [-> ->].
Qed.

End GoStringsFacts.

(** ** The naming codec *)

Section naming.
Import GoStrings GoStringsFacts.

Lemma HasPrefix_app_cancel (a s p : string) :
  HasPrefix (a +:+ s) (a +:+ p) = HasPrefix s p.
Proof.
  induction a as [|c a IH]; [done|].
  rewrite !app_cons. cbn [HasPrefix]. by rewrite Ascii.eqb_refl.
Qed.

(** The metadata file of a resource never carries the resource's own data
    prefix: after [namespace]-[name]-k2dcm the one has a dot and the other a
    dash. *)
Lemma metadata_not_data (n ns : string) :
  HasPrefix (buildConfigMapMetadataFileName n ns) (buildConfigMapFilePrefix n ns) = false.
Proof.
  unfold buildConfigMapMetadataFileName, buildConfigMapFilePrefix.
  by rewrite !HasPrefix_app_cancel.
Qed.

Lemma metadata_ne_data (n ns key : string) :
  buildConfigMapMetadataFileName n ns <> buildConfigMapFilePrefix n ns +:+ key.
Proof.
  intros Heq. pose proof (metadata_not_data n ns) as Hn.
  rewrite Heq, HasPrefix_app in Hn. done.
Qed.

(** Where the separator can start again inside a copy of itself: only at
    its last byte. *)
Lemma separator_overlap (n r x y : string) :
  ConfigMapSeparator +:+ x = r +:+ ConfigMapSeparator +:+ y ->
  r = "" \/ HasSuffix (n +:+ r) "-k2dcm" = true
  \/ Contains (n +:+ r) ConfigMapSeparator = true.
Proof.
  unfold ConfigMapSeparator. intros Heq.
  rewrite !app_cons, !app_nil_l in Heq.
  do 6 (destruct r as [|? r]; [rewrite ?app_nil_l in Heq; first [by left|done]|];
        rewrite app_cons in Heq; injection Heq as <- Heq).
  destruct r as [|? r].
  - right; left. apply HasSuffix_app.
  - rewrite app_cons in Heq; injection Heq as <- Heq. right; right.
    change (Contains (n +:+ "-k2dcm-" +:+ r) "-k2dcm-" = true).
    apply Contains_app.
Qed.

(** Within one namespace, a data prefix that starts a data file name of
    another resource gives the two resources the same name. *)
Lemma data_prefix_name_inj (n1 n2 key : string) :
  Contains n1 ConfigMapSeparator = false -> Contains n2 ConfigMapSeparator = false ->
  HasSuffix n1 "-k2dcm" = false -> HasSuffix n2 "-k2dcm" = false ->
  HasPrefix (n2 +:+ ConfigMapSeparator +:+ key) (n1 +:+ ConfigMapSeparator) = true ->
  n1 = n2.
Proof.
  intros Hc1 Hc2 Hs1 Hs2 [rest Heq]%HasPrefix_spec.
  rewrite app_assoc in Heq.
  apply app_eq_app in Heq as [r [[-> Heq]|[-> Heq]]].
  - destruct (separator_overlap n1 r _ _ Heq) as [->|[Hs|Hc]];
      [by rewrite app_nil_r|congruence..].
  - destruct (separator_overlap n2 r _ _ Heq) as [->|[Hs|Hc]];
      [by rewrite app_nil_r|congruence..].
Qed.

Lemma app_inj_r (s t u : string) : s +:+ u = t +:+ u -> s = t.
Proof.
  intros Heq. pose proof (f_equal String.length Heq) as Hlen.
  rewrite !length_app in Hlen.
  apply app_eq_app in Heq as [r [[-> Hr]|[-> Hr]]];
    destruct r; rewrite ?app_nil_r; try done;
    rewrite length_app in Hlen; simpl in Hlen; lia.
Qed.

(** The dash after the namespace is found again when the namespaces are
    the same, or when neither contains a dash. *)
Lemma namespace_cut (ns1 ns2 x y : string) :
  ns1 = ns2 \/ (Contains ns1 "-" = false /\ Contains ns2 "-" = false) ->
  ns1 +:+ "-" +:+ x = ns2 +:+ "-" +:+ y -> ns1 = ns2 /\ x = y.
Proof.
  intros [->|[H1 H2]] Heq.
  - split; [done|]. by do 2 apply app_inj_l in Heq.
  - by apply dash_split.
Qed.

(** The dash after the namespace is found again when neither namespace
    followed by a dash starts the other namespace. *)
Lemma namespace_apart (ns1 ns2 x y : string) :
  HasPrefix ns2 (ns1 +:+ "-") = false -> HasPrefix ns1 (ns2 +:+ "-") = false ->
  ns1 +:+ "-" +:+ x = ns2 +:+ "-" +:+ y -> ns1 = ns2 /\ x = y.
Proof.
  intros H12 H21 Heq.
  assert (Hns : ns1 = ns2).
  { apply app_eq_app in Heq as [r [[-> Hr]|[-> Hr]]].
    - destruct r as [|c r]; [by rewrite app_nil_r|].
      rewrite (app_cons c r) in Hr. change ("-" +:+ y) with (String "-" y) in Hr.
      injection Hr as <- _. exfalso.
      change (String "-" r) with ("-" +:+ r) in H21.
      by rewrite <- app_assoc, HasPrefix_app in H21.
    - destruct r as [|c r]; [by rewrite app_nil_r|].
      rewrite (app_cons c r) in Hr. change ("-" +:+ x) with (String "-" x) in Hr.
      injection Hr as <- _. exfalso.
      change (String "-" r) with ("-" +:+ r) in H12.
      by rewrite <- app_assoc, HasPrefix_app in H12. }
  subst ns2. split; [done|]. by do 2 apply app_inj_l in Heq.
Qed.

(** C2, as amended.  Two distinct (name, namespace) pairs of which neither
    namespace followed by a dash starts the other namespace, and whose names
    neither contain the separator nor end with it cut before its last dash
    ([-k2dcm]), have distinct metadata file names, and the data-file prefix
    of neither starts a data file name of the other, whatever the key. *)
Theorem naming_collision_free (n1 ns1 n2 ns2 : string) :
  (n1, ns1) <> (n2, ns2) ->
  HasPrefix ns2 (ns1 +:+ "-") = false ->
  HasPrefix ns1 (ns2 +:+ "-") = false ->
  Contains n1 ConfigMapSeparator = false ->
  Contains n2 ConfigMapSeparator = false ->
  HasSuffix n1 "-k2dcm" = false ->
  HasSuffix n2 "-k2dcm" = false ->
  buildConfigMapMetadataFileName n1 ns1 <> buildConfigMapMetadataFileName n2 ns2
  /\ (forall key,
        HasPrefix (buildConfigMapFilePrefix n2 ns2 +:+ key)
                  (buildConfigMapFilePrefix n1 ns1) = false)
  /\ (forall key,
        HasPrefix (buildConfigMapFilePrefix n1 ns1 +:+ key)
                  (buildConfigMapFilePrefix n2 ns2) = false).
Proof.
  intros Hne H12 H21 Hc1 Hc2 Hs1 Hs2.
  unfold buildConfigMapMetadataFileName, buildConfigMapFilePrefix.
  split; [|split].
  - intros Heq. apply (namespace_apart _ _ _ _ H12 H21) in Heq as [-> Heq].
    apply app_inj_r in Heq as ->. done.
  - intros key. apply not_true_iff_false. intros [rest Heq]%HasPrefix_spec.
    rewrite !app_assoc in Heq.
    apply (namespace_apart _ _ _ _ H21 H12) in Heq as [-> Heq].
    apply Hne. f_equal.
    apply (data_prefix_name_inj n1 n2 key); try done.
    apply HasPrefix_spec. exists rest. by rewrite app_assoc.
  - intros key. apply not_true_iff_false. intros [rest Heq]%HasPrefix_spec.
    rewrite !app_assoc in Heq.
    apply (namespace_apart _ _ _ _ H12 H21) in Heq as [-> Heq].
    apply Hne. f_equal. symmetry.
    apply (data_prefix_name_inj n2 n1 key); try done.
    apply HasPrefix_spec. exists rest. by rewrite app_assoc.
Qed.

Lemma naming_collision_free_witness :
  buildConfigMapMetadataFileName "app-config" "default"
    <> buildConfigMapMetadataFileName "dns" "kube-system"
  /\ (forall key,
        HasPrefix (buildConfigMapFilePrefix "dns" "kube-system" +:+ key)
                  (buildConfigMapFilePrefix "app-config" "default") = false)
  /\ (forall key,
        HasPrefix (buildConfigMapFilePrefix "app-config" "default" +:+ key)
                  (buildConfigMapFilePrefix "dns" "kube-system") = false).
Proof.
  apply (naming_collision_free "app-config" "default" "dns" "kube-system");
    [discriminate | reflexivity..].
Defined.

(** C2, as stated, fails.  None of the four components below contains the
    separator or the metadata suffix, yet two distinct pairs of different
    namespaces share their metadata file name, and within one namespace the
    data prefix of [app] starts a data file name of [app-k2dcm]. *)
Lemma naming_collision :
  (("b-c", "a") : string * string) <> ("c", "a-b")
  /\ reservedFree "b-c" = true /\ reservedFree "a" = true
  /\ reservedFree "c" = true /\ reservedFree "a-b" = true
  /\ buildConfigMapMetadataFileName "b-c" "a" = buildConfigMapMetadataFileName "c" "a-b"
  /\ (("app", "default") : string * string) <> ("app-k2dcm", "default")
  /\ reservedFree "app" = true /\ reservedFree "app-k2dcm" = true
  /\ reservedFree "default" = true /\ reservedFree "key" = true
  /\ HasPrefix (buildConfigMapFilePrefix "app-k2dcm" "default" +:+ "key")
               (buildConfigMapFilePrefix "app" "default") = true.
Proof. repeat split; (discriminate || reflexivity). Qed.

End naming.

(** ** Running the monad and the file-system calls *)

Section running.
Import GoStrings GoStringsFacts.

Lemma run_bind {A B} (m : M A) (k : A -> M B) (w : World) :
  (m ≫= k) w = match m w with
               | (Ok a, w') => k a w'
               | (Err e, w') => (Err e, w')
               end.
Proof. reflexivity. Qed.

Lemma run_wrap {A} (msg : string) (m : M A) (w : World) :
  wrap msg m w = match m w with
                 | (Ok a, w') => (Ok a, w')
                 | (Err e, w') => (Err (Errorf msg e), w')
                 end.
Proof. reflexivity. Qed.

Lemma elem_of_entryNames (d : gmap string File) (f : string) :
  f ∈ os.entryNames d <-> is_Some (d !! f).
Proof.
  unfold os.entryNames. rewrite merge_sort_Permutation, list_elem_of_fmap. split.
  - intros [[g x] [-> Hx%elem_of_map_to_list]]. by exists x.
  - intros [x Hx]. exists (f, x). split; [done|]. by apply elem_of_map_to_list.
Qed.

Lemma hasMatchingConfigMapFile_true (files : list string) (p : string) :
  hasMatchingConfigMapFile files p = true <-> exists f, f ∈ files /\ HasPrefix f p = true.
Proof.
  unfold hasMatchingConfigMapFile. rewrite existsb_exists.
  split; intros [f [Hf Hp]]; exists f; split; try done; by apply list_elem_of_In.
Qed.

Lemma hasMatchingConfigMapFile_false (files : list string) (p : string) :
  hasMatchingConfigMapFile files p = false <-> forall f, f ∈ files -> HasPrefix f p = false.
Proof.
  rewrite <- not_true_iff_false, hasMatchingConfigMapFile_true. split.
  - intros Hn f Hf. apply not_true_iff_false. intros Hp. apply Hn. by exists f.
  - intros Hall [f [Hf Hp]]. rewrite (Hall f Hf) in Hp. done.
Qed.

(** A directory has a file with the prefix exactly when the listing has. *)
Lemma matching_entry (d : gmap string File) (p : string) :
  hasMatchingConfigMapFile (os.entryNames d) p = false
  <-> forall f, is_Some (d !! f) -> HasPrefix f p = false.
Proof.
  rewrite hasMatchingConfigMapFile_false.
  split; intros Hall f Hf; apply Hall; by apply elem_of_entryNames.
Qed.

End running.

(** ** Reading a resource: [GetConfigMap] *)

Section reading.
Import GoStrings GoStringsFacts.
Context `{Pkg}.
Variable s : FileSystemStore.

Lemma LoadMetadataFromDisk_Some (name : string) (w : World) (f : File)
    (md : gmap string string) :
  refuses (SysReadFile name) = false ->
  disk w !! name = Some f -> decodeMetadata (content f) = Some md ->
  pkg_filesystem.LoadMetadataFromDisk name w = (Ok md, logCall (SysReadFile name) w).
Proof.
  intros Hr Hf Hmd. unfold pkg_filesystem.LoadMetadataFromDisk.
  rewrite run_bind. unfold os.ReadFile. by rewrite Hr, Hf, Hmd.
Qed.

Lemma LoadMetadataFromDisk_inv (name : string) (w w' : World) (md : gmap string string) :
  pkg_filesystem.LoadMetadataFromDisk name w = (Ok md, w') ->
  exists f, disk w !! name = Some f /\ decodeMetadata (content f) = Some md
            /\ w' = logCall (SysReadFile name) w.
Proof.
  unfold pkg_filesystem.LoadMetadataFromDisk. rewrite run_bind. unfold os.ReadFile.
  destruct (refuses (SysReadFile name)); [done|].
  destruct (disk w !! name) as [f|] eqn:Hf; [|done].
  destruct (decodeMetadata (content f)) as [md'|] eqn:Hmd; [|done].
  intros [= <- <-]. by exists f.
Qed.

(** A load that succeeds was not refused. *)
Lemma LoadMetadataFromDisk_allowed (name : string) (w w' : World) (md : gmap string string) :
  pkg_filesystem.LoadMetadataFromDisk name w = (Ok md, w') ->
  refuses (SysReadFile name) = false.
Proof.
  unfold pkg_filesystem.LoadMetadataFromDisk. rewrite run_bind. unfold os.ReadFile.
  by destruct (refuses (SysReadFile name)).
Qed.

(** Loading the metadata only reads. *)
Lemma LoadMetadataFromDisk_disk (name : string) (w w' : World)
    (r : result (gmap string string)) :
  pkg_filesystem.LoadMetadataFromDisk name w = (r, w') ->
  disk w' = disk w /\ clock w' = clock w.
Proof.
  unfold pkg_filesystem.LoadMetadataFromDisk. rewrite run_bind. unfold os.ReadFile.
  destruct (refuses (SysReadFile name)); [by intros [= <- <-]|].
  destruct (disk w !! name) as [f|]; [|by intros [= <- <-]].
  destruct (decodeMetadata (content f)); by intros [= <- <-].
Qed.

Lemma readConfigMapFile_skip (p : string) (cm : ConfigMap) (file : string) (w : World) :
  HasPrefix file p = false -> readConfigMapFile s p cm file w = (Ok cm, w).
Proof. intros Hp. unfold readConfigMapFile. by rewrite Hp. Qed.

(** One iteration of the loop of [GetConfigMap] on a file with the prefix:
    the read and then the stat, each of which can fail. *)
Lemma readConfigMapFile_run (p : string) (cm : ConfigMap) (file : string) (w : World) :
  HasPrefix file p = true ->
  readConfigMapFile s p cm file w
  = if refuses (SysReadFile file)
    then (Err (Errorf ("unable to read file " +:+ file) (ErrSyscall (SysReadFile file))),
          logCall (SysReadFile file) w)
    else match disk w !! file with
         | None =>
             (Err (Errorf ("unable to read file " +:+ file) (ErrNotExist "open" file)),
              logCall (SysReadFile file) w)
         | Some f =>
             if refuses (SysStat file)
             then (Err (Errorf ("unable to get file info for " +:+ file)
                               (ErrSyscall (SysStat file))),
                   logCall (SysStat file) (logCall (SysReadFile file) w))
             else (Ok (readEntry s p (disk w) cm file),
                   logCall (SysStat file) (logCall (SysReadFile file) w))
         end.
Proof.
  intros Hp. unfold readConfigMapFile, readEntry. rewrite Hp.
  rewrite run_bind, run_wrap. unfold os.ReadFile.
  destruct (refuses (SysReadFile file)); [done|].
  destruct (disk w !! file) as [f|] eqn:Hf; [|done].
  rewrite run_bind, run_wrap. unfold os.Stat. cbn [disk logCall].
  destruct (refuses (SysStat file)); [done|]. by rewrite Hf.
Qed.

Lemma readConfigMapFile_read (p : string) (cm : ConfigMap) (file : string) (w : World)
    (f : File) :
  HasPrefix file p = true -> disk w !! file = Some f ->
  refuses (SysReadFile file) = false -> refuses (SysStat file) = false ->
  readConfigMapFile s p cm file w
  = (Ok (readEntry s p (disk w) cm file),
     logCall (SysStat file) (logCall (SysReadFile file) w)).
Proof.
  intros Hp Hf Hr Hs. by rewrite (readConfigMapFile_run _ _ _ _ Hp), Hr, Hf, Hs.
Qed.

(** An iteration that succeeds on a file with the prefix has read an entry
    of the directory, with neither call refused. *)
Lemma readConfigMapFile_inv (p : string) (cm cm' : ConfigMap) (file : string) (w w' : World) :
  HasPrefix file p = true ->
  readConfigMapFile s p cm file w = (Ok cm', w') ->
  is_Some (disk w !! file)
  /\ refuses (SysReadFile file) = false /\ refuses (SysStat file) = false
  /\ cm' = readEntry s p (disk w) cm file
  /\ w' = logCall (SysStat file) (logCall (SysReadFile file) w).
Proof.
  intros Hp. rewrite (readConfigMapFile_run _ _ _ _ Hp).
  destruct (refuses (SysReadFile file)); [done|].
  destruct (disk w !! file) as [f|]; [|done].
  destruct (refuses (SysStat file)); [done|].
  intros [= <- <-]. by eauto.
Qed.

(** An iteration that fails leaves the directory as it is, and its error is
    not the not-found error. *)
Lemma readConfigMapFile_error (p : string) (cm : ConfigMap) (file : string) (w w' : World)
    (e : error) :
  readConfigMapFile s p cm file w = (Err e, w') ->
  errors_Is e isNotFound = false /\ disk w' = disk w /\ clock w' = clock w.
Proof.
  destruct (HasPrefix file p) eqn:Hp; [|by rewrite (readConfigMapFile_skip _ _ _ _ Hp)].
  rewrite (readConfigMapFile_run _ _ _ _ Hp).
  destruct (refuses (SysReadFile file)); [by intros [= <- <-]|].
  destruct (disk w !! file) as [f|]; [|by intros [= <- <-]].
  destruct (refuses (SysStat file)); [by intros [= <- <-]|done].
Qed.

(** The loop of [GetConfigMap] over files that can all be read reads every
    file with the prefix and leaves the directory as it is. *)
Lemma read_loop (p : string) (files : list string) (cm : ConfigMap) (w : World) :
  readable p (disk w) files ->
  exists w', forRange (readConfigMapFile s p) files cm w
             = (Ok (foldl (readEntry s p (disk w)) cm files), w')
             /\ disk w' = disk w /\ clock w' = clock w.
Proof.
  revert cm w. induction files as [|file files IH]; intros cm w Hall.
  - by exists w.
  - cbn [forRange foldl]. rewrite run_bind.
    destruct (HasPrefix file p) eqn:Hp.
    + destruct (Hall file) as ([f Hf] & Hr & Hs); [by left|done|].
      rewrite (readConfigMapFile_read _ _ _ _ _ Hp Hf Hr Hs).
      set (w1 := logCall (SysStat file) (logCall (SysReadFile file) w)).
      destruct (IH (readEntry s p (disk w) cm file) w1) as (w' & Hrun & Hd & Hc).
      { intros g Hg. apply Hall. by right. }
      exists w'. by rewrite Hrun.
    + rewrite (readConfigMapFile_skip _ _ _ _ Hp).
      destruct (IH cm w) as (w' & Hrun & Hd & Hc).
      { intros g Hg. apply Hall. by right. }
      exists w'. rewrite Hrun.
      replace (readEntry s p (disk w) cm file) with cm
        by (unfold readEntry; by rewrite Hp).
      done.
Qed.

(** A loop that succeeds could read every file with the prefix. *)
Lemma read_loop_readable (p : string) (files : list string) (cm cm' : ConfigMap)
    (w w' : World) :
  forRange (readConfigMapFile s p) files cm w = (Ok cm', w') ->
  readable p (disk w) files.
Proof.
  revert cm w. induction files as [|file files IH]; intros cm w.
  - intros _ f Hf. by apply elem_of_nil in Hf.
  - cbn [forRange]. rewrite run_bind.
    destruct (readConfigMapFile s p cm file w) as [[cm1|e] w1] eqn:Hbody; [|done].
    intros Hrun. apply IH in Hrun.
    destruct (HasPrefix file p) eqn:Hp.
    + apply (readConfigMapFile_inv _ _ _ _ _ _ Hp) in Hbody as (Hf & Hr & Hs & _ & ->).
      intros g [->|Hg]%elem_of_cons Hgp; [done|]. by apply Hrun.
    + rewrite (readConfigMapFile_skip _ _ _ _ Hp) in Hbody. injection Hbody as <- <-.
      intros g [->|Hg]%elem_of_cons Hgp; [congruence|]. by apply Hrun.
Qed.

(** A loop that fails does not fail with the not-found error. *)
Lemma read_loop_error (p : string) (files : list string) (cm : ConfigMap) (w w' : World)
    (e : error) :
  forRange (readConfigMapFile s p) files cm w = (Err e, w') ->
  errors_Is e isNotFound = false.
Proof.
  revert cm w. induction files as [|file files IH]; intros cm w; [done|].
  cbn [forRange]. rewrite run_bind.
  destruct (readConfigMapFile s p cm file w) as [[cm1|e0] w1] eqn:Hbody.
  - apply IH.
  - intros [= <- <-]. by apply readConfigMapFile_error in Hbody as [? _].
Qed.

(** What one iteration does to the data map, at key [k]. *)
Lemma readEntry_Data (p : string) (d : gmap string File) (cm : ConfigMap)
    (file k : string) :
  Data (readEntry s p d cm file) !! k
  = if decide (file = p +:+ k)
    then match d !! file with
         | Some f => Some (content f)
         | None => Data cm !! k
         end
    else Data cm !! k.
Proof.
  unfold readEntry. destruct (decide (file = p +:+ k)) as [->|Hne].
  - rewrite HasPrefix_app, TrimPrefix_app.
    destruct (d !! (p +:+ k)); [|done]. simpl. by rewrite lookup_insert_eq.
  - destruct (HasPrefix file p) eqn:Hp; [|done].
    destruct (d !! file); [|done]. simpl.
    rewrite lookup_insert_ne; [done|].
    intros <-. by apply Hne, HasPrefix_TrimPrefix.
Qed.

Lemma readEntry_fold_Data (p : string) (d : gmap string File) (files : list string)
    (cm : ConfigMap) (k : string) :
  Data (foldl (readEntry s p d) cm files) !! k
  = match (if decide (p +:+ k ∈ files) then d !! (p +:+ k) else None) with
    | Some f => Some (content f)
    | None => Data cm !! k
    end.
Proof.
  revert cm. induction files as [|file files IH]; intros cm.
  - cbn [foldl].
    destruct (decide (p +:+ k ∈ [])) as [Hin|]; [by apply elem_of_nil in Hin|done].
  - cbn [foldl]. rewrite IH, readEntry_Data.
    destruct (decide (p +:+ k ∈ files)) as [Hin|Hnin].
    + destruct (decide (p +:+ k ∈ file :: files)) as [_|Hn];
        [|exfalso; apply Hn; by right].
      destruct (d !! (p +:+ k)) as [f|] eqn:Hf; [done|].
      destruct (decide (file = p +:+ k)) as [->|]; [by rewrite Hf|done].
    + destruct (decide (file = p +:+ k)) as [->|Hne].
      * destruct (decide (p +:+ k ∈ (p +:+ k) :: files)) as [_|Hn];
          [|exfalso; apply Hn; by left].
        by destruct (d !! (p +:+ k)).
      * rewrite decide_False; [done|]. by intros [?|?]%elem_of_cons.
Qed.

(** What one iteration does to the annotations: only the path annotation
    of the key of the file can change. *)
Lemma readEntry_Annotations (p : string) (d : gmap string File) (cm : ConfigMap)
    (file : string) (a : gmap string string) :
  Annotations cm = Some a ->
  exists a', Annotations (readEntry s p d cm file) = Some a'
    /\ (forall k, a' !! (FilePathAnnotationKey +:+ "/" +:+ k)
                  = if decide (file = p +:+ k)
                    then match d !! file with
                         | Some _ => Some (GoPath.Join (configMapPath s) file)
                         | None => a !! (FilePathAnnotationKey +:+ "/" +:+ k)
                         end
                    else a !! (FilePathAnnotationKey +:+ "/" +:+ k))
    /\ (forall key, (forall k, key <> FilePathAnnotationKey +:+ "/" +:+ k) ->
                    a' !! key = a !! key).
Proof.
  intros Ha. unfold readEntry.
  destruct (HasPrefix file p) eqn:Hp.
  - destruct (d !! file) as [f|] eqn:Hf.
    + simpl. rewrite Ha. simpl. eexists. split; [done|]. split.
      * intros k. destruct (decide (file = p +:+ k)) as [->|Hne].
        -- rewrite TrimPrefix_app. by rewrite lookup_insert_eq.
        -- rewrite lookup_insert_ne; [done|].
           intros Heq. do 2 apply app_inj_l in Heq.
           subst k. by apply Hne, HasPrefix_TrimPrefix.
      * intros key Hkey. rewrite lookup_insert_ne; [done|]. intros <-. by eapply Hkey.
    + exists a. split; [done|]. split; [|done].
      intros k. by destruct (decide (file = p +:+ k)).
  - exists a. split; [done|]. split; [|done].
    intros k. destruct (decide (file = p +:+ k)) as [->|]; [|done].
    by rewrite HasPrefix_app in Hp.
Qed.

Lemma readEntry_fold_Annotations (p : string) (d : gmap string File)
    (files : list string) (cm : ConfigMap) (a : gmap string string) :
  Annotations cm = Some a ->
  exists a', Annotations (foldl (readEntry s p d) cm files) = Some a'
    /\ (forall k, a' !! (FilePathAnnotationKey +:+ "/" +:+ k)
                  = match (if decide (p +:+ k ∈ files) then d !! (p +:+ k) else None) with
                    | Some _ => Some (GoPath.Join (configMapPath s) (p +:+ k))
                    | None => a !! (FilePathAnnotationKey +:+ "/" +:+ k)
                    end)
    /\ (forall key, (forall k, key <> FilePathAnnotationKey +:+ "/" +:+ k) ->
                    a' !! key = a !! key).
Proof.
  revert cm a. induction files as [|file files IH]; intros cm a Ha.
  - exists a. split; [done|]. split; [|done].
    intros k.
    destruct (decide (p +:+ k ∈ [])) as [Hin|]; [by apply elem_of_nil in Hin|done].
  - cbn [foldl].
    destruct (readEntry_Annotations p d cm file a Ha) as (a1 & Ha1 & Hpath1 & Hoth1).
    destruct (IH _ a1 Ha1) as (a' & Ha' & Hpath & Hoth).
    exists a'. split; [done|]. split.
    + intros k. rewrite Hpath, Hpath1.
      destruct (decide (p +:+ k ∈ files)) as [Hin|Hnin].
      * destruct (decide (p +:+ k ∈ file :: files)) as [_|Hn];
          [|exfalso; apply Hn; by right].
        destruct (d !! (p +:+ k)) as [f|] eqn:Hf; [done|].
        destruct (decide (file = p +:+ k)) as [->|]; [by rewrite Hf|done].
      * destruct (decide (file = p +:+ k)) as [->|Hne].
        -- destruct (decide (p +:+ k ∈ (p +:+ k) :: files)) as [_|Hn];
          [|exfalso; apply Hn; by left].
        by destruct (d !! (p +:+ k)).
        -- rewrite decide_False; [done|]. by intros [?|?]%elem_of_cons.
    + intros key Hkey. by rewrite Hoth, Hoth1.
Qed.

(** The identity, the kind and the labels are not touched by the loop. *)
Lemma readEntry_fold_frame (p : string) (d : gmap string File) (files : list string)
    (cm : ConfigMap) :
  let cm' := foldl (readEntry s p d) cm files in
  Kind cm' = Kind cm /\ APIVersion cm' = APIVersion cm /\ Name cm' = Name cm
  /\ Namespace cm' = Namespace cm /\ Labels cm' = Labels cm.
Proof.
  revert cm. induction files as [|file files IH]; intros cm; [done|].
  cbn [foldl]. cbv zeta in *. destruct (IH (readEntry s p d cm file)) as (-> & -> & -> & -> & ->).
  unfold readEntry. destruct (HasPrefix file p); [|done]. by destruct (d !! file).
Qed.

End reading.

(** ** The outcomes of [GetConfigMap] *)

Section getting.
Import GoStrings GoStringsFacts.
Context `{Pkg}.
Variable s : FileSystemStore.

(** The resource [GetConfigMap] starts from, once the labels are loaded. *)
Local Abbreviation fresh n ns md :=
  (setLabels (mkConfigMap "ConfigMap" "v1" n ns ∅ (Some ∅) None ∅) md).

(** When the listing is refused, [GetConfigMap] returns that failure,
    wrapped, having made no other call. *)
Lemma GetConfigMap_refused (n ns : string) (w : World) :
  refuses SysReadDir = true ->
  GetConfigMap s n ns w
  = (Err (Errorf "unable to read configmap directory" (ErrSyscall SysReadDir)),
     logCall SysReadDir w).
Proof.
  intros Hr. unfold GetConfigMap. rewrite run_bind, run_wrap. unfold os.ReadDir.
  by rewrite Hr.
Qed.

Lemma GetConfigMap_not_found (n ns : string) (w : World) :
  refuses SysReadDir = false ->
  hasMatchingConfigMapFile (os.entryNames (disk w)) (buildConfigMapFilePrefix n ns) = false ->
  GetConfigMap s n ns w = (Err ErrResourceNotFound, logCall SysReadDir w).
Proof.
  intros Hr Hno. unfold GetConfigMap. rewrite run_bind, run_wrap. unfold os.ReadDir.
  rewrite Hr. cbv beta iota zeta. by rewrite Hno.
Qed.

Lemma GetConfigMap_found (n ns : string) (w : World) :
  refuses SysReadDir = false ->
  hasMatchingConfigMapFile (os.entryNames (disk w)) (buildConfigMapFilePrefix n ns) = true ->
  GetConfigMap s n ns w
  = match pkg_filesystem.LoadMetadataFromDisk
            (buildConfigMapMetadataFileName n ns) (logCall SysReadDir w) with
    | (Ok md, w1) =>
        forRange (readConfigMapFile s (buildConfigMapFilePrefix n ns))
                 (os.entryNames (disk w)) (fresh n ns md) w1
    | (Err e, w1) =>
        (Err (Errorf "unable to load configmap metadata from disk" e), w1)
    end.
Proof.
  intros Hr Hyes. unfold GetConfigMap. rewrite run_bind, run_wrap. unfold os.ReadDir.
  rewrite Hr. cbv beta iota zeta. rewrite Hyes. cbn [negb]. rewrite run_bind, run_wrap.
  by destruct (pkg_filesystem.LoadMetadataFromDisk _ _) as [[md|e] w1].
Qed.

(** A successful [GetConfigMap]: the listing is not refused, some file has
    the prefix, the metadata file can be read and decodes, the files with
    the prefix can be read, and the resource is what the loop makes of the
    directory. *)
Lemma GetConfigMap_Ok (n ns : string) (w : World) (mf : File) (md : gmap string string) :
  refuses SysReadDir = false ->
  hasMatchingConfigMapFile (os.entryNames (disk w)) (buildConfigMapFilePrefix n ns) = true ->
  refuses (SysReadFile (buildConfigMapMetadataFileName n ns)) = false ->
  disk w !! buildConfigMapMetadataFileName n ns = Some mf ->
  decodeMetadata (content mf) = Some md ->
  readable (buildConfigMapFilePrefix n ns) (disk w) (os.entryNames (disk w)) ->
  exists w',
    GetConfigMap s n ns w
    = (Ok (foldl (readEntry s (buildConfigMapFilePrefix n ns) (disk w))
                 (fresh n ns md) (os.entryNames (disk w))), w')
    /\ disk w' = disk w /\ clock w' = clock w.
Proof.
  intros Hr Hyes Hrm Hmf Hmd Hall. rewrite (GetConfigMap_found _ _ _ Hr Hyes).
  rewrite (LoadMetadataFromDisk_Some _ (logCall SysReadDir w) mf md Hrm Hmf Hmd).
  destruct (read_loop s (buildConfigMapFilePrefix n ns) (os.entryNames (disk w))
              (fresh n ns md) (logCall (SysReadFile (buildConfigMapMetadataFileName n ns))
                                       (logCall SysReadDir w)))
    as (w' & Hrun & Hd & Hc); [exact Hall|].
  exists w'. split; [|done]. exact Hrun.
Qed.

Lemma LoadMetadataFromDisk_error (name : string) (w w' : World) (e : error) :
  pkg_filesystem.LoadMetadataFromDisk name w = (Err e, w') ->
  errors_Is e isNotFound = false.
Proof.
  unfold pkg_filesystem.LoadMetadataFromDisk. rewrite run_bind. unfold os.ReadFile.
  destruct (refuses (SysReadFile name)); [by intros [= <- <-]|].
  destruct (disk w !! name) as [f|]; [|by intros [= <- <-]].
  destruct (decodeMetadata (content f)); [done|]. by intros [= <- <-].
Qed.

(** What made a [GetConfigMap] succeed: no call of it was refused. *)
Lemma GetConfigMap_allowed (n ns : string) (w w' : World) (cm : ConfigMap) :
  GetConfigMap s n ns w = (Ok cm, w') ->
  refuses SysReadDir = false
  /\ refuses (SysReadFile (buildConfigMapMetadataFileName n ns)) = false
  /\ readable (buildConfigMapFilePrefix n ns) (disk w) (os.entryNames (disk w)).
Proof.
  intros Hget.
  destruct (refuses SysReadDir) eqn:Hr;
    [by rewrite (GetConfigMap_refused _ _ _ Hr) in Hget|].
  destruct (hasMatchingConfigMapFile (os.entryNames (disk w))
              (buildConfigMapFilePrefix n ns)) eqn:Hyes;
    [|by rewrite (GetConfigMap_not_found _ _ _ Hr Hyes) in Hget].
  rewrite (GetConfigMap_found _ _ _ Hr Hyes) in Hget.
  destruct (pkg_filesystem.LoadMetadataFromDisk _ _) as [[md|e] w1] eqn:Hload; [|done].
  pose proof (LoadMetadataFromDisk_allowed _ _ _ _ Hload) as Hrm.
  apply LoadMetadataFromDisk_inv in Hload as (mf & Hmf & Hmd & ->).
  split; [done|]. split; [done|]. exact (read_loop_readable _ _ _ _ _ _ _ Hget).
Qed.

Lemma GetConfigMap_inv (n ns : string) (w w' : World) (cm : ConfigMap) :
  GetConfigMap s n ns w = (Ok cm, w') ->
  hasMatchingConfigMapFile (os.entryNames (disk w)) (buildConfigMapFilePrefix n ns) = true
  /\ exists mf md,
       disk w !! buildConfigMapMetadataFileName n ns = Some mf
       /\ decodeMetadata (content mf) = Some md
       /\ cm = foldl (readEntry s (buildConfigMapFilePrefix n ns) (disk w))
                     (fresh n ns md) (os.entryNames (disk w))
       /\ disk w' = disk w /\ clock w' = clock w.
Proof.
  intros Hget.
  destruct (GetConfigMap_allowed _ _ _ _ _ Hget) as (Hr & Hrm & Hall).
  destruct (hasMatchingConfigMapFile _ _) eqn:Hyes;
    [|by rewrite (GetConfigMap_not_found _ _ _ Hr Hyes) in Hget].
  split; [done|].
  pose proof Hget as Hget'. rewrite (GetConfigMap_found _ _ _ Hr Hyes) in Hget'.
  destruct (pkg_filesystem.LoadMetadataFromDisk _ _) as [[md|e] w1] eqn:Hload; [|done].
  apply LoadMetadataFromDisk_inv in Hload as (mf & Hmf & Hmd & _).
  destruct (GetConfigMap_Ok n ns w mf md Hr Hyes Hrm Hmf Hmd Hall) as (w2 & Hrun & Hd & Hc).
  rewrite Hrun in Hget. injection Hget as <- <-. by exists mf, md.
Qed.

(** When some file has the prefix, no failure of [GetConfigMap] is the
    not-found error, however it is unwrapped. *)
Lemma GetConfigMap_error (n ns : string) (w w' : World) (e : error) :
  hasMatchingConfigMapFile (os.entryNames (disk w)) (buildConfigMapFilePrefix n ns) = true ->
  GetConfigMap s n ns w = (Err e, w') ->
  errors_Is e isNotFound = false.
Proof.
  intros Hyes Hget.
  destruct (refuses SysReadDir) eqn:Hr.
  { rewrite (GetConfigMap_refused _ _ _ Hr) in Hget. by injection Hget as <- <-. }
  rewrite (GetConfigMap_found _ _ _ Hr Hyes) in Hget.
  destruct (pkg_filesystem.LoadMetadataFromDisk _ _) as [[md|e0] w1] eqn:Hload.
  - by apply read_loop_error in Hget.
  - injection Hget as <- <-. cbn [errors_Is isNotFound orb].
    by apply LoadMetadataFromDisk_error in Hload.
Qed.

(** What a successful [GetConfigMap] returns, field by field: the identity
    asked for, the labels of the metadata file, and one data entry per file
    with the prefix, keyed by the rest of the file name. *)
Lemma GetConfigMap_fields (n ns : string) (w w' : World) (cm : ConfigMap) :
  GetConfigMap s n ns w = (Ok cm, w') ->
  Kind cm = "ConfigMap" /\ APIVersion cm = "v1" /\ Name cm = n /\ Namespace cm = ns
  /\ (exists mf, disk w !! buildConfigMapMetadataFileName n ns = Some mf
                 /\ decodeMetadata (content mf) = Some (Labels cm))
  /\ (forall k, Data cm !! k = content <$> disk w !! (buildConfigMapFilePrefix n ns +:+ k)).
Proof.
  intros (_ & mf & md & Hmf & Hmd & -> & _)%GetConfigMap_inv.
  destruct (readEntry_fold_frame s (buildConfigMapFilePrefix n ns) (disk w)
              (os.entryNames (disk w)) (fresh n ns md)) as (-> & -> & -> & -> & ->).
  do 4 (split; [done|]). split; [by exists mf|].
  intros k. rewrite readEntry_fold_Data.
  destruct (decide _) as [Hin|Hnin].
  - by destruct (disk w !! (buildConfigMapFilePrefix n ns +:+ k)).
  - destruct (disk w !! (buildConfigMapFilePrefix n ns +:+ k)) as [f|] eqn:Hf; [|done].
    exfalso. apply Hnin, elem_of_entryNames. by exists f.
Qed.

(** The annotations of a successful [GetConfigMap]: for every file with the
    prefix, the path annotation of its key, holding the store path joined
    with the file name; and nothing else. *)
Lemma GetConfigMap_Annotations (n ns : string) (w w' : World) (cm : ConfigMap) :
  GetConfigMap s n ns w = (Ok cm, w') ->
  exists a, Annotations cm = Some a
    /\ (forall k, a !! (FilePathAnnotationKey +:+ "/" +:+ k)
                  = (fun _ => GoPath.Join (configMapPath s)
                                          (buildConfigMapFilePrefix n ns +:+ k))
                    <$> disk w !! (buildConfigMapFilePrefix n ns +:+ k))
    /\ (forall key, (forall k, key <> FilePathAnnotationKey +:+ "/" +:+ k) ->
                    a !! key = None).
Proof.
  intros (_ & mf & md & Hmf & Hmd & -> & _)%GetConfigMap_inv.
  destruct (readEntry_fold_Annotations s (buildConfigMapFilePrefix n ns) (disk w)
              (os.entryNames (disk w)) (fresh n ns md) ∅ eq_refl)
    as (a & Ha & Hpath & Hoth).
  exists a. split; [done|]. split.
  - intros k. rewrite Hpath.
    destruct (decide _) as [Hin|Hnin].
    + by destruct (disk w !! (buildConfigMapFilePrefix n ns +:+ k)).
    + destruct (disk w !! (buildConfigMapFilePrefix n ns +:+ k)) as [f|] eqn:Hf; [|done].
      exfalso. apply Hnin, elem_of_entryNames. by exists f.
  - intros key Hkey. by rewrite Hoth.
Qed.

End getting.

(** ** Removing a resource: [DeleteConfigMap] *)

Section deleting.
Import GoStrings GoStringsFacts.
Context `{Pkg}.
Variable s : FileSystemStore.

(** The listing succeeds exactly when it is not refused. *)
Lemma ReadDir_Ok (w : World) :
  (os.ReadDir w).1 = Ok (os.entryNames (disk w)) <-> refuses SysReadDir = false.
Proof. unfold os.ReadDir. by destruct (refuses SysReadDir). Qed.

Lemma ReadDir_Err (w : World) (e : error) :
  (os.ReadDir w).1 = Err e -> refuses SysReadDir = true /\ e = ErrSyscall SysReadDir.
Proof. unfold os.ReadDir. destruct (refuses SysReadDir); [|done]. by intros [= <-]. Qed.

(** When the listing is refused, [DeleteConfigMap] returns that failure,
    wrapped, having made no other call. *)
Lemma DeleteConfigMap_refused (n ns : string) (w : World) :
  refuses SysReadDir = true ->
  DeleteConfigMap s n ns w
  = (Err (Errorf "unable to read configmap directory" (ErrSyscall SysReadDir)),
     logCall SysReadDir w).
Proof.
  intros Hr. unfold DeleteConfigMap. rewrite run_bind, run_wrap. unfold os.ReadDir.
  by rewrite Hr.
Qed.

Lemma DeleteConfigMap_not_found (n ns : string) (w : World) :
  refuses SysReadDir = false ->
  hasMatchingConfigMapFile (os.entryNames (disk w)) (buildConfigMapFilePrefix n ns) = false ->
  DeleteConfigMap s n ns w = (Err ErrResourceNotFound, logCall SysReadDir w).
Proof.
  intros Hr Hno. unfold DeleteConfigMap. rewrite run_bind, run_wrap. unfold os.ReadDir.
  rewrite Hr. cbv beta iota zeta. by rewrite Hno.
Qed.

Lemma DeleteConfigMap_found (n ns : string) (w : World) :
  refuses SysReadDir = false ->
  hasMatchingConfigMapFile (os.entryNames (disk w)) (buildConfigMapFilePrefix n ns) = true ->
  DeleteConfigMap s n ns w
  = match os.Remove (buildConfigMapMetadataFileName n ns) (logCall SysReadDir w) with
    | (Ok _, w1) =>
        forRange (removeConfigMapFile (buildConfigMapFilePrefix n ns))
                 (os.entryNames (disk w)) tt w1
    | (Err e, w1) =>
        (Err (Errorf ("unable to remove configmap metadata file "
                      +:+ buildConfigMapMetadataFileName n ns) e), w1)
    end.
Proof.
  intros Hr Hyes. unfold DeleteConfigMap. rewrite run_bind, run_wrap. unfold os.ReadDir.
  rewrite Hr. cbv beta iota zeta. rewrite Hyes. cbn [negb]. rewrite run_bind, run_wrap.
  by destruct (os.Remove _ _) as [[[]|e] w1].
Qed.

(** A removal either deletes the entry, or fails, with an error that is not
    the not-found error, and changes nothing. *)
Lemma Remove_inv (name : string) (w w' : World) (r : result unit) :
  os.Remove name w = (r, w') ->
  (r = Ok tt /\ is_Some (disk w !! name) /\ disk w' = delete name (disk w)
   /\ trace w' = SysRemove name :: trace w)
  \/ ((exists e, r = Err e /\ errors_Is e isNotFound = false) /\ disk w' = disk w
      /\ trace w' = SysRemove name :: trace w).
Proof.
  unfold os.Remove. destruct (refuses (SysRemove name)).
  { intros [= <- <-]. right. by eauto. }
  destruct (disk w !! name) as [f|] eqn:Hf; intros [= <- <-].
  - left. by eauto.
  - right. by eauto.
Qed.

(** A removal that succeeds was not refused. *)
Lemma Remove_allowed (name : string) (w w' : World) :
  os.Remove name w = (Ok tt, w') -> refuses (SysRemove name) = false.
Proof. unfold os.Remove. by destruct (refuses (SysRemove name)). Qed.

Lemma remove_loop_error (p : string) (files : list string) (w w' : World) (e : error) :
  forRange (removeConfigMapFile p) files tt w = (Err e, w') ->
  errors_Is e isNotFound = false.
Proof.
  revert w. induction files as [|file files IH]; intros w; [done|].
  cbn [forRange]. rewrite run_bind. unfold removeConfigMapFile at 1.
  destruct (HasPrefix file p).
  - rewrite run_wrap.
    destruct (os.Remove file w) as [[[]|e0] w1] eqn:Hrm; [by apply IH|].
    intros [= <- <-].
    by apply Remove_inv in Hrm as [[? _]|[(e1 & [= ->] & He1) _]].
  - apply IH.
Qed.

(** A loop of removals that succeeds has removed every listed file with
    the prefix and nothing else. *)
Lemma remove_loop_Ok (p : string) (files : list string) (w w' : World) :
  forRange (removeConfigMapFile p) files tt w = (Ok tt, w') ->
  forall g, disk w' !! g
            = if decide (g ∈ files /\ HasPrefix g p = true) then None else disk w !! g.
Proof.
  revert w. induction files as [|file files IH]; intros w.
  - intros [= <-] g.
    destruct (decide _) as [[Hin _]|]; [by apply elem_of_nil in Hin|done].
  - cbn [forRange]. rewrite run_bind. unfold removeConfigMapFile at 1.
    destruct (HasPrefix file p) eqn:Hp.
    + rewrite run_wrap.
      destruct (os.Remove file w) as [[[]|e0] w1] eqn:Hrm; [|done].
      apply Remove_inv in Hrm as [(_ & _ & Hd & _)|[(? & ? & _) _]]; [|done].
      intros Hrun g. rewrite (IH _ Hrun g), Hd.
      destruct (decide (g = file)) as [->|Hne].
      * rewrite lookup_delete_eq.
        destruct (decide (file ∈ file :: files /\ _)) as [_|Hn];
          [|exfalso; apply Hn; split; [by left|done]].
        by destruct (decide _).
      * rewrite lookup_delete_ne by done.
        destruct (decide (g ∈ files /\ _)) as [[Hin Hg]|Hn1];
          destruct (decide (g ∈ file :: files /\ _)) as [[Hin' Hg']|Hn2]; try done.
        -- exfalso. apply Hn2. split; [by right|done].
        -- exfalso. apply Hn1. split; [|done].
           by apply elem_of_cons in Hin' as [?|?].
    + intros Hrun g. rewrite (IH _ Hrun g).
      destruct (decide (g ∈ files /\ _)) as [[Hin Hg]|Hn1];
        destruct (decide (g ∈ file :: files /\ _)) as [[Hin' Hg']|Hn2]; try done.
      * exfalso. apply Hn2. split; [by right|done].
      * exfalso. apply Hn1. split; [|done].
        apply elem_of_cons in Hin' as [->|?]; [congruence|done].
Qed.

End deleting.

(** ** Existence of a resource *)

Section existence.
Import GoStrings GoStringsFacts.
Context `{Pkg}.
Variable s : FileSystemStore.

(** C3, as amended.  [GetConfigMap] and [DeleteConfigMap] return the
    not-found error exactly when the listing of the store directory succeeds
    and no entry of the directory starts with the data-file prefix of the
    resource; when the listing fails they return that failure, wrapped; no
    other failure of theirs is, or wraps, the not-found error; over a listed
    directory that holds nothing but the metadata file of the resource they
    return not-found; and when they return not-found they have listed the
    directory and made no other call, so the metadata file was neither read
    nor removed. *)
Theorem not_found_iff_no_data_file (n ns : string) (w : World) :
  let p := buildConfigMapFilePrefix n ns in
  let absent := forall f, is_Some (disk w !! f) -> HasPrefix f p = false in
  let listed := (os.ReadDir w).1 = Ok (os.entryNames (disk w)) in
  ((GetConfigMap s n ns w).1 = Err ErrResourceNotFound <-> listed /\ absent)
  /\ ((DeleteConfigMap s n ns w).1 = Err ErrResourceNotFound <-> listed /\ absent)
  /\ (forall e, (os.ReadDir w).1 = Err e ->
                (GetConfigMap s n ns w).1
                = Err (Errorf "unable to read configmap directory" e)
                /\ (DeleteConfigMap s n ns w).1
                   = Err (Errorf "unable to read configmap directory" e))
  /\ (forall e, (GetConfigMap s n ns w).1 = Err e ->
                errors_Is e isNotFound = true -> e = ErrResourceNotFound)
  /\ (forall e, (DeleteConfigMap s n ns w).1 = Err e ->
                errors_Is e isNotFound = true -> e = ErrResourceNotFound)
  /\ (listed ->
      (forall f, is_Some (disk w !! f) -> f = buildConfigMapMetadataFileName n ns) ->
      (GetConfigMap s n ns w).1 = Err ErrResourceNotFound
      /\ (DeleteConfigMap s n ns w).1 = Err ErrResourceNotFound)
  /\ ((GetConfigMap s n ns w).1 = Err ErrResourceNotFound ->
      (GetConfigMap s n ns w).2 = logCall SysReadDir w)
  /\ ((DeleteConfigMap s n ns w).1 = Err ErrResourceNotFound ->
      (DeleteConfigMap s n ns w).2 = logCall SysReadDir w).
Proof.
  intros p absent listed.
  assert (Hget : forall e, (GetConfigMap s n ns w).1 = Err e ->
                           errors_Is e isNotFound = true ->
                           (listed /\ absent) /\ e = ErrResourceNotFound).
  { intros e He Hnf.
    destruct (refuses SysReadDir) eqn:Hr.
    { rewrite (GetConfigMap_refused s n ns w Hr) in He. by injection He as <-. }
    destruct (hasMatchingConfigMapFile (os.entryNames (disk w)) p) eqn:Hm.
    - destruct (GetConfigMap s n ns w) as [r w'] eqn:Hrun. simpl in He. subst r.
      by rewrite (GetConfigMap_error s n ns w w' e Hm Hrun) in Hnf.
    - rewrite (GetConfigMap_not_found s n ns w Hr Hm) in He. injection He as <-.
      split; [|done]. split; [by apply ReadDir_Ok|].
      exact (proj1 (matching_entry _ _) Hm). }
  assert (Hdel : forall e, (DeleteConfigMap s n ns w).1 = Err e ->
                           errors_Is e isNotFound = true ->
                           (listed /\ absent) /\ e = ErrResourceNotFound).
  { intros e He Hnf.
    destruct (refuses SysReadDir) eqn:Hr.
    { rewrite (DeleteConfigMap_refused s n ns w Hr) in He. by injection He as <-. }
    destruct (hasMatchingConfigMapFile (os.entryNames (disk w)) p) eqn:Hm.
    - rewrite (DeleteConfigMap_found s n ns w Hr Hm) in He.
      destruct (os.Remove _ _) as [[[]|e0] w1] eqn:Hrm.
      + destruct (forRange _ _ _ _) as [r w'] eqn:Hrun. simpl in He. subst r.
        by rewrite (remove_loop_error _ _ _ _ _ Hrun) in Hnf.
      + injection He as <-. cbn [errors_Is isNotFound orb] in Hnf.
        apply Remove_inv in Hrm as [[? _]|[(e1 & [= ->] & He1) _]]; [done|congruence].
    - rewrite (DeleteConfigMap_not_found s n ns w Hr Hm) in He. injection He as <-.
      split; [|done]. split; [by apply ReadDir_Ok|].
      exact (proj1 (matching_entry _ _) Hm). }
  assert (Hno : listed -> absent ->
                GetConfigMap s n ns w = (Err ErrResourceNotFound, logCall SysReadDir w)
                /\ DeleteConfigMap s n ns w = (Err ErrResourceNotFound, logCall SysReadDir w)).
  { intros Hr%ReadDir_Ok Habs. apply (proj2 (matching_entry _ _)) in Habs.
    by rewrite GetConfigMap_not_found, DeleteConfigMap_not_found. }
  split; [|split; [|split; [|split; [|split; [|split; [|split]]]]]].
  - split; [intros He; by apply (Hget _ He)|].
    intros [Hl Habs]. by destruct (Hno Hl Habs) as [-> _].
  - split; [intros He; by apply (Hdel _ He)|].
    intros [Hl Habs]. by destruct (Hno Hl Habs) as [_ ->].
  - intros e [Hr ->]%ReadDir_Err.
    by rewrite (GetConfigMap_refused s n ns w Hr), (DeleteConfigMap_refused s n ns w Hr).
  - intros e He Hnf. by apply (Hget _ He).
  - intros e He Hnf. by apply (Hdel _ He).
  - intros Hl Honly.
    assert (Habs : absent).
    { intros f Hf. rewrite (Honly f Hf). apply metadata_not_data. }
    by destruct (Hno Hl Habs) as [-> ->].
  - intros He. destruct (Hget _ He eq_refl) as [[Hl Habs] _].
    by destruct (Hno Hl Habs) as [-> _].
  - intros He. destruct (Hdel _ He eq_refl) as [[Hl Habs] _].
    by destruct (Hno Hl Habs) as [_ ->].
Qed.

End existence.

(** ** After a removal *)

Section removal.
Import GoStrings GoStringsFacts.
Context `{Pkg}.
Variable s : FileSystemStore.


(** C7.  When the directory is listed, some entry starts with the data-file
    prefix and the removal of the metadata file fails, for whatever reason,
    [DeleteConfigMap] returns that failure, wrapped, and the directory is as
    it was, the metadata file and every data file of the resource included:
    after the listing it has made the one failed removal and no other
    call. *)
Theorem delete_keeps_files_on_metadata_failure (n ns : string) (w w1 : World) (e : error) :
  (os.ReadDir w).1 = Ok (os.entryNames (disk w)) ->
  (exists f, is_Some (disk w !! f)
             /\ HasPrefix f (buildConfigMapFilePrefix n ns) = true) ->
  os.Remove (buildConfigMapMetadataFileName n ns) (logCall SysReadDir w) = (Err e, w1) ->
  exists w',
    DeleteConfigMap s n ns w
    = (Err (Errorf ("unable to remove configmap metadata file "
                    +:+ buildConfigMapMetadataFileName n ns) e), w')
    /\ disk w' = disk w
    /\ trace w' = SysRemove (buildConfigMapMetadataFileName n ns) :: SysReadDir :: trace w.
Proof.
  intros Hr%ReadDir_Ok (f & Hf & Hp) Hrm.
  assert (Hm : hasMatchingConfigMapFile (os.entryNames (disk w))
                 (buildConfigMapFilePrefix n ns) = true).
  { apply hasMatchingConfigMapFile_true. exists f. split; [|done].
    by apply elem_of_entryNames. }
  exists w1. rewrite (DeleteConfigMap_found s n ns w Hr Hm), Hrm. split; [done|].
  by apply Remove_inv in Hrm as [[? _]|(_ & -> & ->)].
Qed.

End removal.


Lemma delete_keeps_files_on_metadata_failure_witness :
  exists w',
    @DeleteConfigMap Example8.lockedMetadata Example.store "app-config" "default"
                     Example.stored
    = (Err (Errorf "unable to remove configmap metadata file default-app-config-k2dcm.metadata"
                   (ErrSyscall (SysRemove "default-app-config-k2dcm.metadata"))), w')
    /\ disk w' = disk Example.stored
    /\ trace w' = SysRemove "default-app-config-k2dcm.metadata" :: SysReadDir
                   :: trace Example.stored.
Proof.
  apply (@delete_keeps_files_on_metadata_failure Example8.lockedMetadata Example.store
           "app-config" "default" Example.stored
           (logCall (SysRemove "default-app-config-k2dcm.metadata")
                    (logCall SysReadDir Example.stored))).
  - reflexivity.
  - exists "default-app-config-k2dcm-A". split; [vm_compute; by eexists|reflexivity].
  - reflexivity.
Defined.

(** C3, as stated, fails: when the operating system refuses the listing of
    the directory, no entry starts with the data-file prefix, and yet
    [GetConfigMap] and [DeleteConfigMap] return the wrapped failure of the
    listing, which neither is nor wraps the not-found error. *)
Lemma listing_failure_is_not_not_found :
  (forall f, is_Some (disk emptyWorld !! f) ->
             GoStrings.HasPrefix f (buildConfigMapFilePrefix "app-config" "default") = false)
  /\ (@GetConfigMap Example8.unlistable Example.store "app-config" "default" emptyWorld).1
     = Err (Errorf "unable to read configmap directory" (ErrSyscall SysReadDir))
  /\ (@DeleteConfigMap Example8.unlistable Example.store "app-config" "default" emptyWorld).1
     = Err (Errorf "unable to read configmap directory" (ErrSyscall SysReadDir))
  /\ (@GetConfigMap Example8.unlistable Example.store "app-config" "default" emptyWorld).1
     <> Err ErrResourceNotFound
  /\ (@DeleteConfigMap Example8.unlistable Example.store "app-config" "default" emptyWorld).1
     <> Err ErrResourceNotFound
  /\ errors_Is (Errorf "unable to read configmap directory" (ErrSyscall SysReadDir))
               isNotFound = false.
Proof.
  split; [|by repeat split].
  intros f [x Hx]. cbn [disk emptyWorld] in Hx. by rewrite lookup_empty in Hx.
Qed.

Lemma not_found_iff_no_data_file_witness :
  (@GetConfigMap linePkg Example.store "db-config" "default" Example.stored).1
  = Err ErrResourceNotFound
  /\ (@GetConfigMap linePkg Example.store "db-config" "default" Example.stored).2
     = logCall SysReadDir Example.stored.
Proof.
  destruct (@not_found_iff_no_data_file linePkg Example.store "db-config" "default"
              Example.stored) as (_ & _ & _ & _ & _ & _ & Hcalls & _).
  assert (Hnf : (@GetConfigMap linePkg Example.store "db-config" "default"
                   Example.stored).1 = Err ErrResourceNotFound)
    by (vm_compute; reflexivity).
  split; [exact Hnf|exact (Hcalls Hnf)].
Defined.

(** ** Writing a resource: [StoreConfigMap] *)

Section storing.
Import GoStrings GoStringsFacts.
Context `{Pkg}.
Variable s : FileSystemStore.

(** The label map [StoreConfigMap] writes: the labels of the resource and
    the namespace under [NamespaceNameLabelKey]. *)
Local Abbreviation storedLabels cm :=
  (Labels cm ∪ {[ NamespaceNameLabelKey := Namespace cm ]} : gmap string string).

(** The data loop, whatever it returns, touches no entry but the files of
    the listed keys. *)
Lemma write_loop_frame (p : string) (l : list (string * string)) (w w' : World)
    (r : result unit) :
  forRange (pkg_filesystem.writeDataFile p) l tt w = (r, w') ->
  forall f, (forall k v, (k, v) ∈ l -> f <> p +:+ k) -> disk w' !! f = disk w !! f.
Proof.
  revert w. induction l as [|[k0 v0] l IH]; intros w.
  - by intros [= <- <-].
  - cbn [forRange]. rewrite run_bind.
    unfold pkg_filesystem.writeDataFile at 1, os.WriteFile. cbn [fst snd].
    destruct (refuses (SysWriteFile (p +:+ k0)) || _); [by intros [= <- <-]|].
    intros Hrun f Hf. rewrite (IH _ Hrun).
    + cbn [disk]. rewrite lookup_insert_ne; [done|].
      intros <-. apply (Hf k0 v0); [by left|done].
    + intros k v Hkv. apply (Hf k v). by right.
Qed.

(** The writes of a data loop that succeeds: every listed key has its file,
    holding its value. *)
Lemma write_loop (p : string) (l : list (string * string)) (w w' : World) :
  NoDup l.*1 ->
  forRange (pkg_filesystem.writeDataFile p) l tt w = (Ok tt, w') ->
  forall k v, (k, v) ∈ l -> exists t, disk w' !! (p +:+ k) = Some (mkFile v t).
Proof.
  revert w. induction l as [|[k0 v0] l IH]; intros w Hnd.
  - intros _ k v Hin. by apply elem_of_nil in Hin.
  - apply NoDup_cons in Hnd as [Hk0 Hnd]. cbn [forRange]. rewrite run_bind.
    unfold pkg_filesystem.writeDataFile at 1, os.WriteFile. cbn [fst snd].
    destruct (refuses (SysWriteFile (p +:+ k0)) || _); [done|].
    intros Hrun k v [[= -> ->]|Hkv]%elem_of_cons; [|by apply (IH _ Hnd Hrun)].
    exists (clock w). rewrite (write_loop_frame _ _ _ _ _ Hrun).
    + cbn [disk]. by rewrite lookup_insert_eq.
    + intros k v Hkv Heq. apply app_inj_l in Heq as ->.
      apply Hk0. apply list_elem_of_fmap. by exists (k, v).
Qed.

Lemma StoreDataMapOnDisk_frame (p : string) (data : gmap string string) (w w' : World)
    (r : result unit) :
  pkg_filesystem.StoreDataMapOnDisk p data w = (r, w') ->
  forall f, (forall k, is_Some (data !! k) -> f <> p +:+ k) -> disk w' !! f = disk w !! f.
Proof.
  intros Hrun f Hf. apply (write_loop_frame _ _ _ _ _ Hrun).
  intros k v Hkv%elem_of_map_to_list. apply Hf. by exists v.
Qed.

Lemma StoreDataMapOnDisk_Ok (p : string) (data : gmap string string) (w w' : World) :
  pkg_filesystem.StoreDataMapOnDisk p data w = (Ok tt, w') ->
  forall k v, data !! k = Some v -> exists t, disk w' !! (p +:+ k) = Some (mkFile v t).
Proof.
  intros Hrun k v Hkv.
  apply (write_loop _ _ _ _ (NoDup_fst_map_to_list data) Hrun).
  by apply elem_of_map_to_list.
Qed.

(** [StoreConfigMap], whatever it returns, touches no entry but the
    metadata file and the data files of the keys it is given. *)
Lemma StoreConfigMap_frame (cm : ConfigMap) (w w' : World) (r : result unit) :
  StoreConfigMap s cm w = (r, w') ->
  forall f, f <> buildConfigMapMetadataFileName (Name cm) (Namespace cm) ->
            (forall k, is_Some (Data cm !! k) ->
                       f <> buildConfigMapFilePrefix (Name cm) (Namespace cm) +:+ k) ->
            disk w' !! f = disk w !! f.
Proof.
  unfold StoreConfigMap. rewrite run_bind, run_wrap.
  unfold pkg_filesystem.StoreMetadataOnDisk, os.WriteFile at 1. cbv beta iota zeta.
  destruct (refuses (SysWriteFile _) || _); [by intros [= <- <-]|].
  rewrite run_wrap.
  destruct (pkg_filesystem.StoreDataMapOnDisk _ _ _) as [r0 w1] eqn:Hdata.
  intros Hrun f Hm Hf.
  assert (w' = w1) as -> by (destruct r0; by injection Hrun).
  rewrite (StoreDataMapOnDisk_frame _ _ _ _ _ Hdata f Hf). cbn [disk].
  by rewrite lookup_insert_ne.
Qed.

(** A [StoreConfigMap] that succeeds leaves the metadata file with the
    encoded labels and, for every key, the data file with the value. *)
Lemma StoreConfigMap_Ok (cm : ConfigMap) (w w' : World) :
  StoreConfigMap s cm w = (Ok tt, w') ->
  disk w' !! buildConfigMapMetadataFileName (Name cm) (Namespace cm)
  = Some (mkFile (encodeMetadata (storedLabels cm)) (clock w))
  /\ (forall k v, Data cm !! k = Some v ->
                  exists t, disk w' !! (buildConfigMapFilePrefix (Name cm) (Namespace cm) +:+ k)
                            = Some (mkFile v t)).
Proof.
  unfold StoreConfigMap. rewrite run_bind, run_wrap.
  unfold pkg_filesystem.StoreMetadataOnDisk, os.WriteFile at 1. cbv beta iota zeta.
  destruct (refuses (SysWriteFile _) || _); [done|].
  rewrite run_wrap.
  destruct (pkg_filesystem.StoreDataMapOnDisk _ _ _) as [[[]|e] w1] eqn:Hdata; [|done].
  intros [= <-]. split.
  - rewrite (StoreDataMapOnDisk_frame _ _ _ _ _ Hdata).
    + cbn [disk]. by rewrite lookup_insert_eq.
    + intros k _. apply metadata_ne_data.
  - exact (StoreDataMapOnDisk_Ok _ _ _ _ Hdata).
Qed.

End storing.

(** ** Store, then read *)

Section round_trip.
Import GoStrings GoStringsFacts.
Context `{Pkg}.
Variable s : FileSystemStore.

Local Abbreviation storedLabels cm :=
  (Labels cm ∪ {[ NamespaceNameLabelKey := Namespace cm ]} : gmap string string).

(** After a store into any directory that succeeds, a read that succeeds
    returns the labels the codec reads back from the stored labels, and a
    data map that holds the content of every file with the prefix: the
    values given, and the files that were there for other keys. *)
Lemma store_then_get (cm : ConfigMap) (w w1 : World) (cm' : ConfigMap) (w2 : World) :
  StoreConfigMap s cm w = (Ok tt, w1) ->
  GetConfigMap s (Name cm) (Namespace cm) w1 = (Ok cm', w2) ->
  Name cm' = Name cm /\ Namespace cm' = Namespace cm
  /\ decodeMetadata (encodeMetadata (storedLabels cm)) = Some (Labels cm')
  /\ (forall k v, Data cm !! k = Some v -> Data cm' !! k = Some v)
  /\ (forall k, Data cm !! k = None ->
                Data cm' !! k
                = content <$> disk w !! (buildConfigMapFilePrefix (Name cm) (Namespace cm) +:+ k)).
Proof.
  intros Hstore Hget.
  destruct (StoreConfigMap_Ok s cm w w1 Hstore) as [Hmeta Hin].
  pose proof (StoreConfigMap_frame s cm w w1 _ Hstore) as Hout.
  destruct (GetConfigMap_fields s _ _ _ _ _ Hget)
    as (_ & _ & Hn & Hns & (mf & Hmf & Hmd) & Hdata).
  split; [done|]. split; [done|]. split; [|split].
  - rewrite Hmeta in Hmf. by injection Hmf as <-.
  - intros k v Hk. rewrite Hdata. destruct (Hin k v Hk) as [t ->]. done.
  - intros k Hk. rewrite Hdata. f_equal. apply Hout; [apply not_eq_sym, metadata_ne_data|].
    intros k' [v Hk'] Heq. apply app_inj_l in Heq as ->. congruence.
Qed.

(** A read that succeeds after a store found a data file: one that was
    there before the store, or one of a key given. *)
Lemma store_then_get_exists (cm : ConfigMap) (w w1 : World) (r : result unit)
    (cm' : ConfigMap) (w2 : World) :
  StoreConfigMap s cm w = (r, w1) ->
  GetConfigMap s (Name cm) (Namespace cm) w1 = (Ok cm', w2) ->
  (exists f, is_Some (disk w !! f)
             /\ HasPrefix f (buildConfigMapFilePrefix (Name cm) (Namespace cm)) = true)
  \/ Data cm <> ∅.
Proof.
  intros Hstore (Hm & _)%GetConfigMap_inv.
  apply hasMatchingConfigMapFile_true in Hm as (f & Hf%elem_of_entryNames & Hp).
  destruct (Data cm !! TrimPrefix f (buildConfigMapFilePrefix (Name cm) (Namespace cm)))
    as [v|] eqn:Hk.
  - right. intros Hempty. by rewrite Hempty, lookup_empty in Hk.
  - left. exists f. split; [|done].
    rewrite <- (StoreConfigMap_frame s cm w w1 _ Hstore); [done| |].
    + intros ->. by rewrite metadata_not_data in Hp.
    + intros k [v Hv] Hfk. rewrite Hfk, TrimPrefix_app in Hk. congruence.
Qed.

(** C1, as amended.  When a store of a resource into an empty store
    succeeds and the read of its name and namespace then succeeds, the
    resource read has the same name and namespace, exactly the data map
    stored, and the labels stored together with the namespace label the
    store injects, provided the metadata codec reads back the label map it
    wrote; and the data map stored is not empty, for without a data file
    the read does not succeed. *)
Theorem store_get_round_trip (cm : ConfigMap) (w w1 : World) (cm' : ConfigMap) (w2 : World) :
  disk w = ∅ ->
  decodeMetadata (encodeMetadata (storedLabels cm)) = Some (storedLabels cm) ->
  StoreConfigMap s cm w = (Ok tt, w1) ->
  GetConfigMap s (Name cm) (Namespace cm) w1 = (Ok cm', w2) ->
  Name cm' = Name cm /\ Namespace cm' = Namespace cm
  /\ Labels cm' = storedLabels cm
  /\ Data cm' = Data cm
  /\ Data cm <> ∅.
Proof.
  intros Hempty Hcodec Hstore Hget.
  destruct (store_then_get cm w w1 cm' w2 Hstore Hget) as (Hn & Hns & Hl & Hin & Hout).
  split; [done|]. split; [done|]. split; [congruence|]. split.
  - apply map_eq. intros k. destruct (Data cm !! k) as [v|] eqn:Hk.
    + by apply Hin.
    + rewrite (Hout k Hk), Hempty. by rewrite lookup_empty.
  - destruct (store_then_get_exists cm w w1 _ cm' w2 Hstore Hget)
      as [(f & [x Hx] & _)|Hne]; [|done].
    by rewrite Hempty, lookup_empty in Hx.
Qed.

(** C8.  A store over a directory that already holds data files of the
    resource, whatever it returns, touches no entry but the metadata file
    and the files of the keys it is given; a data file of a key that is not
    given stays as it was, and a [GetConfigMap] that then succeeds returns
    its content under that key, next to the keys given when the store
    succeeded. *)
Theorem store_keeps_stale_keys (cm : ConfigMap) (w w1 : World) (r : result unit) :
  let p := buildConfigMapFilePrefix (Name cm) (Namespace cm) in
  StoreConfigMap s cm w = (r, w1) ->
  (forall f, f <> buildConfigMapMetadataFileName (Name cm) (Namespace cm) ->
             (forall k, is_Some (Data cm !! k) -> f <> p +:+ k) ->
             disk w1 !! f = disk w !! f)
  /\ (forall k file,
        Data cm !! k = None -> disk w !! (p +:+ k) = Some file ->
        disk w1 !! (p +:+ k) = Some file
        /\ forall cm' w2,
             GetConfigMap s (Name cm) (Namespace cm) w1 = (Ok cm', w2) ->
             Data cm' !! k = Some (content file)
             /\ (r = Ok tt ->
                 forall k' v, Data cm !! k' = Some v -> Data cm' !! k' = Some v)).
Proof.
  intros p Hstore.
  pose proof (StoreConfigMap_frame s cm w w1 r Hstore) as Hout.
  split; [exact Hout|].
  intros k file Hk Hfile.
  assert (Hkept : disk w1 !! (p +:+ k) = Some file).
  { rewrite Hout; [done|apply not_eq_sym, metadata_ne_data|].
    intros k' [v Hk'] Heq. apply app_inj_l in Heq as ->. congruence. }
  split; [done|].
  intros cm' w2 Hget. split.
  - destruct (GetConfigMap_fields s _ _ _ _ _ Hget) as (_ & _ & _ & _ & _ & Hdata).
    fold p in Hdata. by rewrite Hdata, Hkept.
  - intros -> k' v Hk'.
    by apply (store_then_get cm w w1 cm' w2 Hstore Hget).
Qed.

End round_trip.

Lemma store_get_round_trip_witness :
  Name Example.read = "app-config" /\ Namespace Example.read = "default"
  /\ Labels Example.read
     = {[ "env" := "prod" ]} ∪ {[ "store.k2d.io/namespace-name" := "default" ]}
  /\ Data Example.read = {[ "A" := "1"; "B" := "2" ]}
  /\ Data Example.appConfig <> ∅.
Proof.
  apply (@store_get_round_trip linePkg Example.store Example.appConfig emptyWorld
           Example.stored Example.read
           (@GetConfigMap linePkg Example.store "app-config" "default" Example.stored).2).
  - reflexivity.
  - vm_compute. reflexivity.
  - vm_compute. reflexivity.
  - vm_compute. reflexivity.
Defined.

(** C1, as stated, fails: the labels read back are not the labels stored,
    because the namespace label is injected; and a resource stored without
    data is not found. *)
Lemma store_get_changes_labels :
  reservedFree "app-config" = true /\ reservedFree "default" = true
  /\ reservedFree "A" = true /\ reservedFree "B" = true
  /\ disk emptyWorld = ∅
  /\ (exists w1 cm' w2,
        @StoreConfigMap linePkg Example.store Example.appConfig emptyWorld = (Ok tt, w1)
        /\ @GetConfigMap linePkg Example.store "app-config" "default" w1 = (Ok cm', w2)
        /\ Labels cm' <> Labels Example.appConfig)
  /\ (exists w1,
        @StoreConfigMap linePkg Example.store Example2.noData emptyWorld = (Ok tt, w1)
        /\ (@GetConfigMap linePkg Example.store "app-config" "default" w1).1
           = Err ErrResourceNotFound).
Proof.
  do 5 (split; [reflexivity|]). split.
  - eexists _, _, _. split; [vm_compute; reflexivity|]. split; [vm_compute; reflexivity|].
    intros Heq. apply (f_equal (fun m => m !! "store.k2d.io/namespace-name")) in Heq.
    vm_compute in Heq. discriminate.
  - eexists. split; [vm_compute; reflexivity|]. vm_compute. reflexivity.
Qed.

Lemma store_keeps_stale_keys_witness :
  let w1 := (@StoreConfigMap linePkg Example.store Example2.appConfig' Example.stored).2 in
  let cm' := returned (@GetConfigMap linePkg Example.store "app-config" "default" w1) in
  disk w1 !! "default-app-config-k2dcm-B" = Some (mkFile "2" 2)
  /\ Data cm' !! "B" = Some "2" /\ Data cm' !! "A" = Some "one".
Proof.
  intros w1 cm'.
  destruct (@store_keeps_stale_keys linePkg Example.store Example2.appConfig' Example.stored
              w1 (Ok tt) ltac:(vm_compute; reflexivity)) as (_ & Hstale).
  destruct (Hstale "B" (mkFile "2" 2) ltac:(vm_compute; reflexivity)
              ltac:(vm_compute; reflexivity)) as (Hfile & Hread).
  split; [exact Hfile|].
  destruct (Hread cm' (@GetConfigMap linePkg Example.store "app-config" "default" w1).2
              ltac:(vm_compute; reflexivity)) as (HB & Hnew).
  split; [exact HB|]. apply (Hnew eq_refl). vm_compute. reflexivity.
Defined.

(** ** Paths and binds *)

Section binds.
Import GoStrings GoStringsFacts.
Context `{Pkg}.
Variable s : FileSystemStore.

Lemma IsAbs_app (d x : string) : GoPath.IsAbs d = true -> GoPath.IsAbs (d +:+ x) = true.
Proof.
  unfold GoPath.IsAbs. intros [r ->]%HasPrefix_spec. rewrite app_assoc. apply HasPrefix_app.
Qed.

Lemma Clean_abs (p : string) : GoPath.IsAbs p = true -> GoPath.IsAbs (GoPath.Clean p) = true.
Proof.
  intros Habs. unfold GoPath.Clean. rewrite Habs.
  destruct (decide _) as [Hempty|_]; [by rewrite app_cons in Hempty|].
  apply HasPrefix_app.
Qed.

(** Joining an entry name to an absolute directory gives an absolute path. *)
Lemma Join_abs (dir name : string) :
  GoPath.IsAbs dir = true -> GoPath.IsAbs (GoPath.Join dir name) = true.
Proof.
  intros Habs. unfold GoPath.Join.
  destruct (decide (dir = "")) as [->|_]; [done|].
  by apply Clean_abs, IsAbs_app.
Qed.

(** On annotations that are all path annotations, the bind of a key is the
    path annotation of that key. *)
Lemma binds_of_path_annotations (cm : ConfigMap) (a : gmap string string) :
  Annotations cm = Some a ->
  (forall key, is_Some (a !! key) -> exists k, key = FilePathAnnotationKey +:+ "/" +:+ k) ->
  forall k, (GetConfigMapBinds s cm).1 !! k = a !! (FilePathAnnotationKey +:+ "/" +:+ k).
Proof.
  intros Ha. unfold GetConfigMapBinds. rewrite Ha. cbn [fst default].
  clear Ha. revert a.
  apply (map_fold_weak_ind
           (fun (binds a : gmap string string) =>
              (forall key, is_Some (a !! key) ->
                           exists k, key = FilePathAnnotationKey +:+ "/" +:+ k) ->
              forall k, binds !! k = a !! (FilePathAnnotationKey +:+ "/" +:+ k))).
  - intros _ k. by rewrite !lookup_empty.
  - intros key value a binds Hfresh IH Hkeys k.
    destruct (Hkeys key) as [k0 ->]; [by rewrite lookup_insert_eq|].
    rewrite HasPrefix_app.
    rewrite <- (app_assoc FilePathAnnotationKey "/" k0), TrimPrefix_app.
    destruct (decide (k = k0)) as [->|Hne].
    + rewrite lookup_insert_eq, (app_assoc FilePathAnnotationKey "/" k0).
      by rewrite lookup_insert_eq.
    + rewrite lookup_insert_ne by done. rewrite IH.
      * rewrite lookup_insert_ne; [done|].
        rewrite (app_assoc FilePathAnnotationKey "/" k0).
        intros Heq. by do 2 apply app_inj_l in Heq.
      * intros key [v Hv]. apply Hkeys. exists v.
        rewrite lookup_insert_ne; [done|]. intros <-. congruence.
Qed.

(** C9, as amended.  A resource that [GetConfigMap] returns carries exactly
    one path annotation per data key, the reserved prefix followed by the
    key; the bind extractor maps the key to the value of that annotation,
    which is the store path joined with the name of the data file of the
    key; the content of that file is the value of the key; and the path is
    absolute when the store path is. *)
Theorem binds_point_at_data_files (n ns : string) (w w' : World) (cm : ConfigMap) :
  GetConfigMap s n ns w = (Ok cm, w') ->
  exists a,
    Annotations cm = Some a
    /\ (forall key, is_Some (a !! key)
                    <-> exists k, key = FilePathAnnotationKey +:+ "/" +:+ k
                                  /\ is_Some (Data cm !! k))
    /\ (forall k, (GetConfigMapBinds s cm).1 !! k
                  = a !! (FilePathAnnotationKey +:+ "/" +:+ k))
    /\ (forall k v, Data cm !! k = Some v ->
          let file := buildConfigMapFilePrefix n ns +:+ k in
          let path := GoPath.Join (configMapPath s) file in
          a !! (FilePathAnnotationKey +:+ "/" +:+ k) = Some path
          /\ (GetConfigMapBinds s cm).1 !! k = Some path
          /\ content <$> disk w !! file = Some v
          /\ (GoPath.IsAbs (configMapPath s) = true -> GoPath.IsAbs path = true)).
Proof.
  intros Hget.
  destruct (GetConfigMap_Annotations s n ns w w' cm Hget) as (a & Ha & Hpath & Hoth).
  destruct (GetConfigMap_fields s n ns w w' cm Hget) as (_ & _ & _ & _ & _ & Hdata).
  assert (Hkeys : forall key, is_Some (a !! key)
                    <-> exists k, key = FilePathAnnotationKey +:+ "/" +:+ k
                                  /\ is_Some (Data cm !! k)).
  { intros key. split.
    - intros [v Hv].
      destruct (HasPrefix key (FilePathAnnotationKey +:+ "/")) eqn:Hp.
      + apply HasPrefix_spec in Hp as [k ->]. rewrite app_assoc in Hv |- *.
        exists k. split; [done|]. rewrite Hdata. rewrite Hpath in Hv.
        by destruct (disk w !! (buildConfigMapFilePrefix n ns +:+ k)).
      + rewrite Hoth in Hv; [done|]. intros k ->.
        by rewrite <- app_assoc, HasPrefix_app in Hp.
    - intros (k & -> & [v Hv]). rewrite Hpath. rewrite Hdata in Hv.
      by destruct (disk w !! (buildConfigMapFilePrefix n ns +:+ k)). }
  assert (Hbinds : forall k, (GetConfigMapBinds s cm).1 !! k
                             = a !! (FilePathAnnotationKey +:+ "/" +:+ k)).
  { apply binds_of_path_annotations; [done|].
    intros key (k & -> & _)%Hkeys. by exists k. }
  exists a. split; [done|]. split; [done|]. split; [done|].
  intros k v Hv file path.
  assert (Hfile : content <$> disk w !! file = Some v).
  { subst file. by rewrite <- (Hdata k). }
  assert (Hann : a !! (FilePathAnnotationKey +:+ "/" +:+ k) = Some path).
  { rewrite Hpath. fold file. fold path. by destruct (disk w !! file). }
  split; [done|]. split; [by rewrite Hbinds|]. split; [done|].
  apply Join_abs.
Qed.

(** C10.  [GetConfigMapBinds] returns a nil error for every resource; with
    no annotations, unset or empty, it returns no binds. *)
Theorem GetConfigMapBinds_total (cm : ConfigMap) :
  (GetConfigMapBinds s cm).2 = None
  /\ (Annotations cm = None -> (GetConfigMapBinds s cm).1 = ∅)
  /\ (Annotations cm = Some ∅ -> (GetConfigMapBinds s cm).1 = ∅).
Proof.
  split; [done|]. unfold GetConfigMapBinds.
  split; by intros ->.
Qed.

End binds.

Lemma binds_point_at_data_files_witness :
  exists cm a,
    Annotations cm = Some a
    /\ Data cm !! "A" = Some "1"
    /\ a !! "store.k2d.io/filesystem/path/A"
       = Some "/var/lib/k2d/configmaps/default-app-config-k2dcm-A"
    /\ (GetConfigMapBinds Example.store cm).1 !! "A"
       = Some "/var/lib/k2d/configmaps/default-app-config-k2dcm-A"
    /\ content <$> disk Example.stored !! "default-app-config-k2dcm-A" = Some "1".
Proof.
  destruct (@binds_point_at_data_files linePkg Example.store "app-config" "default"
              Example.stored _ _ ltac:(vm_compute; reflexivity))
    as (a & Ha & _ & _ & Hkey).
  eexists _, a. split; [exact Ha|].
  split; [vm_compute; reflexivity|].
  destruct (Hkey "A" "1" ltac:(vm_compute; reflexivity)) as (Hann & Hbind & Hfile & _).
  split; [exact Hann|]. split; [exact Hbind|exact Hfile].
Defined.

(** C9, as stated, fails: in a store at a relative path the path
    annotations, and so the binds, are relative paths. *)
Lemma relative_store_relative_binds :
  exists w1 cm a w2,
    @StoreConfigMap linePkg Example3.relativeStore Example.appConfig emptyWorld = (Ok tt, w1)
    /\ @GetConfigMap linePkg Example3.relativeStore "app-config" "default" w1 = (Ok cm, w2)
    /\ Annotations cm = Some a
    /\ Data cm !! "A" = Some "1"
    /\ a !! "store.k2d.io/filesystem/path/A"
       = Some "data/configmaps/default-app-config-k2dcm-A"
    /\ (GetConfigMapBinds Example3.relativeStore cm).1 !! "A"
       = Some "data/configmaps/default-app-config-k2dcm-A"
    /\ GoPath.IsAbs "data/configmaps/default-app-config-k2dcm-A" = false.
Proof.
  eexists _, _, _, _.
  split; [vm_compute; reflexivity|]. split; [vm_compute; reflexivity|].
  split; [vm_compute; reflexivity|]. repeat split; vm_compute; reflexivity.
Qed.

(** ** Listing a namespace: [GetConfigMaps] *)

Section listing.
Import GoStrings GoStringsFacts.
Context `{Pkg}.
Variable s : FileSystemStore.

Lemma take_app (u x : string) : take (String.length u) (u +:+ x) = u.
Proof.
  induction u as [|c u IH]; [by destruct x|].
  rewrite app_cons. simpl. by rewrite IH.
Qed.

Lemma labelsAgreeb_correct (d : gmap string File) :
  labelsAgreeb d = true -> labelsAgree d.
Proof.
  unfold labelsAgreeb. rewrite forallb_forall. intros Hall u mf md Hmf Hmd.
  specialize (Hall (u +:+ "-k2dcm.metadata", mf)). cbn [fst snd] in Hall.
  rewrite HasSuffix_app, Hmd, length_app in Hall.
  replace (String.length u + String.length "-k2dcm.metadata"
           - String.length "-k2dcm.metadata")%nat with (String.length u) in Hall by lia.
  rewrite take_app in Hall. apply Hall.
  apply list_elem_of_In. by apply elem_of_map_to_list.
Qed.

Lemma listConfigMapFile_skip (p : string) (cm : ConfigMap) (file : string) (w : World) :
  HasPrefix file p = false -> listConfigMapFile p cm file w = (Ok cm, w).
Proof. intros Hp. unfold listConfigMapFile. by rewrite Hp. Qed.

(** One iteration of the inner loop of [GetConfigMaps] on a file with the
    prefix: the read and then the stat, each of which can fail. *)
Lemma listConfigMapFile_run (p : string) (cm : ConfigMap) (file : string) (w : World) :
  HasPrefix file p = true ->
  listConfigMapFile p cm file w
  = if refuses (SysReadFile file)
    then (Err (Errorf ("unable to read file " +:+ file) (ErrSyscall (SysReadFile file))),
          logCall (SysReadFile file) w)
    else match disk w !! file with
         | None =>
             (Err (Errorf ("unable to read file " +:+ file) (ErrNotExist "open" file)),
              logCall (SysReadFile file) w)
         | Some f =>
             if refuses (SysStat file)
             then (Err (Errorf ("unable to get file info for " +:+ file)
                               (ErrSyscall (SysStat file))),
                   logCall (SysStat file) (logCall (SysReadFile file) w))
             else (Ok (listEntry p (disk w) cm file),
                   logCall (SysStat file) (logCall (SysReadFile file) w))
         end.
Proof.
  intros Hp. unfold listConfigMapFile, listEntry. rewrite Hp.
  rewrite run_bind, run_wrap. unfold os.ReadFile.
  destruct (refuses (SysReadFile file)); [done|].
  destruct (disk w !! file) as [f|] eqn:Hf; [|done].
  rewrite run_bind, run_wrap. unfold os.Stat. cbn [disk logCall].
  destruct (refuses (SysStat file)); [done|]. by rewrite Hf.
Qed.

(** The inner loop of [GetConfigMaps], when it succeeds: it could read
    every file with the prefix, has left the directory as it is, and the
    resource is what the loop makes of the directory. *)
Lemma list_loop (p : string) (files : list string) (cm cm' : ConfigMap) (w w' : World) :
  forRange (listConfigMapFile p) files cm w = (Ok cm', w') ->
  cm' = foldl (listEntry p (disk w)) cm files
  /\ disk w' = disk w /\ clock w' = clock w
  /\ readable p (disk w) files.
Proof.
  revert cm w. induction files as [|file files IH]; intros cm w.
  - intros [= <- <-]. do 3 (split; [done|]). intros f Hf. by apply elem_of_nil in Hf.
  - cbn [forRange foldl]. rewrite run_bind.
    destruct (HasPrefix file p) eqn:Hp.
    + rewrite (listConfigMapFile_run _ _ _ _ Hp).
      destruct (refuses (SysReadFile file)) eqn:Hr; [done|].
      destruct (disk w !! file) as [f|] eqn:Hf; [|done].
      destruct (refuses (SysStat file)) eqn:Hs; [done|].
      intros (-> & Hd & Hc & Hall)%IH. cbn [disk clock logCall] in *.
      do 3 (split; [done|]).
      intros g [->|Hg]%elem_of_cons Hgp; [by rewrite Hf|]. by apply Hall.
    + rewrite (listConfigMapFile_skip _ _ _ _ Hp).
      intros (-> & Hd & Hc & Hall)%IH.
      replace (listEntry p (disk w) cm file) with cm
        by (unfold listEntry; by rewrite Hp).
      do 3 (split; [done|]).
      intros g [->|Hg]%elem_of_cons Hgp; [congruence|]. by apply Hall.
Qed.

(** The two loops differ in the annotations only. *)
Lemma forget_readEntry (p : string) (d : gmap string File) (cm : ConfigMap) (file : string) :
  forgetAnnotations (readEntry s p d cm file) = listEntry p d (forgetAnnotations cm) file.
Proof.
  unfold readEntry, listEntry. destruct (HasPrefix file p); [|done].
  by destruct (d !! file).
Qed.

Lemma forget_readEntry_fold (p : string) (d : gmap string File) (files : list string)
    (cm : ConfigMap) :
  forgetAnnotations (foldl (readEntry s p d) cm files)
  = foldl (listEntry p d) (forgetAnnotations cm) files.
Proof.
  revert cm. induction files as [|file files IH]; intros cm; [done|].
  cbn [foldl]. by rewrite IH, forget_readEntry.
Qed.

(** One turn of the outer loop that succeeds: the metadata file of the name
    could be read and decodes, the files of the resource could be read, and
    the resource of the name is appended. *)
Lemma listConfigMap_inv (files : list string) (cms cms' : list ConfigMap) (name : string)
    (w w' : World) :
  listConfigMap files cms name w = (Ok cms', w') ->
  exists mf md,
    disk w !! (name +:+ "-k2dcm.metadata") = Some mf
    /\ decodeMetadata (content mf) = Some md
    /\ cms' = cms ++ [listItem (disk w) files name md]
    /\ disk w' = disk w
    /\ refuses (SysReadFile (name +:+ "-k2dcm.metadata")) = false
    /\ readable (buildConfigMapFilePrefix
                   (TrimPrefix name (default "" (md !! NamespaceNameLabelKey) +:+ "-"))
                   (default "" (md !! NamespaceNameLabelKey)))
                (disk w) files.
Proof.
  unfold listConfigMap. rewrite run_bind, run_wrap.
  destruct (pkg_filesystem.LoadMetadataFromDisk _ w) as [[md|e] w1] eqn:Hload; [|done].
  pose proof (LoadMetadataFromDisk_allowed _ _ _ _ Hload) as Hrm.
  apply LoadMetadataFromDisk_inv in Hload as (mf & Hmf & Hmd & ->).
  cbv zeta. rewrite run_bind.
  destruct (forRange _ _ _ _) as [[cm|e] w2] eqn:Hloop; [|done].
  apply list_loop in Hloop as (-> & Hd & _ & Hall).
  intros [= <- <-]. by exists mf, md.
Qed.




End listing.

(** ** The agreement of metadata files and names is kept by the store *)

Section agreement.
Import GoStrings GoStringsFacts.
Context `{Pkg}.
Variable s : FileSystemStore.

Lemma labelsAgree_empty : labelsAgree ∅.
Proof. intros u mf md Hmf. by rewrite lookup_empty in Hmf. Qed.

(** A directory that lost entries still agrees. *)
Lemma labelsAgree_subseteq (d d' : gmap string File) :
  d' ⊆ d -> labelsAgree d -> labelsAgree d'.
Proof.
  intros Hsub Hagree u mf md Hmf Hmd. apply (Hagree u mf md); [|done].
  by eapply lookup_weaken.
Qed.

(** [StoreConfigMap] keeps the agreement, when the labels given do not set
    the namespace label to another namespace and no data file is named as a
    metadata file. *)
Lemma StoreConfigMap_labelsAgree (cm : ConfigMap) (w w1 : World) :
  let labels := (Labels cm ∪ {[ NamespaceNameLabelKey := Namespace cm ]}
                 : gmap string string) in
  labelsAgree (disk w) ->
  StoreConfigMap s cm w = (Ok tt, w1) ->
  decodeMetadata (encodeMetadata labels) = Some labels ->
  labels !! NamespaceNameLabelKey = Some (Namespace cm) ->
  (forall k, is_Some (Data cm !! k) ->
             HasSuffix (buildConfigMapFilePrefix (Name cm) (Namespace cm) +:+ k)
                       "-k2dcm.metadata" = false) ->
  labelsAgree (disk w1).
Proof.
  intros labels Hagree Hstore Hcodec Hlabel Hkeys u mf md Hmf Hmd.
  destruct (StoreConfigMap_Ok s cm w w1 Hstore) as [Hmeta Hin].
  pose proof (StoreConfigMap_frame s cm w w1 _ Hstore) as Hout.
  destruct (decide (u +:+ "-k2dcm.metadata"
                    = buildConfigMapMetadataFileName (Name cm) (Namespace cm))) as [Heq|Hne].
  - rewrite Heq, Hmeta in Hmf. injection Hmf as <-. cbn [content] in Hmd.
    fold labels in Hmd. rewrite Hcodec in Hmd. injection Hmd as <-.
    rewrite Hlabel. cbn [default].
    unfold buildConfigMapMetadataFileName in Heq.
    rewrite <- (app_assoc (Namespace cm) "-" (Name cm +:+ "-k2dcm.metadata")) in Heq.
    rewrite <- (app_assoc (Namespace cm +:+ "-") (Name cm) "-k2dcm.metadata") in Heq.
    apply app_inj_r in Heq as ->. apply HasPrefix_app.
  - apply (Hagree u mf md); [|done]. rewrite <- Hout; [done|done|].
    intros k Hk Heq. specialize (Hkeys k Hk).
    by rewrite <- Heq, HasSuffix_app in Hkeys.
Qed.

Lemma remove_loop_subseteq (p : string) (files : list string) (w w' : World)
    (r : result unit) :
  forRange (removeConfigMapFile p) files tt w = (r, w') -> disk w' ⊆ disk w.
Proof.
  revert w. induction files as [|file files IH]; intros w.
  - by intros [= <- <-].
  - cbn [forRange]. rewrite run_bind. unfold removeConfigMapFile at 1.
    destruct (HasPrefix file p).
    + rewrite run_wrap.
      destruct (os.Remove file w) as [[[]|e0] w1] eqn:Hrm.
      * apply Remove_inv in Hrm as [(_ & _ & Hd & _)|[(? & ? & _) _]]; [|done].
        intros Hrun%IH. etrans; [done|]. rewrite Hd. apply delete_subseteq.
      * apply Remove_inv in Hrm as [[? _]|(_ & Hd & _)]; [done|].
        intros [= <- <-]. by rewrite Hd.
    + apply IH.
Qed.

(** [DeleteConfigMap] only removes entries, whatever it returns; so it
    keeps the agreement. *)
Lemma DeleteConfigMap_subseteq (n ns : string) (w w' : World) (r : result unit) :
  DeleteConfigMap s n ns w = (r, w') -> disk w' ⊆ disk w.
Proof.
  destruct (refuses SysReadDir) eqn:Hr;
    [rewrite (DeleteConfigMap_refused s n ns w Hr); by intros [= <- <-]|].
  destruct (hasMatchingConfigMapFile (os.entryNames (disk w))
              (buildConfigMapFilePrefix n ns)) eqn:Hm.
  - rewrite (DeleteConfigMap_found s n ns w Hr Hm).
    destruct (os.Remove _ _) as [[[]|e0] w1] eqn:Hrm.
    + apply Remove_inv in Hrm as [(_ & _ & Hd & _)|[(? & ? & _) _]]; [|done].
      intros Hrun%remove_loop_subseteq. etrans; [done|]. rewrite Hd. apply delete_subseteq.
    + apply Remove_inv in Hrm as [[? _]|(_ & Hd & _)]; [done|].
      intros [= <- <-]. by rewrite Hd.
  - rewrite (DeleteConfigMap_not_found s n ns w Hr Hm). by intros [= <- <-].
Qed.

Lemma DeleteConfigMap_labelsAgree (n ns : string) (w w' : World) (r : result unit) :
  labelsAgree (disk w) -> DeleteConfigMap s n ns w = (r, w') -> labelsAgree (disk w').
Proof.
  intros Hagree Hdel. eapply labelsAgree_subseteq; [|done].
  by eapply DeleteConfigMap_subseteq.
Qed.

End agreement.

(** ** Listing against reading *)

Section list_vs_get.
Import GoStrings GoStringsFacts.
Context `{Pkg}.
Variable s : FileSystemStore.

(** The resource of the listing is the resource of the reading loop with
    its annotations forgotten, when the name is the namespace label, a dash
    and the rest. *)
Lemma listItem_forget (d : gmap string File) (files : list string) (name : string)
    (md : gmap string string) :
  let ns := default "" (md !! NamespaceNameLabelKey) in
  let n := TrimPrefix name (ns +:+ "-") in
  listItem d files name md
  = forgetAnnotations
      (foldl (readEntry s (buildConfigMapFilePrefix n ns) d)
             (setLabels (mkConfigMap "ConfigMap" "v1" n ns ∅ (Some ∅) None ∅) md) files).
Proof. intros ns n. by rewrite forget_readEntry_fold. Qed.


End list_vs_get.



(** ** Listing across namespaces *)

(** C4 on the code.  With one resource stored in namespace [kube] and one
    in namespace [kube-system], the listing of [kube] returns both: the
    names are filtered by the namespace as a prefix, and the namespace of an
    item is then read from its metadata file without being compared with the
    namespace asked for.  The resource of [kube-system] is not a resource of
    [kube]: reading it there gives not-found.  The file names alone cannot
    tell the namespace: [dns] of [kube-system] and [system-dns] of [kube]
    are stored under the same names. *)
Theorem list_returns_other_namespace :
  (exists l w',
     @GetConfigMaps linePkg Example.store "kube" Example4.twoNamespaces = (Ok l, w')
     /\ (fun it => (Name it, Namespace it)) <$> Items l
        = [("app-config", "kube"); ("dns", "kube-system")])
  /\ (@GetConfigMap linePkg Example.store "dns" "kube" Example4.twoNamespaces).1
     = Err ErrResourceNotFound
  /\ os.entryNames
       (disk (@StoreConfigMap linePkg Example.store Example4.dnsConfig emptyWorld).2)
     = os.entryNames
         (disk (@StoreConfigMap linePkg Example.store Example4.systemDnsConfig emptyWorld).2).
Proof.
  split; [|split; vm_compute; reflexivity].
  eexists _, _. split; vm_compute; reflexivity.
Qed.

(* ===================================================================== *)
(** * Part III: further properties of the store                           *)
(* ===================================================================== *)

(** ** What the outcome of a reading and of a removal says of the directory *)

Section outcomes.
Import GoStrings GoStringsFacts.
Context `{Pkg}.
Variable s : FileSystemStore.

(** [GetConfigMap] by outcome.  When it succeeds, some entry has the
    prefix, the metadata file is there and decodes to the labels returned,
    the name and the namespace are those asked for, and the data map has one
    entry per file with the prefix, keyed by the rest of the file name.
    When some entry has the prefix and the metadata file is missing or does
    not decode, it fails, and its error neither is nor wraps the not-found
    error. *)
Theorem GetConfigMap_outcomes (n ns : string) (w : World) :
  let p := buildConfigMapFilePrefix n ns in
  let m := buildConfigMapMetadataFileName n ns in
  (forall cm, (GetConfigMap s n ns w).1 = Ok cm ->
     (exists f, is_Some (disk w !! f) /\ HasPrefix f p = true)
     /\ Name cm = n /\ Namespace cm = ns
     /\ (exists mf, disk w !! m = Some mf /\ decodeMetadata (content mf) = Some (Labels cm))
     /\ forall k, Data cm !! k = content <$> disk w !! (p +:+ k))
  /\ ((exists f, is_Some (disk w !! f) /\ HasPrefix f p = true) ->
      (forall mf, disk w !! m = Some mf -> decodeMetadata (content mf) = None) ->
      exists e, (GetConfigMap s n ns w).1 = Err e /\ errors_Is e isNotFound = false).
Proof.
  intros p m. split.
  - intros cm Hget.
    destruct (GetConfigMap s n ns w) as [r w'] eqn:Hrun. cbn [fst] in Hget. subst r.
    pose proof (GetConfigMap_inv s _ _ _ _ _ Hrun) as [Hm _].
    destruct (GetConfigMap_fields s _ _ _ _ _ Hrun) as (_ & _ & Hn & Hns & Hmeta & Hdata).
    split; [|done].
    apply hasMatchingConfigMapFile_true in Hm as (f & Hf%elem_of_entryNames & Hp).
    by exists f.
  - intros (f & Hf & Hp) Hbad.
    assert (Hm : hasMatchingConfigMapFile (os.entryNames (disk w)) p = true).
    { apply hasMatchingConfigMapFile_true. exists f. split; [|done].
      by apply elem_of_entryNames. }
    destruct (GetConfigMap s n ns w) as [[cm|e] w'] eqn:Hrun.
    + destruct (GetConfigMap_fields s _ _ _ _ _ Hrun)
        as (_ & _ & _ & _ & (mf & Hmf & Hmd) & _).
      fold m in Hmf. by rewrite (Hbad mf Hmf) in Hmd.
    + exists e. split; [done|]. by apply (GetConfigMap_error s n ns w w' e Hm Hrun).
Qed.

(** The listing of a directory has no name twice. *)
Lemma NoDup_entryNames (d : gmap string File) : NoDup (os.entryNames d).
Proof.
  unfold os.entryNames. rewrite merge_sort_Permutation. apply NoDup_fst_map_to_list.
Qed.

(** The removal loop, whatever it returns, touches no entry without the
    prefix. *)
Lemma remove_loop_frame (p : string) (files : list string) (w w' : World)
    (r : result unit) :
  forRange (removeConfigMapFile p) files tt w = (r, w') ->
  forall g, HasPrefix g p = false -> disk w' !! g = disk w !! g.
Proof.
  revert w. induction files as [|file files IH]; intros w.
  - by intros [= <- <-].
  - cbn [forRange]. rewrite run_bind. unfold removeConfigMapFile at 1.
    destruct (HasPrefix file p) eqn:Hp.
    + rewrite run_wrap.
      destruct (os.Remove file w) as [[[]|e0] w1] eqn:Hrm.
      * apply Remove_inv in Hrm as [(_ & _ & Hd & _)|[(? & ? & _) _]]; [|done].
        intros Hrun g Hg. rewrite (IH _ Hrun g Hg), Hd.
        rewrite lookup_delete_ne; [done|]. intros ->. congruence.
      * apply Remove_inv in Hrm as [[? _]|(_ & Hd & _)]; [done|].
        intros [= <- <-] g Hg. by rewrite Hd.
    + apply IH.
Qed.

(** A removal loop over distinct names of entries that fails leaves an
    entry with the prefix: the one whose removal failed. *)
Lemma remove_loop_stuck (p : string) (files : list string) (w w' : World) (e : error) :
  NoDup files ->
  (forall f, f ∈ files -> HasPrefix f p = true -> is_Some (disk w !! f)) ->
  forRange (removeConfigMapFile p) files tt w = (Err e, w') ->
  exists f, f ∈ files /\ HasPrefix f p = true /\ is_Some (disk w' !! f).
Proof.
  revert w. induction files as [|file files IH]; intros w Hnd Hall; [done|].
  apply NoDup_cons in Hnd as [Hfile Hnd].
  cbn [forRange]. rewrite run_bind. unfold removeConfigMapFile at 1.
  destruct (HasPrefix file p) eqn:Hp.
  - rewrite run_wrap.
    destruct (os.Remove file w) as [[[]|e0] w1] eqn:Hrm.
    + apply Remove_inv in Hrm as [(_ & _ & Hd & _)|[(? & ? & _) _]]; [|done].
      intros Hrun. destruct (IH w1 Hnd) with (2 := Hrun) as (f & Hf & Hfp & Hsome).
      { intros g Hg Hgp. rewrite Hd, lookup_delete_ne by (by intros ->).
        apply Hall; [by right|done]. }
      exists f. split; [by right|done].
    + apply Remove_inv in Hrm as [[? _]|(_ & Hd & _)]; [done|].
      intros [= <- <-]. exists file. split; [by left|]. split; [done|].
      rewrite Hd. apply Hall; [by left|done].
  - intros Hrun. destruct (IH w Hnd) with (2 := Hrun) as (f & Hf & Hfp & Hsome).
    { intros g Hg Hgp. apply Hall; [by right|done]. }
    exists f. split; [by right|done].
Qed.

(** A removal that succeeds was not refused by the listing. *)
Lemma DeleteConfigMap_allowed (n ns : string) (w w' : World) :
  DeleteConfigMap s n ns w = (Ok tt, w') -> refuses SysReadDir = false.
Proof.
  intros Hdel. destruct (refuses SysReadDir) eqn:Hr; [|done].
  by rewrite (DeleteConfigMap_refused s n ns w Hr) in Hdel.
Qed.

(** [DeleteConfigMap] by outcome.  When it succeeds, some entry had the
    prefix and the metadata file was there.  When it fails, either the
    directory is as it was, or the resource is left half-deleted: the
    metadata file, which was there, is gone, and an entry with the prefix
    remains, the data file whose removal failed. *)
Theorem DeleteConfigMap_outcomes (n ns : string) (w w' : World) (r : result unit) :
  let p := buildConfigMapFilePrefix n ns in
  let m := buildConfigMapMetadataFileName n ns in
  DeleteConfigMap s n ns w = (r, w') ->
  match r with
  | Ok _ =>
      (exists f, is_Some (disk w !! f) /\ HasPrefix f p = true)
      /\ is_Some (disk w !! m)
  | Err _ =>
      disk w' = disk w
      \/ (is_Some (disk w !! m) /\ disk w' !! m = None
          /\ exists f, HasPrefix f p = true /\ is_Some (disk w' !! f))
  end.
Proof.
  intros p m.
  destruct (refuses SysReadDir) eqn:Hr.
  { rewrite (DeleteConfigMap_refused s n ns w Hr). intros [= <- <-]. by left. }
  destruct (hasMatchingConfigMapFile (os.entryNames (disk w)) p) eqn:Hm;
    [|rewrite (DeleteConfigMap_not_found s n ns w Hr Hm); intros [= <- <-]; by left].
  rewrite (DeleteConfigMap_found s n ns w Hr Hm). fold p m.
  destruct (os.Remove m _) as [[[]|e0] w1] eqn:Hrm.
  - apply Remove_inv in Hrm as [(_ & Hsome & Hd & _)|[(? & ? & _) _]]; [|done].
    cbn [disk logCall] in Hsome, Hd.
    intros Hrun. destruct r as [[]|e].
    + split; [|done].
      apply hasMatchingConfigMapFile_true in Hm as (f & Hf%elem_of_entryNames & Hp).
      by exists f.
    + right. split; [done|]. split.
      * apply remove_loop_subseteq in Hrun.
        eapply lookup_weaken_None; [|done]. by rewrite Hd, lookup_delete_eq.
      * destruct (remove_loop_stuck p (os.entryNames (disk w)) w1 w' e)
          as (f & _ & Hp & Hf); [apply NoDup_entryNames| |done|by exists f].
        intros g Hg Hgp. rewrite Hd, lookup_delete_ne.
        -- by apply elem_of_entryNames.
        -- intros <-. unfold m, p in Hgp. by rewrite metadata_not_data in Hgp.
  - apply Remove_inv in Hrm as [[? _]|(_ & Hd & _)]; [done|].
    intros [= <- <-]. by left.
Qed.

End outcomes.

Lemma GetConfigMap_outcomes_witness :
  exists e,
    (@GetConfigMap linePkg Example.store "app-config" "default" Example.halfDeleted).1 = Err e
    /\ errors_Is e isNotFound = false.
Proof.
  apply (@GetConfigMap_outcomes linePkg Example.store "app-config" "default"
           Example.halfDeleted).
  - exists "default-app-config-k2dcm-A". split; [by eexists|reflexivity].
  - intros mf Hmf. vm_compute in Hmf. discriminate Hmf.
Defined.

Lemma DeleteConfigMap_outcomes_witness :
  let w' := (@DeleteConfigMap Example8.lockedData Example.store "app-config" "default"
               Example.stored).2 in
  disk w' = disk Example.stored
  \/ (is_Some (disk Example.stored !! "default-app-config-k2dcm.metadata")
      /\ disk w' !! "default-app-config-k2dcm.metadata" = None
      /\ exists f, GoStrings.HasPrefix f "default-app-config-k2dcm-" = true
                   /\ is_Some (disk w' !! f)).
Proof.
  intros w'.
  exact (@DeleteConfigMap_outcomes Example8.lockedData Example.store "app-config" "default"
           Example.stored w'
           (Err (Errorf "unable to remove configmap data file default-app-config-k2dcm-B"
                        (ErrSyscall (SysRemove "default-app-config-k2dcm-B"))))
           ltac:(vm_compute; reflexivity)).
Defined.

(** ** Reading leaves the directory as it is *)

Section read_only.
Import GoStrings GoStringsFacts.
Context `{Pkg}.
Variable s : FileSystemStore.

Lemma readOnly_refl (w : World) : readOnly w w.
Proof. split; [done|]. split; [done|]. by exists []. Qed.

Lemma readOnly_trans (w1 w2 w3 : World) :
  readOnly w1 w2 -> readOnly w2 w3 -> readOnly w1 w3.
Proof.
  intros (Hd1 & Hc1 & c1 & Ht1 & Hr1) (Hd2 & Hc2 & c2 & Ht2 & Hr2).
  split; [congruence|]. split; [congruence|].
  exists (c2 ++ c1). split; [by rewrite Ht2, Ht1, List.app_assoc|].
  by rewrite forallb_app, Hr1, Hr2.
Qed.

Lemma readOnly_logCall (c : syscall) (w : World) :
  isReadCall c = true -> readOnly w (logCall c w).
Proof.
  intros Hc. split; [done|]. split; [done|]. exists [c]. split; [done|].
  cbn. by rewrite Hc.
Qed.

Lemma ReadDir_readOnly (w w' : World) (r : result (list string)) :
  os.ReadDir w = (r, w') -> readOnly w w'.
Proof.
  unfold os.ReadDir. destruct (refuses SysReadDir); intros [= <- <-];
    by apply readOnly_logCall.
Qed.

Lemma ReadFile_readOnly (name : string) (w w' : World) (r : result string) :
  os.ReadFile name w = (r, w') -> readOnly w w'.
Proof.
  unfold os.ReadFile. destruct (refuses (SysReadFile name));
    [|destruct (disk w !! name)]; intros [= <- <-]; by apply readOnly_logCall.
Qed.

Lemma Stat_readOnly (name : string) (w w' : World) (r : result File) :
  os.Stat name w = (r, w') -> readOnly w w'.
Proof.
  unfold os.Stat. destruct (refuses (SysStat name));
    [|destruct (disk w !! name)]; intros [= <- <-]; by apply readOnly_logCall.
Qed.

Lemma LoadMetadataFromDisk_readOnly (name : string) (w w' : World)
    (r : result (gmap string string)) :
  pkg_filesystem.LoadMetadataFromDisk name w = (r, w') -> readOnly w w'.
Proof.
  unfold pkg_filesystem.LoadMetadataFromDisk. rewrite run_bind.
  destruct (os.ReadFile name w) as [[data|e] w1] eqn:Hread.
  - apply ReadFile_readOnly in Hread.
    destruct (decodeMetadata data); by intros [= <- <-].
  - apply ReadFile_readOnly in Hread. by intros [= <- <-].
Qed.

(** A loop whose body only reads only reads. *)
Lemma forRange_readOnly {A S} (body : S -> A -> M S) (l : list A) :
  (forall acc x w w' r, body acc x w = (r, w') -> readOnly w w') ->
  forall acc w r w', forRange body l acc w = (r, w') -> readOnly w w'.
Proof.
  intros Hbody. induction l as [|x l IH]; intros acc w r w'.
  - intros [= <- <-]. apply readOnly_refl.
  - cbn [forRange]. rewrite run_bind.
    destruct (body acc x w) as [[acc'|e] w1] eqn:Hone.
    + intros Hrest. eapply readOnly_trans; [by eapply Hbody|by eapply IH].
    + intros [= <- <-]. by eapply Hbody.
Qed.

Lemma readConfigMapFile_readOnly (p : string) (cm : ConfigMap) (file : string)
    (w w' : World) (r : result ConfigMap) :
  readConfigMapFile s p cm file w = (r, w') -> readOnly w w'.
Proof.
  unfold readConfigMapFile. destruct (HasPrefix file p);
    [|intros [= <- <-]; apply readOnly_refl].
  rewrite run_bind, run_wrap.
  destruct (os.ReadFile file w) as [[data|e] w1] eqn:Hread;
    apply ReadFile_readOnly in Hread; [|by intros [= <- <-]].
  rewrite run_bind, run_wrap.
  destruct (os.Stat file w1) as [[info|e] w2] eqn:Hstat;
    apply Stat_readOnly in Hstat; intros [= <- <-]; by eapply readOnly_trans.
Qed.

Lemma listConfigMapFile_readOnly (p : string) (cm : ConfigMap) (file : string)
    (w w' : World) (r : result ConfigMap) :
  listConfigMapFile p cm file w = (r, w') -> readOnly w w'.
Proof.
  unfold listConfigMapFile. destruct (HasPrefix file p);
    [|intros [= <- <-]; apply readOnly_refl].
  rewrite run_bind, run_wrap.
  destruct (os.ReadFile file w) as [[data|e] w1] eqn:Hread;
    apply ReadFile_readOnly in Hread; [|by intros [= <- <-]].
  rewrite run_bind, run_wrap.
  destruct (os.Stat file w1) as [[info|e] w2] eqn:Hstat;
    apply Stat_readOnly in Hstat; intros [= <- <-]; by eapply readOnly_trans.
Qed.

Lemma listConfigMap_readOnly (files : list string) (cms : list ConfigMap) (name : string)
    (w w' : World) (r : result (list ConfigMap)) :
  listConfigMap files cms name w = (r, w') -> readOnly w w'.
Proof.
  unfold listConfigMap. rewrite run_bind, run_wrap.
  destruct (pkg_filesystem.LoadMetadataFromDisk _ w) as [[md|e] w1] eqn:Hload;
    apply LoadMetadataFromDisk_readOnly in Hload; [|by intros [= <- <-]].
  cbv zeta. rewrite run_bind.
  destruct (forRange _ _ _ w1) as [[cm|e] w2] eqn:Hloop;
    apply (forRange_readOnly _ _ (listConfigMapFile_readOnly _)) in Hloop;
    intros [= <- <-]; by eapply readOnly_trans.
Qed.

(** [GetConfigMap] and [GetConfigMaps], whatever they return, leave every
    entry of the directory and the clock as they were, and make read calls
    only: they list, read and stat, and never write or remove. *)
Theorem reads_leave_directory (n ns : string) (w : World) :
  readOnly w (GetConfigMap s n ns w).2 /\ readOnly w (GetConfigMaps s ns w).2.
Proof.
  split.
  - destruct (refuses SysReadDir) eqn:Hr;
      [rewrite (GetConfigMap_refused s n ns w Hr); by apply readOnly_logCall|].
    destruct (hasMatchingConfigMapFile (os.entryNames (disk w))
                (buildConfigMapFilePrefix n ns)) eqn:Hm.
    + rewrite (GetConfigMap_found s n ns w Hr Hm).
      destruct (pkg_filesystem.LoadMetadataFromDisk _ _) as [[md|e] w1] eqn:Hload;
        apply LoadMetadataFromDisk_readOnly in Hload.
      * destruct (forRange _ _ _ w1) as [r w2] eqn:Hloop.
        apply (forRange_readOnly _ _ (readConfigMapFile_readOnly _)) in Hloop.
        eapply readOnly_trans; [by apply (readOnly_logCall SysReadDir)|].
        by eapply readOnly_trans.
      * eapply readOnly_trans; [by apply (readOnly_logCall SysReadDir)|done].
    + rewrite (GetConfigMap_not_found s n ns w Hr Hm). by apply readOnly_logCall.
  - unfold GetConfigMaps. rewrite run_bind, run_wrap.
    destruct (os.ReadDir w) as [[files|e] w0] eqn:Hdir;
      apply ReadDir_readOnly in Hdir; [|done].
    cbv beta iota zeta. rewrite run_bind.
    destruct (forRange _ _ _ _) as [[cms|e] w1] eqn:Hloop;
      apply (forRange_readOnly _ _ (listConfigMap_readOnly _)) in Hloop;
      by eapply readOnly_trans.
Qed.

End read_only.

(** ** What [StoreConfigMap] does to the directory, call by call *)

Section store_more.
Import GoStrings GoStringsFacts.
Context `{Pkg}.
Variable s : FileSystemStore.

Local Abbreviation storedLabels cm :=
  (Labels cm ∪ {[ NamespaceNameLabelKey := Namespace cm ]} : gmap string string).

(** [StoreConfigMap] stores the metadata before any data.  When the store
    of the metadata fails, it returns that failure, wrapped, and does
    nothing more: no data file is written.  And whenever a run of it,
    successful or not, has created or changed an entry with the data-file
    prefix, the metadata file holds the encoded labels with the namespace
    label. *)
Theorem StoreConfigMap_metadata_first (cm : ConfigMap) (w : World) :
  let p := buildConfigMapFilePrefix (Name cm) (Namespace cm) in
  let m := buildConfigMapMetadataFileName (Name cm) (Namespace cm) in
  (forall e w1,
     pkg_filesystem.StoreMetadataOnDisk m (storedLabels cm) w = (Err e, w1) ->
     StoreConfigMap s cm w
     = (Err (Errorf "unable to store configmap metadata on disk" e), w1))
  /\ (forall f, HasPrefix f p = true ->
                disk (StoreConfigMap s cm w).2 !! f <> disk w !! f ->
                disk (StoreConfigMap s cm w).2 !! m
                = Some (mkFile (encodeMetadata (storedLabels cm)) (clock w))).
Proof.
  intros p m. split.
  - intros e w1 Hmeta. unfold StoreConfigMap. rewrite run_bind, run_wrap.
    fold m. unfold pkg_maputils.MergeMapsInPlace. by rewrite Hmeta.
  - intros f Hp.
    destruct (StoreConfigMap s cm w) as [r w'] eqn:Hstore. cbn [snd].
    revert Hstore. unfold StoreConfigMap. rewrite run_bind, run_wrap.
    unfold pkg_filesystem.StoreMetadataOnDisk, os.WriteFile at 1. cbv beta iota zeta.
    fold p m.
    destruct (refuses (SysWriteFile m) || _); [by intros [= <- <-]|].
    rewrite run_wrap.
    destruct (pkg_filesystem.StoreDataMapOnDisk _ _ _) as [r0 w1] eqn:Hdata.
    intros Hrun _.
    assert (w' = w1) as -> by (destruct r0; by injection Hrun).
    rewrite (StoreDataMapOnDisk_frame _ _ _ _ _ Hdata).
    + cbn [disk]. by rewrite lookup_insert_eq.
    + intros k _. apply metadata_ne_data.
Qed.

(** A store over a directory without an entry with the prefix, and the
    reading after it, when both succeed. *)
Lemma store_then_get_absent (cm : ConfigMap) (w w1 : World) (cm' : ConfigMap)
    (w2 : World) :
  (forall f, is_Some (disk w !! f) ->
             HasPrefix f (buildConfigMapFilePrefix (Name cm) (Namespace cm)) = false) ->
  StoreConfigMap s cm w = (Ok tt, w1) ->
  GetConfigMap s (Name cm) (Namespace cm) w1 = (Ok cm', w2) ->
  decodeMetadata (encodeMetadata (storedLabels cm)) = Some (Labels cm')
  /\ Data cm' = Data cm
  /\ Data cm <> ∅.
Proof.
  intros Habsent Hstore Hget.
  destruct (store_then_get s cm w w1 cm' w2 Hstore Hget) as (_ & _ & Hl & Hin & Hout).
  split; [done|]. split.
  - apply map_eq. intros k. destruct (Data cm !! k) as [v|] eqn:Hk; [by apply Hin|].
    rewrite (Hout k Hk).
    destruct (disk w !! _) as [x|] eqn:Hx; [|done].
    specialize (Habsent _ (ex_intro _ x Hx)). by rewrite HasPrefix_app in Habsent.
  - destruct (store_then_get_exists s cm w w1 _ cm' w2 Hstore Hget)
      as [(f & Hf & Hp)|Hne]; [|done].
    by rewrite (Habsent f Hf) in Hp.
Qed.

(** When a store into a directory where no entry has the prefix of the
    resource, whatever else the directory holds, succeeds, and the reading
    of the resource then succeeds, the resource read has exactly the data
    map stored, which is not empty, and the labels the metadata codec reads
    back from the labels stored with the namespace label. *)
Theorem store_get_when_absent (cm : ConfigMap) (w w1 : World) (cm' : ConfigMap)
    (w2 : World) :
  (forall f, is_Some (disk w !! f) ->
             HasPrefix f (buildConfigMapFilePrefix (Name cm) (Namespace cm)) = false) ->
  StoreConfigMap s cm w = (Ok tt, w1) ->
  GetConfigMap s (Name cm) (Namespace cm) w1 = (Ok cm', w2) ->
  decodeMetadata (encodeMetadata (storedLabels cm)) = Some (Labels cm')
  /\ Data cm' = Data cm
  /\ Data cm <> ∅.
Proof. apply store_then_get_absent. Qed.

(** The directory after a successful [DeleteConfigMap]: the metadata file
    and every entry with the prefix are gone, the others are as before. *)
Lemma DeleteConfigMap_Ok_disk (n ns : string) (w w' : World) :
  DeleteConfigMap s n ns w = (Ok tt, w') ->
  forall g, disk w' !! g
            = if decide (HasPrefix g (buildConfigMapFilePrefix n ns) = true
                         \/ g = buildConfigMapMetadataFileName n ns)
              then None else disk w !! g.
Proof.
  intros Hdel g.
  pose proof (DeleteConfigMap_allowed s n ns w w' Hdel) as Hr.
  destruct (hasMatchingConfigMapFile (os.entryNames (disk w))
              (buildConfigMapFilePrefix n ns)) eqn:Hm;
    [|by rewrite (DeleteConfigMap_not_found s n ns w Hr Hm) in Hdel].
  rewrite (DeleteConfigMap_found s n ns w Hr Hm) in Hdel.
  destruct (os.Remove _ _) as [[[]|e0] w1] eqn:Hrm; [|done].
  apply Remove_inv in Hrm as [(_ & _ & Hd & _)|[(? & ? & _) _]]; [|done].
  rewrite (remove_loop_Ok _ _ _ _ Hdel g), Hd. cbn [disk logCall].
  destruct (decide (g ∈ os.entryNames (disk w) /\ _)) as [[Hin Hp]|Hn1].
  - by rewrite decide_True by (by left).
  - destruct (decide (HasPrefix g _ = true \/ _)) as [[Hp| ->]|Hn2].
    + rewrite lookup_delete_None. right.
      destruct (disk w !! g) as [x|] eqn:Hx; [|done].
      exfalso. apply Hn1. split; [|done]. apply elem_of_entryNames. by exists x.
    + by rewrite lookup_delete_eq.
    + rewrite lookup_delete_ne; [done|]. intros <-. apply Hn2. by right.
Qed.

(** Deleting a resource and then storing it is a full replacement: when
    the removal succeeds, the store after it succeeds and the reading after
    that succeeds, the resource read has exactly the data map stored, which
    is not empty, with no key of the resource removed, and the labels the
    metadata codec reads back from the labels stored with the namespace
    label. *)
Theorem delete_store_get (cm : ConfigMap) (w w0 w1 : World) (cm' : ConfigMap)
    (w2 : World) :
  DeleteConfigMap s (Name cm) (Namespace cm) w = (Ok tt, w0) ->
  StoreConfigMap s cm w0 = (Ok tt, w1) ->
  GetConfigMap s (Name cm) (Namespace cm) w1 = (Ok cm', w2) ->
  decodeMetadata (encodeMetadata (storedLabels cm)) = Some (Labels cm')
  /\ Data cm' = Data cm
  /\ Data cm <> ∅.
Proof.
  intros Hdel. apply store_then_get_absent.
  intros f [x Hx]. rewrite (DeleteConfigMap_Ok_disk _ _ _ _ Hdel f) in Hx.
  destruct (decide _) as [|Hn]; [done|].
  apply not_true_iff_false. intros Hp. apply Hn. by left.
Qed.

(** Storing a resource twice, the second time with another data map, does
    not replace the first: when no entry had the prefix before, both stores
    succeed and the reading after them succeeds, the resource read has the
    keys of both, the second store winning where both have the key, and the
    labels the metadata codec reads back from the labels of the second
    store with the namespace label. *)
Theorem store_store_get (cm1 cm2 : ConfigMap) (w w1 w2 : World) (cm' : ConfigMap)
    (w3 : World) :
  Name cm2 = Name cm1 -> Namespace cm2 = Namespace cm1 ->
  (forall f, is_Some (disk w !! f) ->
             HasPrefix f (buildConfigMapFilePrefix (Name cm1) (Namespace cm1)) = false) ->
  StoreConfigMap s cm1 w = (Ok tt, w1) ->
  StoreConfigMap s cm2 w1 = (Ok tt, w2) ->
  GetConfigMap s (Name cm1) (Namespace cm1) w2 = (Ok cm', w3) ->
  decodeMetadata (encodeMetadata (storedLabels cm2)) = Some (Labels cm')
  /\ Data cm' = Data cm2 ∪ Data cm1.
Proof.
  intros Hn Hns Habsent Hstore1 Hstore2 Hget.
  destruct (StoreConfigMap_Ok s cm1 w w1 Hstore1) as [_ Hin1].
  pose proof (StoreConfigMap_frame s cm1 w w1 _ Hstore1) as Hout1.
  rewrite <- Hn, <- Hns in Hget.
  destruct (store_then_get s cm2 w1 w2 cm' w3 Hstore2 Hget) as (_ & _ & Hl & Hin & Hout).
  rewrite Hn, Hns in Hout.
  split; [done|].
  apply map_eq. intros k. rewrite lookup_union.
  destruct (Data cm2 !! k) as [v2|] eqn:Hk2.
  - rewrite (Hin k v2 Hk2). by destruct (Data cm1 !! k).
  - rewrite (Hout k Hk2), (left_id_L None _).
    destruct (Data cm1 !! k) as [v1|] eqn:Hk1.
    + destruct (Hin1 k v1 Hk1) as [t ->]. done.
    + rewrite Hout1.
      * destruct (disk w !! _) as [x|] eqn:Hx; [|done].
        specialize (Habsent _ (ex_intro _ x Hx)). by rewrite HasPrefix_app in Habsent.
      * apply not_eq_sym, metadata_ne_data.
      * intros k' [v Hk'] Heq. apply app_inj_l in Heq as ->. congruence.
Qed.

End store_more.

Lemma StoreConfigMap_metadata_first_witness :
  @StoreConfigMap Example8.readOnlyDisk Example.store Example.appConfig emptyWorld
  = (Err (Errorf "unable to store configmap metadata on disk"
                 (ErrSyscall (SysWriteFile "default-app-config-k2dcm.metadata"))),
     logCall (SysWriteFile "default-app-config-k2dcm.metadata") emptyWorld).
Proof.
  apply (@StoreConfigMap_metadata_first Example8.readOnlyDisk Example.store
           Example.appConfig emptyWorld).
  reflexivity.
Defined.

Lemma store_get_when_absent_witness :
  let w1 := (@StoreConfigMap linePkg Example.store Example.appConfig Example5.kubeStored).2 in
  let cm' := returned (@GetConfigMap linePkg Example.store "app-config" "default" w1) in
  LineCodec.decode (LineCodec.encode ({[ "env" := "prod" ]}
                      ∪ {[ "store.k2d.io/namespace-name" := "default" ]}))
  = Some (Labels cm')
  /\ Data cm' = {[ "A" := "1"; "B" := "2" ]}
  /\ ({[ "A" := "1"; "B" := "2" ]} : gmap string string) <> ∅.
Proof.
  intros w1 cm'.
  apply (@store_get_when_absent linePkg Example.store Example.appConfig Example5.kubeStored
           w1 cm' (@GetConfigMap linePkg Example.store "app-config" "default" w1).2).
  - apply matching_entry. vm_compute. reflexivity.
  - vm_compute. reflexivity.
  - vm_compute. reflexivity.
Defined.

Lemma delete_store_get_witness :
  let w1 := (@StoreConfigMap linePkg Example.store Example2.appConfig' Example5.deleted).2 in
  let cm' := returned (@GetConfigMap linePkg Example.store "app-config" "default" w1) in
  LineCodec.decode (LineCodec.encode ({[ "env" := "prod" ]}
                      ∪ {[ "store.k2d.io/namespace-name" := "default" ]}))
  = Some (Labels cm')
  /\ Data cm' = {[ "A" := "one" ]}
  /\ ({[ "A" := "one" ]} : gmap string string) <> ∅.
Proof.
  intros w1 cm'.
  apply (@delete_store_get linePkg Example.store Example2.appConfig' Example.stored
           Example5.deleted w1 cm'
           (@GetConfigMap linePkg Example.store "app-config" "default" w1).2).
  - vm_compute. reflexivity.
  - vm_compute. reflexivity.
  - vm_compute. reflexivity.
Defined.

Lemma store_store_get_witness :
  let w2 := (@StoreConfigMap linePkg Example.store Example2.appConfig' Example.stored).2 in
  let cm' := returned (@GetConfigMap linePkg Example.store "app-config" "default" w2) in
  LineCodec.decode (LineCodec.encode ({[ "env" := "prod" ]}
                      ∪ {[ "store.k2d.io/namespace-name" := "default" ]}))
  = Some (Labels cm')
  /\ Data cm' = {[ "A" := "one" ]} ∪ {[ "A" := "1"; "B" := "2" ]}.
Proof.
  intros w2 cm'.
  apply (@store_store_get linePkg Example.store Example.appConfig Example2.appConfig'
           emptyWorld Example.stored w2 cm'
           (@GetConfigMap linePkg Example.store "app-config" "default" w2).2).
  - reflexivity.
  - reflexivity.
  - intros f [x Hx]. cbn [disk emptyWorld] in Hx. by rewrite lookup_empty in Hx.
  - vm_compute. reflexivity.
  - vm_compute. reflexivity.
  - vm_compute. reflexivity.
Defined.

(** ** The order of the listing, and what a reading depends on *)

Section locality.
Import GoStrings GoStringsFacts.
Context `{Pkg}.
Variable s : FileSystemStore.

Lemma StronglySorted_entryNames (d : gmap string File) :
  StronglySorted String.le (os.entryNames d).
Proof. apply StronglySorted_merge_sort; apply _. Qed.

Lemma StronglySorted_filter {A} (R : relation A) (P : A -> Prop)
    `{forall x, Decision (P x)} (l : list A) :
  StronglySorted R l -> StronglySorted R (filter P l).
Proof.
  induction 1 as [|x l Hl IH Hx]; [constructor|].
  rewrite filter_cons. destruct (decide (P x)); [|done].
  constructor; [done|]. rewrite Forall_forall in Hx |- *.
  intros y [_ Hy]%list_elem_of_filter. by apply Hx.
Qed.

(** The files with the prefix, in the order of the listing. *)
Local Abbreviation matching p files :=
  (filter (fun f : string => HasPrefix f p = true) files).

(** The loop only looks at the files with the prefix. *)
Lemma readEntry_fold_matching (p : string) (d : gmap string File) (files : list string)
    (cm : ConfigMap) :
  foldl (readEntry s p d) cm files = foldl (readEntry s p d) cm (matching p files).
Proof.
  revert cm. induction files as [|file files IH]; intros cm; [done|].
  rewrite filter_cons. cbn [foldl]. destruct (decide (HasPrefix file p = true)) as [Hp|Hp].
  - cbn [foldl]. apply IH.
  - rewrite IH. f_equal. unfold readEntry. by apply not_true_is_false in Hp as ->.
Qed.

(** The timestamp after the loop is the modification time of the last file
    read. *)
Lemma readEntry_fold_time (p : string) (d : gmap string File) (l : list string)
    (cm : ConfigMap) :
  (forall f, f ∈ l -> HasPrefix f p = true /\ is_Some (d !! f)) ->
  CreationTimestamp (foldl (readEntry s p d) cm l)
  = match last l with
    | Some f => modTime <$> d !! f
    | None => CreationTimestamp cm
    end.
Proof.
  induction l as [|x l IH] using rev_ind; intros Hall; [done|].
  rewrite foldl_snoc, last_snoc.
  destruct (Hall x) as [Hp [file Hfile]]; [apply elem_of_app; right; by left|].
  unfold readEntry. by rewrite Hp, Hfile.
Qed.

(** The creation timestamp [GetConfigMap] returns is the modification time
    of one data file of the resource: the one whose name is the greatest,
    since the files are read in the order of the sorted listing and each
    file overwrites the timestamp. *)
Theorem GetConfigMap_timestamp (n ns : string) (w w' : World) (cm : ConfigMap) :
  GetConfigMap s n ns w = (Ok cm, w') ->
  exists f file,
    HasPrefix f (buildConfigMapFilePrefix n ns) = true
    /\ disk w !! f = Some file
    /\ CreationTimestamp cm = Some (modTime file)
    /\ forall g, is_Some (disk w !! g) ->
                 HasPrefix g (buildConfigMapFilePrefix n ns) = true -> String.le g f.
Proof.
  intros (Hm & mf & md & _ & _ & -> & _)%GetConfigMap_inv.
  set (p := buildConfigMapFilePrefix n ns) in *.
  set (l := matching p (os.entryNames (disk w))).
  assert (Hl : forall f, f ∈ l -> HasPrefix f p = true /\ is_Some (disk w !! f)).
  { intros f [Hp Hf]%list_elem_of_filter. split; [done|]. by apply elem_of_entryNames. }
  assert (Hsorted : StronglySorted String.le l)
    by apply StronglySorted_filter, StronglySorted_entryNames.
  rewrite readEntry_fold_matching. fold l. rewrite (readEntry_fold_time p _ l _ Hl).
  destruct (last l) as [f|] eqn:Hlast.
  - destruct (Hl f) as [Hp [file Hfile]]; [by eapply last_Some_elem_of|].
    exists f, file. split; [done|]. split; [done|]. split; [by rewrite Hfile|].
    intros g Hg Hgp.
    assert (Hin : g ∈ l) by (apply list_elem_of_filter; split; [done|];
                             by apply elem_of_entryNames).
    apply last_Some in Hlast as [l' Hl']. rewrite Hl' in Hin, Hsorted.
    apply elem_of_app in Hin as [Hin|Hin].
    + eapply StronglySorted_app_1_elem_of; [done|done|by left].
    + apply list_elem_of_singleton in Hin as ->. done.
  - apply hasMatchingConfigMapFile_true in Hm as (f & Hf & Hp).
    apply last_None in Hlast.
    assert (Hin : f ∈ l) by (by apply list_elem_of_filter).
    rewrite Hlast in Hin. by apply elem_of_nil in Hin.
Qed.

(** Two directories with the same entries under the prefix list them in
    the same order. *)
Lemma matching_entryNames_agree (p : string) (d1 d2 : gmap string File) :
  (forall f, HasPrefix f p = true -> d1 !! f = d2 !! f) ->
  matching p (os.entryNames d1) = matching p (os.entryNames d2).
Proof.
  intros Hagree.
  apply (StronglySorted_unique String.le);
    [apply StronglySorted_filter, StronglySorted_entryNames..|].
  apply NoDup_Permutation; [apply NoDup_filter, NoDup_entryNames..|].
  intros f. rewrite !list_elem_of_filter, !elem_of_entryNames.
  split; intros [Hp Hf]; (split; [done|]); by rewrite (Hagree f Hp) in *.
Qed.

(** The loop makes its calls for the files with the prefix only. *)
Lemma read_loop_matching (p : string) (files : list string) (cm : ConfigMap) (w : World) :
  forRange (readConfigMapFile s p) files cm w
  = forRange (readConfigMapFile s p) (matching p files) cm w.
Proof.
  revert cm w. induction files as [|file files IH]; intros cm w; [done|].
  rewrite filter_cons. destruct (decide (HasPrefix file p = true)) as [Hp|Hp].
  - cbn [forRange]. rewrite !run_bind.
    destruct (readConfigMapFile s p cm file w) as [[cm1|e] w1]; [apply IH|done].
  - apply not_true_is_false in Hp. cbn [forRange]. rewrite run_bind.
    rewrite (readConfigMapFile_skip s _ _ _ _ Hp). apply IH.
Qed.

(** What the loop returns over files with the prefix depends on these
    files only. *)
Lemma read_loop_agree (p : string) (l : list string) (cm : ConfigMap) (w1 w2 : World) :
  (forall f, f ∈ l -> HasPrefix f p = true /\ disk w1 !! f = disk w2 !! f) ->
  (forRange (readConfigMapFile s p) l cm w1).1
  = (forRange (readConfigMapFile s p) l cm w2).1.
Proof.
  revert cm w1 w2. induction l as [|f l IH]; intros cm w1 w2 Hagree; [done|].
  destruct (Hagree f) as [Hp Hf]; [by left|].
  cbn [forRange]. rewrite !run_bind.
  rewrite (readConfigMapFile_run s _ _ _ w1 Hp), (readConfigMapFile_run s _ _ _ w2 Hp).
  unfold readEntry. rewrite Hp, <- Hf.
  destruct (refuses (SysReadFile f)); [done|].
  destruct (disk w1 !! f) as [x|]; [|done].
  destruct (refuses (SysStat f)); [done|].
  apply IH. intros g Hg. cbn [disk logCall]. apply Hagree. by right.
Qed.

(** What loading the metadata returns depends on the metadata file only. *)
Lemma LoadMetadataFromDisk_agree (name : string) (w1 w2 : World) :
  disk w1 !! name = disk w2 !! name ->
  (pkg_filesystem.LoadMetadataFromDisk name w1).1
  = (pkg_filesystem.LoadMetadataFromDisk name w2).1.
Proof.
  intros Hagree. unfold pkg_filesystem.LoadMetadataFromDisk. rewrite !run_bind.
  unfold os.ReadFile. rewrite <- Hagree.
  destruct (refuses (SysReadFile name)); [done|].
  destruct (disk w1 !! name) as [x|]; [|done].
  by destruct (decodeMetadata (content x)).
Qed.

(** Two directories that agree on the entries with the prefix and on the
    metadata file give the same reading. *)
Lemma GetConfigMap_agree (n ns : string) (w1 w2 : World) :
  (forall f, HasPrefix f (buildConfigMapFilePrefix n ns) = true
             \/ f = buildConfigMapMetadataFileName n ns ->
             disk w1 !! f = disk w2 !! f) ->
  (GetConfigMap s n ns w1).1 = (GetConfigMap s n ns w2).1.
Proof.
  intros Hagree.
  destruct (refuses SysReadDir) eqn:Hr;
    [by rewrite !(GetConfigMap_refused s n ns _ Hr)|].
  set (p := buildConfigMapFilePrefix n ns) in *.
  set (m := buildConfigMapMetadataFileName n ns) in *.
  assert (Hlist : matching p (os.entryNames (disk w1)) = matching p (os.entryNames (disk w2))).
  { apply matching_entryNames_agree. intros f Hp. apply Hagree. by left. }
  assert (Hsame : hasMatchingConfigMapFile (os.entryNames (disk w1)) p
                  = hasMatchingConfigMapFile (os.entryNames (disk w2)) p).
  { apply eq_true_iff_eq. rewrite !hasMatchingConfigMapFile_true.
    split; intros (f & Hf & Hp); exists f; (split; [|done]);
      apply elem_of_entryNames; apply elem_of_entryNames in Hf;
      [rewrite <- (Hagree f)|rewrite (Hagree f)]; auto. }
  destruct (hasMatchingConfigMapFile (os.entryNames (disk w1)) p) eqn:Hm1;
    symmetry in Hsame.
  - rewrite (GetConfigMap_found s n ns w1 Hr Hm1), (GetConfigMap_found s n ns w2 Hr Hsame).
    fold m p.
    pose proof (LoadMetadataFromDisk_agree m (logCall SysReadDir w1) (logCall SysReadDir w2)
                  (Hagree m (or_intror eq_refl))) as Hload.
    destruct (pkg_filesystem.LoadMetadataFromDisk m (logCall SysReadDir w1))
      as [[md1|e1] w1'] eqn:Hload1;
      destruct (pkg_filesystem.LoadMetadataFromDisk m (logCall SysReadDir w2))
        as [[md2|e2] w2'] eqn:Hload2; cbn [fst] in Hload; try done.
    + injection Hload as <-.
      apply LoadMetadataFromDisk_disk in Hload1 as [Hd1 _].
      apply LoadMetadataFromDisk_disk in Hload2 as [Hd2 _].
      rewrite (read_loop_matching p (os.entryNames (disk w1))),
              (read_loop_matching p (os.entryNames (disk w2))), Hlist.
      apply read_loop_agree.
      intros f [Hp _]%list_elem_of_filter. split; [done|].
      rewrite Hd1, Hd2. cbn [disk logCall]. apply Hagree. by left.
    + by injection Hload as <-.
  - by rewrite (GetConfigMap_not_found s n ns w1 Hr Hm1),
               (GetConfigMap_not_found s n ns w2 Hr Hsame).
Qed.

(** What [GetConfigMap] returns, a resource or a failure, depends on the
    entries with the prefix of the resource and on its metadata file, and
    on nothing else in the directory. *)
Theorem GetConfigMap_local (n ns : string) (w1 w2 : World) :
  (forall f, HasPrefix f (buildConfigMapFilePrefix n ns) = true
             \/ f = buildConfigMapMetadataFileName n ns ->
             disk w1 !! f = disk w2 !! f) ->
  (GetConfigMap s n ns w1).1 = (GetConfigMap s n ns w2).1.
Proof. apply GetConfigMap_agree. Qed.

(** The metadata file of one resource is not a data file of another, for
    names that neither contain the separator nor end with it cut before its
    last dash. *)
Lemma metadata_name_not_data (n1 n2 rest : string) :
  Contains n1 ConfigMapSeparator = false -> Contains n2 ConfigMapSeparator = false ->
  HasSuffix n1 "-k2dcm" = false -> HasSuffix n2 "-k2dcm" = false ->
  n2 +:+ "-k2dcm.metadata" <> n1 +:+ ConfigMapSeparator +:+ rest.
Proof.
  unfold ConfigMapSeparator. intros Hc1 Hc2 Hs1 Hs2 Heq.
  apply app_eq_app in Heq as [r [[-> Heq]|[-> Heq]]].
  - rewrite !app_cons, !app_nil_l in Heq.
    do 6 (destruct r as [|? r]; [by rewrite ?app_nil_l in Heq|];
          rewrite app_cons in Heq; injection Heq as <- Heq).
    destruct r as [|? r].
    + by rewrite HasSuffix_app in Hs2.
    + rewrite app_cons in Heq. injection Heq as <- Heq.
      change (Contains (n1 +:+ "-k2dcm-" +:+ r) "-k2dcm-" = false) in Hc2.
      by rewrite Contains_app in Hc2.
  - rewrite !app_cons, !app_nil_l in Heq.
    do 16 (destruct r as [|? r]; [by rewrite ?app_nil_l in Heq|];
           rewrite app_cons in Heq; try discriminate; injection Heq as <- Heq).
Qed.

(** The hypotheses on two identities under which their files are apart. *)
Lemma files_apart (n1 ns1 n2 ns2 : string) :
  (n1, ns1) <> (n2, ns2) ->
  ns1 = ns2 \/ (Contains ns1 "-" = false /\ Contains ns2 "-" = false) ->
  Contains n1 ConfigMapSeparator = false -> Contains n2 ConfigMapSeparator = false ->
  HasSuffix n1 "-k2dcm" = false -> HasSuffix n2 "-k2dcm" = false ->
  buildConfigMapMetadataFileName n1 ns1 <> buildConfigMapMetadataFileName n2 ns2
  /\ HasPrefix (buildConfigMapMetadataFileName n2 ns2) (buildConfigMapFilePrefix n1 ns1) = false
  /\ (forall k, HasPrefix (buildConfigMapFilePrefix n2 ns2 +:+ k)
                          (buildConfigMapFilePrefix n1 ns1) = false).
Proof.
  intros Hne Hns Hc1 Hc2 Hs1 Hs2.
  assert (Hns' : ns2 = ns1 \/ (Contains ns2 "-" = false /\ Contains ns1 "-" = false))
    by (destruct Hns as [->|[? ?]]; auto).
  unfold buildConfigMapMetadataFileName, buildConfigMapFilePrefix.
  split; [|split].
  - intros Heq. apply (namespace_cut _ _ _ _ Hns) in Heq as [-> Heq].
    apply app_inj_r in Heq as ->. done.
  - apply not_true_iff_false. intros [rest Heq]%HasPrefix_spec.
    rewrite !app_assoc in Heq.
    apply (namespace_cut _ _ _ _ Hns') in Heq as [-> Heq].
    by apply (metadata_name_not_data n1 n2 rest).
  - intros k. apply not_true_iff_false. intros [rest Heq]%HasPrefix_spec.
    rewrite !app_assoc in Heq.
    apply (namespace_cut _ _ _ _ Hns') in Heq as [-> Heq].
    apply Hne. f_equal.
    apply (data_prefix_name_inj n1 n2 k); try done.
    apply HasPrefix_spec. exists rest. by rewrite app_assoc.
Qed.

End locality.

(** ** One resource is not touched by the operations on another *)

Section isolation.
Import GoStrings GoStringsFacts.
Context `{Pkg}.
Variable s : FileSystemStore.

(** [DeleteConfigMap], whatever it returns, touches no entry but the
    metadata file and the entries with the prefix. *)
Lemma DeleteConfigMap_frame (n ns : string) (w w' : World) (r : result unit) :
  DeleteConfigMap s n ns w = (r, w') ->
  forall g, HasPrefix g (buildConfigMapFilePrefix n ns) = false ->
            g <> buildConfigMapMetadataFileName n ns ->
            disk w' !! g = disk w !! g.
Proof.
  destruct (refuses SysReadDir) eqn:Hr;
    [rewrite (DeleteConfigMap_refused s n ns w Hr); by intros [= <- <-]|].
  destruct (hasMatchingConfigMapFile (os.entryNames (disk w))
              (buildConfigMapFilePrefix n ns)) eqn:Hm.
  - rewrite (DeleteConfigMap_found s n ns w Hr Hm).
    destruct (os.Remove _ _) as [[[]|e0] w1] eqn:Hrm.
    + apply Remove_inv in Hrm as [(_ & _ & Hd & _)|[(? & ? & _) _]]; [|done].
      intros Hrun g Hg Hne.
      rewrite (remove_loop_frame _ _ _ _ _ Hrun g Hg), Hd. cbn [disk logCall].
      by rewrite lookup_delete_ne.
    + apply Remove_inv in Hrm as [[? _]|(_ & Hd & _)]; [done|].
      intros [= <- <-] g _ _. by rewrite Hd.
  - rewrite (DeleteConfigMap_not_found s n ns w Hr Hm). by intros [= <- <-].
Qed.

(** Storing a resource does not change what [GetConfigMap] returns for
    another identity, a resource or a failure, when the two identities share
    the namespace or have namespaces without a dash, and the names neither
    contain the separator nor end with [-k2dcm]. *)
Theorem StoreConfigMap_isolated (cm : ConfigMap) (n1 ns1 : string) (w : World) :
  (n1, ns1) <> (Name cm, Namespace cm) ->
  ns1 = Namespace cm \/ (Contains ns1 "-" = false /\ Contains (Namespace cm) "-" = false) ->
  Contains n1 ConfigMapSeparator = false -> Contains (Name cm) ConfigMapSeparator = false ->
  HasSuffix n1 "-k2dcm" = false -> HasSuffix (Name cm) "-k2dcm" = false ->
  (GetConfigMap s n1 ns1 (StoreConfigMap s cm w).2).1 = (GetConfigMap s n1 ns1 w).1.
Proof.
  intros Hne Hns Hc1 Hc2 Hs1 Hs2.
  destruct (files_apart n1 ns1 _ _ Hne Hns Hc1 Hc2 Hs1 Hs2) as (Hmm & Hmd & Hdd).
  assert (Hne' : (Name cm, Namespace cm) <> (n1, ns1)) by congruence.
  assert (Hns' : Namespace cm = ns1
                 \/ (Contains (Namespace cm) "-" = false /\ Contains ns1 "-" = false))
    by (destruct Hns as [->|[? ?]]; auto).
  destruct (files_apart _ _ n1 ns1 Hne' Hns' Hc2 Hc1 Hs2 Hs1) as (_ & Hmd' & _).
  destruct (StoreConfigMap s cm w) as [r w1] eqn:Hstore. cbn [snd].
  apply GetConfigMap_agree.
  intros f Hf. apply (StoreConfigMap_frame s cm w w1 r Hstore).
  - intros ->. destruct Hf as [Hf|Hf]; congruence.
  - intros k _ ->. destruct Hf as [Hf|Hf].
    + by rewrite Hdd in Hf.
    + rewrite <- Hf, HasPrefix_app in Hmd'. done.
Qed.

(** Deleting a resource, whether it succeeds or fails, does not change
    what [GetConfigMap] returns for another identity, under the same
    hypotheses on the two identities. *)
Theorem DeleteConfigMap_isolated (n2 ns2 n1 ns1 : string) (w : World) :
  (n1, ns1) <> (n2, ns2) ->
  ns1 = ns2 \/ (Contains ns1 "-" = false /\ Contains ns2 "-" = false) ->
  Contains n1 ConfigMapSeparator = false -> Contains n2 ConfigMapSeparator = false ->
  HasSuffix n1 "-k2dcm" = false -> HasSuffix n2 "-k2dcm" = false ->
  (GetConfigMap s n1 ns1 (DeleteConfigMap s n2 ns2 w).2).1 = (GetConfigMap s n1 ns1 w).1.
Proof.
  intros Hne Hns Hc1 Hc2 Hs1 Hs2.
  destruct (files_apart n1 ns1 _ _ Hne Hns Hc1 Hc2 Hs1 Hs2) as (Hmm & Hmd & Hdd).
  assert (Hne' : (n2, ns2) <> (n1, ns1)) by congruence.
  assert (Hns' : ns2 = ns1 \/ (Contains ns2 "-" = false /\ Contains ns1 "-" = false))
    by (destruct Hns as [->|[? ?]]; auto).
  destruct (files_apart _ _ n1 ns1 Hne' Hns' Hc2 Hc1 Hs2 Hs1) as (_ & Hmd' & Hdd').
  destruct (DeleteConfigMap s n2 ns2 w) as [r w'] eqn:Hdel. cbn [snd].
  apply GetConfigMap_agree. intros f Hf.
  apply (DeleteConfigMap_frame n2 ns2 w w' r Hdel).
  - destruct Hf as [Hf| ->]; [|done].
    apply HasPrefix_TrimPrefix in Hf. rewrite Hf. apply Hdd'.
  - intros ->. destruct Hf as [Hf|Hf]; congruence.
Qed.

End isolation.

Lemma GetConfigMap_timestamp_witness :
  exists cm f file,
    (@GetConfigMap linePkg Example.store "app-config" "default" Example.stored).1 = Ok cm
    /\ GoStrings.HasPrefix f "default-app-config-k2dcm-" = true
    /\ disk Example.stored !! f = Some file
    /\ CreationTimestamp cm = Some (modTime file).
Proof.
  destruct (@GetConfigMap_timestamp linePkg Example.store "app-config" "default"
              Example.stored _ _ ltac:(vm_compute; reflexivity))
    as (f & file & Hp & Hfile & Htime & _).
  eexists _, f, file. split; [vm_compute; reflexivity|]. by split.
Defined.

Lemma StoreConfigMap_isolated_witness :
  (@GetConfigMap linePkg Example.store "app-config" "default"
     (@StoreConfigMap linePkg Example.store Example4.kubeConfig Example.stored).2).1
  = (@GetConfigMap linePkg Example.store "app-config" "default" Example.stored).1.
Proof.
  apply (@StoreConfigMap_isolated linePkg Example.store Example4.kubeConfig
           "app-config" "default" Example.stored);
    [discriminate | right; split; reflexivity | reflexivity..].
Defined.

Lemma DeleteConfigMap_isolated_witness :
  (@GetConfigMap linePkg Example.store "app-config" "default"
     (@DeleteConfigMap linePkg Example.store "db-config" "default" Example6.twoResources).2).1
  = (@GetConfigMap linePkg Example.store "app-config" "default" Example6.twoResources).1.
Proof.
  apply (@DeleteConfigMap_isolated linePkg Example.store "db-config" "default"
           "app-config" "default" Example6.twoResources);
    [discriminate | by left | reflexivity..].
Defined.

Lemma GetConfigMap_local_witness :
  (@GetConfigMap linePkg Example.store "app-config" "default" Example.stored).1
  = (@GetConfigMap linePkg Example.store "app-config" "default" Example7.withNotes).1.
Proof.
  apply (@GetConfigMap_local linePkg Example.store "app-config" "default"
           Example.stored Example7.withNotes).
  intros f Hf. unfold Example7.withNotes. cbn [disk].
  rewrite lookup_insert_ne; [reflexivity|].
  intros <-. destruct Hf as [Hf|Hf]; [discriminate Hf|discriminate Hf].
Defined.

(** ** The binds of any resource *)

Section binds_more.
Import GoStrings GoStringsFacts.
Variable s : FileSystemStore.

(** The binds [GetConfigMapBinds] returns come from the annotations that
    start with the path prefix and from no other: every bind holds the value
    of such an annotation, under the key of the annotation without the prefix
    and its slash, and a resource none of whose annotations starts with the
    prefix has no binds. *)
Theorem binds_come_from_path_annotations (cm : ConfigMap) :
  (forall k v, (GetConfigMapBinds s cm).1 !! k = Some v ->
     exists key, default ∅ (Annotations cm) !! key = Some v
                 /\ HasPrefix key FilePathAnnotationKey = true
                 /\ k = TrimPrefix key (FilePathAnnotationKey +:+ "/"))
  /\ ((forall key, is_Some (default ∅ (Annotations cm) !! key) ->
                   HasPrefix key FilePathAnnotationKey = false) ->
      (GetConfigMapBinds s cm).1 = ∅).
Proof.
  unfold GetConfigMapBinds. cbn [fst].
  generalize (default ∅ (Annotations cm)). intros a. split.
  - revert a.
    apply (map_fold_weak_ind
             (fun (binds a : gmap string string) =>
                forall k v, binds !! k = Some v ->
                  exists key, a !! key = Some v
                              /\ HasPrefix key FilePathAnnotationKey = true
                              /\ k = TrimPrefix key (FilePathAnnotationKey +:+ "/"))).
    + intros k v Hk. by rewrite lookup_empty in Hk.
    + intros key value a binds Hfresh IH k v Hk.
      assert (Hold : binds !! k = Some v ->
                exists key', <[key:=value]> a !! key' = Some v
                             /\ HasPrefix key' FilePathAnnotationKey = true
                             /\ k = TrimPrefix key' (FilePathAnnotationKey +:+ "/")).
      { intros (key' & Hkey' & Hp & Hk')%IH. exists key'. split; [|done].
        rewrite lookup_insert_ne; [done|]. intros <-. congruence. }
      destruct (HasPrefix key FilePathAnnotationKey) eqn:Hp; [|by apply Hold].
      destruct (decide (k = TrimPrefix key (FilePathAnnotationKey +:+ "/"))) as [->|Hne].
      * rewrite lookup_insert_eq in Hk. injection Hk as <-.
        exists key. by rewrite lookup_insert_eq.
      * rewrite lookup_insert_ne in Hk by done. by apply Hold.
  - revert a.
    apply (map_fold_weak_ind
             (fun (binds a : gmap string string) =>
                (forall key, is_Some (a !! key) ->
                             HasPrefix key FilePathAnnotationKey = false) ->
                binds = ∅)); [done|].
    intros key value a binds Hfresh IH Hnone.
    rewrite (Hnone key) by (by rewrite lookup_insert_eq).
    apply IH. intros key' [v Hv]. apply Hnone. exists v.
    rewrite lookup_insert_ne; [done|]. intros <-. congruence.
Qed.

End binds_more.

(** ** The items of a listing *)

Section listing_more.
Import GoStrings GoStringsFacts.
Context `{Pkg}.
Variable s : FileSystemStore.

(** The names [GetConfigMaps] builds its items from. *)
Local Abbreviation listedNames ns d :=
  (pkg_strings.RemoveItemsWithSuffix
     (pkg_strings.FilterStringsByPrefix
        (pkg_strings.UniquePrefixes (os.entryNames d) ConfigMapSeparator) ns)
     ".metadata").

(** The metadata file of the name is there and decodes to [md]. *)
Local Abbreviation decodes d name md :=
  (exists mf, d !! (name +:+ "-k2dcm.metadata") = Some mf
              /\ decodeMetadata (content mf) = Some md).

(** The outer loop, when it succeeds, has appended one item per name, in
    the order of the names. *)
Lemma list_outer_loop_items (files names : list string) (cms cms' : list ConfigMap)
    (w w' : World) :
  forRange (listConfigMap files) names cms w = (Ok cms', w') ->
  exists items,
    cms' = cms ++ items
    /\ Forall2 (fun name it => exists md, decodes (disk w) name md
                                          /\ it = listItem (disk w) files name md)
               names items.
Proof.
  revert cms w. induction names as [|name names IH]; intros cms w.
  - intros [= <- <-]. exists []. split; [by rewrite List.app_nil_r|constructor].
  - cbn [forRange]. rewrite run_bind.
    destruct (listConfigMap files cms name w) as [[cms1|e] w1] eqn:Hone; [|done].
    apply listConfigMap_inv in Hone as (mf & md & Hmf & Hmd & -> & Hd & _).
    intros Hrest. apply IH in Hrest as (items & -> & Hitems).
    exists (listItem (disk w) files name md :: items).
    split; [by rewrite <- List.app_assoc|].
    constructor; [exists md; split; [by exists mf|done]|].
    by rewrite Hd in Hitems.
Qed.

(** The items of a successful [GetConfigMaps], name by name. *)
Lemma GetConfigMaps_Forall2 (ns : string) (w w' : World) (l : ConfigMapList) :
  GetConfigMaps s ns w = (Ok l, w') ->
  ListKind l = "ConfigMapList" /\ ListAPIVersion l = "v1"
  /\ Forall2 (fun name it =>
                exists md, decodes (disk w) name md
                  /\ it = listItem (disk w) (os.entryNames (disk w)) name md)
             (listedNames ns (disk w)) (Items l).
Proof.
  unfold GetConfigMaps. rewrite run_bind, run_wrap. unfold os.ReadDir.
  destruct (refuses SysReadDir); [done|].
  cbv beta iota zeta. rewrite run_bind.
  destruct (forRange _ _ _ _) as [[cms|e] w1] eqn:Hloop; [|done].
  intros [= <- <-]. cbn [Items ListKind ListAPIVersion]. split; [done|]. split; [done|].
  apply list_outer_loop_items in Hloop as (items & -> & Hitems).
  by change (disk (logCall SysReadDir w)) with (disk w) in Hitems.
Qed.

(** The fields of the item of a name. *)
Lemma listItem_fields (d : gmap string File) (files : list string) (name : string)
    (md : gmap string string) :
  let ns := default "" (md !! NamespaceNameLabelKey) in
  let n := TrimPrefix name (ns +:+ "-") in
  Labels (listItem d files name md) = md
  /\ Namespace (listItem d files name md) = ns
  /\ Name (listItem d files name md) = n
  /\ Annotations (listItem d files name md) = None
  /\ forall k, Data (listItem d files name md) !! k
               = match (if decide (buildConfigMapFilePrefix n ns +:+ k ∈ files)
                        then d !! (buildConfigMapFilePrefix n ns +:+ k) else None) with
                 | Some f => Some (content f)
                 | None => None
                 end.
Proof.
  intros ns n. rewrite (listItem_forget s d files name md). cbv zeta. fold ns. fold n.
  destruct (readEntry_fold_frame s (buildConfigMapFilePrefix n ns) d files
              (setLabels (mkConfigMap "ConfigMap" "v1" n ns ∅ (Some ∅) None ∅) md))
    as (_ & _ & Hn & Hns & Hl).
  cbn [forgetAnnotations Labels Namespace Name Annotations Data].
  rewrite Hn, Hns, Hl. do 4 (split; [done|]).
  intros k. by rewrite readEntry_fold_Data.
Qed.

(** A successful [GetConfigMaps] returns exactly one item per listed name,
    in the order of the names: the item of a name carries the labels of the
    metadata file of the name, the namespace that the namespace label
    records (the empty string without the label), the name cut after that
    namespace and a dash, and no annotations. *)
Theorem GetConfigMaps_items (ns : string) (w w' : World) (l : ConfigMapList) :
  GetConfigMaps s ns w = (Ok l, w') ->
  ListKind l = "ConfigMapList" /\ ListAPIVersion l = "v1"
  /\ Forall2 (fun name it =>
                exists md, decodes (disk w) name md
                  /\ Labels it = md
                  /\ Namespace it = default "" (md !! NamespaceNameLabelKey)
                  /\ Name it = TrimPrefix name (Namespace it +:+ "-")
                  /\ Annotations it = None
                  /\ it = listItem (disk w) (os.entryNames (disk w)) name md)
             (listedNames ns (disk w)) (Items l).
Proof.
  intros (Hk & Hv & Hitems)%GetConfigMaps_Forall2. split; [done|]. split; [done|].
  eapply Forall2_impl; [exact Hitems|].
  intros name it (md & Hdec & ->). exists md. split; [done|].
  destruct (listItem_fields (disk w) (os.entryNames (disk w)) name md)
    as (Hl & Hns & Hn & Ha & _).
  split; [done|]. split; [done|]. split; [by rewrite Hn, Hns|]. by split.
Qed.

(** [GetConfigMaps] returns all or nothing.  When it returns a list, the
    metadata file of every listed name is there and decodes; when the
    metadata file of one listed name is missing or does not decode, it
    fails, and no partial list is returned, whatever the other resources
    are. *)
Theorem GetConfigMaps_all_or_nothing (ns : string) (w : World) :
  (forall l, (GetConfigMaps s ns w).1 = Ok l ->
     forall name, name ∈ listedNames ns (disk w) -> exists md, decodes (disk w) name md)
  /\ (forall name, name ∈ listedNames ns (disk w) ->
        (forall mf, disk w !! (name +:+ "-k2dcm.metadata") = Some mf ->
                    decodeMetadata (content mf) = None) ->
        exists e, (GetConfigMaps s ns w).1 = Err e).
Proof.
  assert (Hok : forall l, (GetConfigMaps s ns w).1 = Ok l ->
            forall name, name ∈ listedNames ns (disk w) ->
                         exists md, decodes (disk w) name md).
  { intros l Hl.
    destruct (GetConfigMaps s ns w) as [r w'] eqn:Hrun. cbn [fst] in Hl. subst r.
    apply GetConfigMaps_Forall2 in Hrun as (_ & _ & Hitems).
    intros name [i Hi]%list_elem_of_lookup.
    destruct (Forall2_lookup_l _ _ _ _ _ Hitems Hi) as (it & _ & md & Hdec & _).
    by exists md. }
  split; [exact Hok|].
  intros name Hname Hbad.
  destruct (GetConfigMaps s ns w) as [[l|e] w'] eqn:Hrun; [|by exists e].
  destruct (Hok l eq_refl name Hname) as (md & mf & Hmf & Hmd).
  by rewrite (Hbad mf Hmf) in Hmd.
Qed.

End listing_more.

Lemma GetConfigMaps_all_or_nothing_witness :
  exists e, (@GetConfigMaps linePkg Example.store "default" Example.halfDeleted).1 = Err e.
Proof.
  apply (@GetConfigMaps_all_or_nothing linePkg Example.store "default" Example.halfDeleted)
    with (name := "default-app-config").
  - vm_compute. apply list_elem_of_here.
  - intros mf Hmf. vm_compute in Hmf. discriminate Hmf.
Defined.

(** ** Every resource of the namespace is listed, and once *)

Section listing_complete.
Import GoStrings GoStringsFacts.
Context `{Pkg}.
Variable s : FileSystemStore.

Local Abbreviation listedNames ns d :=
  (pkg_strings.RemoveItemsWithSuffix
     (pkg_strings.FilterStringsByPrefix
        (pkg_strings.UniquePrefixes (os.entryNames d) ConfigMapSeparator) ns)
     ".metadata").

Lemma SplitHead_unfold (str sep : string) :
  SplitHead str sep
  = if HasPrefix str sep then ""
    else match str with
         | EmptyString => ""
         | String c str' => String c (SplitHead str' sep)
         end.
Proof. by destruct str. Qed.

(** A separator that starts inside [x], in [x] followed by the separator,
    already starts there in [x] followed by the separator without its last
    dash. *)
Lemma separator_inside (x k : string) :
  x <> "" ->
  HasPrefix (x +:+ ConfigMapSeparator +:+ k) ConfigMapSeparator = true ->
  HasPrefix (x +:+ "-k2dcm") ConfigMapSeparator = true.
Proof.
  unfold ConfigMapSeparator. intros Hx [r Heq]%HasPrefix_spec.
  rewrite !app_cons, !app_nil_l in Heq.
  destruct x as [|? x]; [done|]. rewrite app_cons in Heq. injection Heq as -> Heq.
  do 5 (destruct x as [|? x]; [by rewrite app_nil_l in Heq|];
        rewrite app_cons in Heq; injection Heq as -> Heq).
  destruct x as [|? x]; [done|].
  rewrite app_cons in Heq. injection Heq as -> Heq.
  rewrite !app_cons. cbn [HasPrefix]. by rewrite !Ascii.eqb_refl.
Qed.

(** The text before the first separator of a data file name is the
    namespace, a dash and the name, when the separator does not occur
    earlier. *)
Lemma SplitHead_data_file (u k : string) :
  Contains (u +:+ "-k2dcm") ConfigMapSeparator = false ->
  SplitHead (u +:+ ConfigMapSeparator +:+ k) ConfigMapSeparator = u.
Proof.
  induction u as [|c u IH]; intros Hc.
  - by rewrite app_nil_l, SplitHead_unfold, HasPrefix_app.
  - rewrite app_cons in Hc. cbn [Contains] in Hc.
    apply orb_false_elim in Hc as [Hp Hc].
    rewrite SplitHead_unfold.
    destruct (HasPrefix (String c u +:+ ConfigMapSeparator +:+ k) ConfigMapSeparator) eqn:Hin.
    + apply separator_inside in Hin; [|done]. rewrite app_cons in Hin. congruence.
    + rewrite app_cons. f_equal. by apply IH.
Qed.

(** When [GetConfigMaps] of a namespace succeeds, a resource of that
    namespace is among the items, with its name, its namespace, its labels
    and the content of every one of its data files, provided that it has a
    data file, that its metadata file records the namespace, that the
    separator does not occur in its namespace, dash and name followed by
    [-k2dcm], and that these do not end with [.metadata]. *)
Theorem GetConfigMaps_complete (n ns k : string) (w w' : World) (l : ConfigMapList)
    (mf : File) (md : gmap string string) :
  GetConfigMaps s ns w = (Ok l, w') ->
  disk w !! buildConfigMapMetadataFileName n ns = Some mf ->
  decodeMetadata (content mf) = Some md ->
  md !! NamespaceNameLabelKey = Some ns ->
  is_Some (disk w !! (buildConfigMapFilePrefix n ns +:+ k)) ->
  Contains ((ns +:+ "-" +:+ n) +:+ "-k2dcm") ConfigMapSeparator = false ->
  HasSuffix (ns +:+ "-" +:+ n) ".metadata" = false ->
  exists it,
    it ∈ Items l /\ Name it = n /\ Namespace it = ns /\ Labels it = md
    /\ forall k', Data it !! k'
                  = content <$> disk w !! (buildConfigMapFilePrefix n ns +:+ k').
Proof.
  intros (_ & _ & Hitems)%GetConfigMaps_Forall2 Hmf Hmd Hlabel Hfile Hsep Hsuffix.
  set (u := ns +:+ "-" +:+ n) in *.
  assert (Hp : buildConfigMapFilePrefix n ns = u +:+ ConfigMapSeparator)
    by (unfold buildConfigMapFilePrefix, u; by rewrite !app_assoc).
  assert (Hm : buildConfigMapMetadataFileName n ns = u +:+ "-k2dcm.metadata")
    by (unfold buildConfigMapMetadataFileName, u; by rewrite !app_assoc).
  assert (Hu : u ∈ listedNames ns (disk w)).
  { apply list_elem_of_filter. split; [done|].
    apply list_elem_of_filter. split; [apply HasPrefix_app|].
    apply elem_of_remove_dups, list_elem_of_fmap.
    exists (buildConfigMapFilePrefix n ns +:+ k). split; [|by apply elem_of_entryNames].
    rewrite Hp, app_assoc. symmetry. by apply SplitHead_data_file. }
  apply list_elem_of_lookup in Hu as [i Hi].
  destruct (Forall2_lookup_l _ _ _ _ _ Hitems Hi) as (it & Hit & md' & (mf' & Hmf' & Hmd') & ->).
  rewrite <- Hm, Hmf in Hmf'. injection Hmf' as <-. rewrite Hmd in Hmd'. injection Hmd' as <-.
  destruct (listItem_fields s (disk w) (os.entryNames (disk w)) u md)
    as (Hl & Hns & Hn & _ & Hdata).
  rewrite Hlabel in Hns, Hn, Hdata. cbn [default id] in Hns, Hn, Hdata.
  assert (Hcut : TrimPrefix u (ns +:+ "-") = n)
    by (unfold u; by rewrite <- (app_assoc ns "-" n), TrimPrefix_app).
  rewrite Hcut in Hn, Hdata.
  eexists. split; [by eapply list_elem_of_lookup_2|].
  split; [done|]. split; [done|]. split; [done|].
  intros k'. rewrite Hdata.
  destruct (decide _) as [Hin|Hnin].
  - by destruct (disk w !! (buildConfigMapFilePrefix n ns +:+ k')).
  - destruct (disk w !! (buildConfigMapFilePrefix n ns +:+ k')) as [f|] eqn:Hf; [|done].
    exfalso. apply Hnin, elem_of_entryNames. by exists f.
Qed.

(** In a directory whose metadata files agree with their names, no two
    items of a listing have the same name and namespace. *)
Theorem GetConfigMaps_no_duplicates (ns : string) (w w' : World) (l : ConfigMapList) :
  labelsAgree (disk w) ->
  GetConfigMaps s ns w = (Ok l, w') ->
  NoDup ((fun it => (Name it, Namespace it)) <$> Items l).
Proof.
  intros Hagree (_ & _ & Hitems)%GetConfigMaps_Forall2.
  assert (Hnames : (fun it => Namespace it +:+ "-" +:+ Name it) <$> Items l
                   = listedNames ns (disk w)).
  { symmetry. apply list_eq_Forall2, Forall2_fmap_r.
    eapply Forall2_impl; [exact Hitems|].
    intros name it (md & (mf & Hmf & Hmd) & ->). unfold compose.
    destruct (listItem_fields s (disk w) (os.entryNames (disk w)) name md)
      as (_ & -> & -> & _).
    rewrite <- (app_assoc _ "-" _). apply HasPrefix_TrimPrefix. by eapply Hagree. }
  apply (NoDup_fmap_1 (fun p : string * string => p.2 +:+ "-" +:+ p.1)).
  rewrite <- list_fmap_compose.
  change ((fun p : string * string => p.2 +:+ "-" +:+ p.1)
          ∘ (fun it => (Name it, Namespace it)))
    with (fun it => Namespace it +:+ "-" +:+ Name it).
  rewrite Hnames. apply NoDup_filter, NoDup_filter, NoDup_remove_dups.
Qed.

End listing_complete.

Lemma GetConfigMaps_items_witness :
  ListKind Example.listing = "ConfigMapList" /\ ListAPIVersion Example.listing = "v1"
  /\ exists it, Items Example.listing = [it]
       /\ Name it = "app-config" /\ Namespace it = "default" /\ Annotations it = None.
Proof.
  destruct (@GetConfigMaps_items linePkg Example.store "default" Example.stored
              (@GetConfigMaps linePkg Example.store "default" Example.stored).2
              Example.listing ltac:(vm_compute; reflexivity)) as (Hk & Hv & _).
  split; [exact Hk|]. split; [exact Hv|].
  exists Example.item. repeat split; reflexivity.
Defined.

Lemma GetConfigMaps_complete_witness :
  exists it,
    it ∈ Items Example.listing /\ Name it = "app-config" /\ Namespace it = "default"
    /\ Data it !! "A" = Some "1".
Proof.
  destruct (@GetConfigMaps_complete linePkg Example.store "app-config" "default" "A"
              Example.stored
              (@GetConfigMaps linePkg Example.store "default" Example.stored).2
              Example.listing
              (mkFile (LineCodec.encode ({[ "env" := "prod" ]}
                         ∪ {[ "store.k2d.io/namespace-name" := "default" ]})) 0)
              ({[ "env" := "prod" ]} ∪ {[ "store.k2d.io/namespace-name" := "default" ]}))
    as (it & Hin & Hn & Hns & _ & Hdata);
    [vm_compute; reflexivity | vm_compute; reflexivity | vm_compute; reflexivity
    | vm_compute; reflexivity | by eexists | reflexivity | reflexivity |].
  exists it. split; [exact Hin|]. split; [exact Hn|]. split; [exact Hns|].
  rewrite Hdata. vm_compute. reflexivity.
Defined.

Lemma GetConfigMaps_no_duplicates_witness :
  NoDup ((fun it => (Name it, Namespace it)) <$> Items Example.listing).
Proof.
  apply (@GetConfigMaps_no_duplicates linePkg Example.store "default" Example.stored
           (@GetConfigMaps linePkg Example.store "default" Example.stored).2
           Example.listing).
  - apply labelsAgreeb_correct. vm_compute. reflexivity.
  - vm_compute. reflexivity.
Defined.

(** ** Store and delete, delete and delete *)

Section undo.
Import GoStrings GoStringsFacts.
Context `{Pkg}.
Variable s : FileSystemStore.

(** When a store of a resource where neither an entry with its prefix nor
    its metadata file was succeeds, and the removal of the resource then
    succeeds, the directory is as it was before the store: the removal
    takes away what the store wrote and nothing else. *)
Theorem store_delete_restores (cm : ConfigMap) (w w1 w2 : World) :
  (forall f, is_Some (disk w !! f) ->
             HasPrefix f (buildConfigMapFilePrefix (Name cm) (Namespace cm)) = false) ->
  disk w !! buildConfigMapMetadataFileName (Name cm) (Namespace cm) = None ->
  StoreConfigMap s cm w = (Ok tt, w1) ->
  DeleteConfigMap s (Name cm) (Namespace cm) w1 = (Ok tt, w2) ->
  disk w2 = disk w.
Proof.
  intros Habsent Hmeta Hstore Hdel.
  pose proof (StoreConfigMap_frame s cm w w1 _ Hstore) as Hout.
  apply map_eq. intros g. rewrite (DeleteConfigMap_Ok_disk s _ _ _ _ Hdel g).
  destruct (decide _) as [[Hp| ->]|Hn].
  - destruct (disk w !! g) as [x|] eqn:Hx; [|done].
    specialize (Habsent g (ex_intro _ x Hx)). congruence.
  - done.
  - apply Hout.
    + intros ->. apply Hn. by right.
    + intros k _ ->. apply Hn. left. apply HasPrefix_app.
Qed.


End undo.

Lemma store_delete_restores_witness :
  let w1 := (@StoreConfigMap linePkg Example.store Example.appConfig Example5.kubeStored).2 in
  disk (@DeleteConfigMap linePkg Example.store "app-config" "default" w1).2
  = disk Example5.kubeStored.
Proof.
  intros w1.
  apply (@store_delete_restores linePkg Example.store Example.appConfig Example5.kubeStored w1).
  - apply matching_entry. vm_compute. reflexivity.
  - vm_compute. reflexivity.
  - vm_compute. reflexivity.
  - vm_compute. reflexivity.
Defined.


(** ** The names of containers and networks *)

Section adapter_names.
Import GoStrings GoStringsFacts.

(** A container name with one leading slash, as the container runtime
    reports names, and the same name without it give the same name; and in
    one namespace two container names give the same name exactly when they
    are equal once that slash is cut. *)
Theorem buildContainerName_slash (c1 c2 ns : string) :
  adapter.buildContainerName ("/" +:+ c1) ns = ns +:+ "-" +:+ c1
  /\ (HasPrefix c1 "/" = false ->
      adapter.buildContainerName ("/" +:+ c1) ns = adapter.buildContainerName c1 ns)
  /\ (adapter.buildContainerName c1 ns = adapter.buildContainerName c2 ns
      <-> TrimPrefix c1 "/" = TrimPrefix c2 "/").
Proof.
  unfold adapter.buildContainerName. rewrite TrimPrefix_app. split; [done|]. split.
  - intros Hp. unfold TrimPrefix at 1. by rewrite Hp.
  - split; [|by intros ->]. intros Heq. by do 2 apply app_inj_l in Heq.
Qed.

(** Distinct namespaces have distinct network names, and the namespace is
    read back from the network name by cutting [k2d-]. *)
Theorem buildNetworkName_inj (ns1 ns2 : string) :
  (adapter.buildNetworkName ns1 = adapter.buildNetworkName ns2 <-> ns1 = ns2)
  /\ TrimPrefix (adapter.buildNetworkName ns1) "k2d-" = ns1.
Proof.
  unfold adapter.buildNetworkName. split; [|apply TrimPrefix_app].
  split; [apply app_inj_l|by intros ->].
Qed.

End adapter_names.
